(** * AirQ firmware: log store, clock gate, chunked transfer and radio loop

    A shallow embedding of the parts of [AirQ.ino] that persist readings,
    gate logging on the clock state, migrate legacy records, stream the
    history in chunks and push live data, together with the properties
    checked against the firmware's specification; then the sensor task, the
    characteristic callbacks and the bring-up and maintenance of the stores,
    with the properties the code itself shows.

    Conventions.  C++ [int], [uint8_t], [uint16_t], [uint32_t], [size_t] and
    [time_t] values are integers in [Z]; the places where the firmware
    truncates or wraps are written out ([wrap_int], [to_uint32]).  An Arduino
    [String] is a [string]; a blob stored in flash is a list of octets
    ([list Z], each in [0, 256)).  The key/value store ([Preferences]) is a
    finite map from key names to typed values; the file store ([LittleFS]) is
    a finite map from log paths to file contents.  Results of calls that
    depend on the hardware (free NVS entries, whether a flash write succeeds,
    whether the mutex was obtained) are read from an explicit environment
    record, so that every theorem quantifies over all hardware behaviours.
    Where a function waits ([delay], [vTaskDelay]) and what it leaves
    depends on the time, the wait is counted by the amount asked for. *)

From Stdlib Require Import ZArith List String Ascii Bool Lia.
From stdpp Require Import gmap strings list fin_maps pretty.

Open Scope Z_scope.

(* ===================================================================== *)
(** * Integers as the firmware has them *)
(* ===================================================================== *)

(** 32-bit two's complement wrap-around of an [int] result. *)
Definition wrap_int (z : Z) : Z := (z + 2 ^ 31) mod 2 ^ 32 - 2 ^ 31.

(** The cast [(uint32_t) x]. *)
Definition to_uint32 (z : Z) : Z := z mod 2 ^ 32.

(** [String(n)] for an integer: its decimal rendering. *)
Definition String_of (z : Z) : string := pretty z.

(** Arduino [s.substring(from, to)]: the characters at positions
    [from .. to-1]. *)
Definition substring_from_to (from to : nat) (s : string) : string :=
  String.substring from (to - from) s.

(** Arduino [s.substring(from)]: the characters from position [from] on. *)
Definition substring_from (from : nat) (s : string) : string :=
  String.substring from (String.length s - from) s.

(* ===================================================================== *)
(** * Constants of the sketch *)
(* ===================================================================== *)

Definition MAX_LOG_ENTRIES : Z := 100000.
Definition MAX_CHUNK_SIZE : Z := 400.
Definition ENTRIES_PER_BATCH : Z := 200.

Definition ERROR_NONE : Z := 0.
Definition ERROR_FLASH_WRITE_FAILED : Z := 5.

(** The sanity floor for timestamps: 1 January 2021, 00:00:00 UTC. *)
Definition JAN_1_2021 : Z := 1609459200.

(* ===================================================================== *)
(** * Records and their memory images *)
(* ===================================================================== *)

(** Octet [k] (counted from the least significant one) of [x]. *)
Definition le_byte (k : nat) (x : Z) : Z := (x / 256 ^ Z.of_nat k) mod 256.

(** The [n] octets of [x], least significant first (the target is
    little-endian). *)
Definition le_bytes (n : nat) (x : Z) : list Z :=
  List.map (fun k => le_byte k x) (seq 0 n).

(** The integer whose little-endian octets are [bs]. *)
Fixpoint le_combine (bs : list Z) : Z :=
  match bs with
  | [] => 0
  | b :: rest => b + 256 * le_combine rest
  end.

(** The [n] octets found at offset [off] of a memory image; octets past the
    end of the image read as 0, which is what a buffer initialised with
    [{0}] holds where a short read did not reach. *)
Definition octets_at (off n : nat) (image : list Z) : list Z :=
  List.map (fun k => nth (off + k) image 0) (seq 0 n).

Definition field_at (off n : nat) (image : list Z) : Z :=
  le_combine (octets_at off n image).

Module SensorData.

Record t : Type := mk {
  pm1_0_standard : Z;
  pm2_5_standard : Z;
  pm10_0_standard : Z;
  pm1_0_env : Z;
  pm2_5_env : Z;
  pm10_0_env : Z;
  particles_03um : Z;
  particles_05um : Z;
  particles_10um : Z;
  particles_25um : Z;
  particles_50um : Z;
  particles_100um : Z;
  battery_level : Z;
  timestamp : Z
}.

(** [sizeof(SensorData)]: twelve [uint16_t] (offsets 0..23), the [uint8_t]
    at 24, three octets of padding, the [uint32_t] at 28. *)
Definition sizeof : nat := 32.

(** The fields a buffer of [sizeof] octets holds. *)
Definition of_image (image : list Z) : t :=
  {| pm1_0_standard := field_at 0 2 image;
     pm2_5_standard := field_at 2 2 image;
     pm10_0_standard := field_at 4 2 image;
     pm1_0_env := field_at 6 2 image;
     pm2_5_env := field_at 8 2 image;
     pm10_0_env := field_at 10 2 image;
     particles_03um := field_at 12 2 image;
     particles_05um := field_at 14 2 image;
     particles_10um := field_at 16 2 image;
     particles_25um := field_at 18 2 image;
     particles_50um := field_at 20 2 image;
     particles_100um := field_at 22 2 image;
     battery_level := field_at 24 1 image;
     timestamp := field_at 28 4 image |}.

End SensorData.

Module LogData.

Record t : Type := mk {
  timestamp : Z;
  pm1_0_env : Z;
  pm2_5_env : Z;
  pm10_0_env : Z;
  battery_level : Z
}.

(** [sizeof(LogData)]: the [uint32_t] at offset 0, three [uint16_t] at 4, 6
    and 8, the [uint8_t] at 10 and one octet of tail padding (the struct is
    not packed, so its size is a multiple of its 4-octet alignment). *)
Definition sizeof : nat := 12.

(** The field ranges of the struct. *)
Definition in_range (r : t) : Prop :=
  0 <= timestamp r < 2 ^ 32 /\
  0 <= pm1_0_env r < 2 ^ 16 /\
  0 <= pm2_5_env r < 2 ^ 16 /\
  0 <= pm10_0_env r < 2 ^ 16 /\
  0 <= battery_level r < 2 ^ 8.

(** The [sizeof] octets written by
    [write((const uint8_t* )&logEntry, sizeof(LogData))]; [pad] is whatever the
    padding octet of the struct holds. *)
Definition image (pad : Z) (r : t) : list Z :=
  le_bytes 4 (timestamp r) ++ le_bytes 2 (pm1_0_env r) ++
  le_bytes 2 (pm2_5_env r) ++ le_bytes 2 (pm10_0_env r) ++
  le_bytes 1 (battery_level r) ++ [pad].

(** The struct a buffer holds after [read((uint8_t* )&logEntry, sizeof(LogData))]
    or [getBytes(key, &logEntry, sizeof(LogData))] copied [image] to its
    start. *)
Definition of_image (image : list Z) : t :=
  {| timestamp := field_at 0 4 image;
     pm1_0_env := field_at 4 2 image;
     pm2_5_env := field_at 6 2 image;
     pm10_0_env := field_at 8 2 image;
     battery_level := field_at 10 1 image |}.

(** [LogData logEntry = {0}]. *)
Definition zero : t := mk 0 0 0 0 0.

(** The conversion of a legacy full reading, as [loadNextBatch] and
    [migrateLegacyData] do it field by field. *)
Definition of_SensorData (d : SensorData.t) : t :=
  {| timestamp := SensorData.timestamp d;
     pm1_0_env := SensorData.pm1_0_env d;
     pm2_5_env := SensorData.pm2_5_env d;
     pm10_0_env := SensorData.pm10_0_env d;
     battery_level := SensorData.battery_level d |}.

(** The text form of one record in the transfer stream:
    [timestamp,pm1,pm2_5,pm10,battery;]. *)
Definition serialize (r : t) : string :=
  String_of (timestamp r) +:+ "," +:+
  String_of (pm1_0_env r) +:+ "," +:+
  String_of (pm2_5_env r) +:+ "," +:+
  String_of (pm10_0_env r) +:+ "," +:+
  String_of (battery_level r) +:+ ";".

End LogData.

(* ===================================================================== *)
(** * The environment of one call *)
(* ===================================================================== *)

(** What the hardware answers during one call of a firmware function: the
    flash may be full or worn, a file may fail to open, the mutex may be
    held by the other task.  The firmware branches on each of these answers;
    the model reads them from this record. *)
Record Env : Type := mkEnv {
  (** [preferences.freeEntries()] *)
  env_freeEntries : Z;
  (** whether the [n]-th [preferences.putBytes] of the call stores its blob
      (attempt 0 is the first write, attempt 1 the retry) *)
  env_putBytes_ok : nat -> bool;
  (** whether [preferences.putInt] stores its value *)
  env_putInt_ok : bool;
  (** the padding octet of a [LogData] built on the stack *)
  env_pad : Z;
  (** whether [LittleFS.mkdir] of this directory succeeds *)
  env_mkdir_ok : string -> bool;
  (** whether [LittleFS.open(path, "w")] yields a file *)
  env_open_w : string -> bool;
  (** how many octets a write to this file stores before the flash gives
      up; [LogData.sizeof] or more means a complete write *)
  env_written : string -> nat;
  (** whether [LittleFS.open(path, "r")] yields a file *)
  env_open_r : string -> bool;
  (** whether [xSemaphoreTake(dataMutex, 100 ms)] returned [pdTRUE] *)
  env_mutex : bool;
  (** whether the stop and the start of the advertising in
      [restartAdvertising] went through; [false] when one of them threw and
      the [catch] took over *)
  env_advertising_ok : bool
}.

(** The hardware on a good day: space left, every write complete, every
    file opens, the mutex is free, the advertising restarts. *)
Definition healthy : Env :=
  {| env_freeEntries := 1000;
     env_putBytes_ok := fun _ => true;
     env_putInt_ok := true;
     env_pad := 0;
     env_mkdir_ok := fun _ => true;
     env_open_w := fun _ => true;
     env_written := fun _ => LogData.sizeof;
     env_open_r := fun _ => true;
     env_mutex := true;
     env_advertising_ok := true |}.

(* ===================================================================== *)
(** * The key/value store ([Preferences], on NVS) *)
(* ===================================================================== *)

Inductive PrefValue : Type :=
| PInt (v : Z)
| PBool (b : bool)
| PBytes (blob : list Z).

Module Preferences.

Abbreviation t := (gmap string PrefValue).

(** [getInt(key, defaultValue)] *)
Definition getInt (key : string) (defaultValue : Z) (p : t) : Z :=
  match p !! key with
  | Some (PInt v) => v
  | _ => defaultValue
  end.

(** [getBytes(key, buf, maxLen)]: the library copies the blob and returns
    its length when it fits the buffer, and returns 0 without copying when
    there is no blob or when it is longer than [maxLen]. The second
    component is what was copied to the start of [buf]. *)
Definition getBytes (key : string) (maxLen : nat) (p : t) : nat * list Z :=
  match p !! key with
  | Some (PBytes blob) =>
      if (length blob <=? maxLen)%nat then (length blob, blob) else (0%nat, [])
  | _ => (0%nat, [])
  end.

(** [remove(key)]: true when the key was there. *)
Definition remove (key : string) (p : t) : bool * t :=
  (bool_decide (is_Some (p !! key)), delete key p).

(** [putBytes(key, value, len)]: the number of octets stored, 0 on
    failure. *)
Definition putBytes (ok : bool) (key : string) (blob : list Z) (p : t) : nat * t :=
  if ok then (length blob, <[key := PBytes blob]> p) else (0%nat, p).

(** [putInt(key, value)]: the number of octets stored, 0 on failure. *)
Definition putInt (ok : bool) (key : string) (v : Z) (p : t) : nat * t :=
  if ok then (4%nat, <[key := PInt v]> p) else (0%nat, p).

End Preferences.

(** The key of the circular-buffer slot of a logical index. *)
Definition slot_key (index : Z) : string :=
  "log" +:+ String_of (Z.rem index MAX_LOG_ENTRIES).

(** The keys older firmware used. *)
Definition legacy_key (i : Z) : string := "log_" +:+ String_of i.
Definition data_key (i : Z) : string := "data_" +:+ String_of i.

(* ===================================================================== *)
(** * The file store ([LittleFS]) *)
(* ===================================================================== *)

Record FileSystem : Type := mkFS {
  (** the directories under [/logs] that exist, by path *)
  fs_dirs : gset string;
  (** the log files that exist, by path, with their contents *)
  fs_files : gmap string (list Z);
  (** the number held by [/logs/metadata.txt], when the file exists *)
  fs_meta : option Z
}.

(** [getLittleFSLogPath(index)]: 1000 logs per directory. *)
Definition getLittleFSLogPath (index : Z) : string :=
  "/logs/" +:+ String_of (Z.quot index 1000) +:+ "/" +:+
  String_of (Z.rem index 1000) +:+ ".log".

(** [logPath.substring(0, logPath.lastIndexOf('/'))] for the path of
    [index]: the file name holds no slash, so this is the directory. *)
Definition getLittleFSLogDir (index : Z) : string :=
  "/logs/" +:+ String_of (Z.quot index 1000).

Definition metadata_path : string := "/logs/metadata.txt".

(** [if (!LittleFS.exists(dirPath)) LittleFS.mkdir(dirPath)]: the
    directories afterwards, and whether the directory is there. *)
Definition ensure_dir (env : Env) (dirPath : string) (fs : FileSystem)
  : bool * FileSystem :=
  if bool_decide (dirPath ∈ fs_dirs fs) then (true, fs)
  else if env_mkdir_ok env dirPath
       then (true, mkFS ({[dirPath]} ∪ fs_dirs fs) (fs_files fs) (fs_meta fs))
       else (false, fs).

(** Opening [path] for writing truncates it; the write then stores as many
    octets as the flash takes.  The result is the count returned by
    [write]. *)
Definition write_file (env : Env) (path : string) (octets : list Z)
    (fs : FileSystem) : nat * FileSystem :=
  let stored := take (env_written env path) octets in
  (length stored, mkFS (fs_dirs fs) (<[path := stored]> (fs_files fs)) (fs_meta fs)).

(** [metaFile = open("/logs/metadata.txt", "w"); if (metaFile) println(n)] *)
Definition write_metadata (env : Env) (n : Z) (fs : FileSystem) : FileSystem :=
  if env_open_w env metadata_path
  then mkFS (fs_dirs fs) (fs_files fs) (Some n)
  else fs.

(** [readLogFromLittleFS(index)]: the struct starts as all zeros and is
    returned as it is when the file is missing or does not open; otherwise
    up to [sizeof(LogData)] octets are read over its start.  A short read is
    reported on the serial line and the struct is returned all the same. *)
Definition readLogFromLittleFS (env : Env) (index : Z) (fs : FileSystem)
  : LogData.t :=
  let logPath := getLittleFSLogPath index in
  match fs_files fs !! logPath with
  | None => LogData.zero
  | Some content =>
      if env_open_r env logPath
      then LogData.of_image (take LogData.sizeof content)
      else LogData.zero
  end.

(* ===================================================================== *)
(** * The clock gate *)
(* ===================================================================== *)

Record Clock : Type := mkClock {
  rtcTimeSet : bool;
  rtcTimeAccurate : bool;
  (** seconds of the system clock, as [gettimeofday] reports them *)
  sysTime : Z;
  (** [millis()]: milliseconds since boot *)
  uptimeMs : Z
}.

(** The three states of the specification's Clock Gate. *)
Inductive GateState : Type := Unset | SetInaccurate | SetAccurate.

Definition gate_state (c : Clock) : GateState :=
  if rtcTimeAccurate c then SetAccurate
  else if rtcTimeSet c then SetInaccurate
  else Unset.

Definition gate_rank (g : GateState) : nat :=
  match g with Unset => 0 | SetInaccurate => 1 | SetAccurate => 2 end.

Definition initRTC (c : Clock) : Clock :=
  {| rtcTimeSet := false; rtcTimeAccurate := false;
     sysTime := sysTime c; uptimeMs := uptimeMs c |}.

Definition setRTCTime (epochTime : Z) (c : Clock) : Clock :=
  {| rtcTimeSet := true; rtcTimeAccurate := rtcTimeAccurate c;
     sysTime := epochTime; uptimeMs := uptimeMs c |}.

(** Time passing ([delay], [vTaskDelay], sleep): both counters advance. *)
Definition tick (ms : Z) (c : Clock) : Clock :=
  {| rtcTimeSet := rtcTimeSet c; rtcTimeAccurate := rtcTimeAccurate c;
     sysTime := sysTime c + ms / 1000; uptimeMs := uptimeMs c + ms |}.

(** [setRTCTimeFromBLE(epochTime)].  On a first sync (the clock was not
    accurate before) the pixel flashes green three times, [delay(200)] on
    and [delay(200)] off; [settimeofday] has just cleared the microseconds,
    so these 1200 ms move the seconds on by one. *)
Definition setRTCTimeFromBLE (epochTime : Z) (c : Clock) : Clock :=
  let c1 := setRTCTime epochTime c in
  let wasTimeAccurate := rtcTimeAccurate c1 in
  let c2 :=
    {| rtcTimeSet := rtcTimeSet c1; rtcTimeAccurate := true;
       sysTime := sysTime c1; uptimeMs := uptimeMs c1 |} in
  if negb wasTimeAccurate then tick (3 * (200 + 200)) c2 else c2.

(** The uptime-derived stand-in returned while the clock was never set. *)
Definition pseudo_time (c : Clock) : Z := JAN_1_2021 + uptimeMs c / 1000.

Definition getRTCTime (c : Clock) : Z :=
  if negb (rtcTimeSet c) then pseudo_time c else sysTime c.

(* ===================================================================== *)
(** * The log store *)
(* ===================================================================== *)

Record Store : Type := mkStore {
  logIndex : Z;
  useLittleFS : bool;
  preferences : Preferences.t;
  littlefs : FileSystem;
  lastError : Z
}.

Definition set_logIndex (n : Z) (st : Store) : Store :=
  mkStore n (useLittleFS st) (preferences st) (littlefs st) (lastError st).
Definition set_useLittleFS (b : bool) (st : Store) : Store :=
  mkStore (logIndex st) b (preferences st) (littlefs st) (lastError st).
Definition set_preferences (p : Preferences.t) (st : Store) : Store :=
  mkStore (logIndex st) (useLittleFS st) p (littlefs st) (lastError st).
Definition set_littlefs (fs : FileSystem) (st : Store) : Store :=
  mkStore (logIndex st) (useLittleFS st) (preferences st) fs (lastError st).
Definition set_lastError (e : Z) (st : Store) : Store :=
  mkStore (logIndex st) (useLittleFS st) (preferences st) (littlefs st) e.

(** The calls an append makes on the two backends, in order, each with the
    answer it got. *)
Inductive Call : Type :=
| NvsRemove (key : string) (found : bool)
| NvsPutBytes (key : string) (blob : list Z) (stored : nat)
| NvsPutInt (key : string) (v : Z) (stored : nat)
| FsMkdir (path : string) (ok : bool)
| FsOpenW (path : string) (ok : bool)
| FsWrite (path : string) (octets : list Z) (stored : nat).

Definition is_putBytes (c : Call) : bool :=
  match c with NvsPutBytes _ _ _ => true | _ => false end.

Definition is_remove (c : Call) : bool :=
  match c with NvsRemove _ _ => true | _ => false end.

(** [preferences.remove(key)] on the store, logged. *)
Definition remove_logged (key : string) (acc : Store * list Call)
  : Store * list Call :=
  let '(found, p) := Preferences.remove key (preferences (fst acc)) in
  (set_preferences p (fst acc), snd acc ++ [NvsRemove key found]).

(** [preferences.putBytes(key, &logEntry, sizeof(LogData))] on the store,
    logged; the first component is the call's result. *)
Definition putBytes_logged (ok : bool) (key : string) (blob : list Z)
    (acc : Store * list Call) : nat * (Store * list Call) :=
  let '(result, p) := Preferences.putBytes ok key blob (preferences (fst acc)) in
  (result, (set_preferences p (fst acc), snd acc ++ [NvsPutBytes key blob result])).

(** [saveLogToLittleFS(logEntry)] *)
Definition saveLogToLittleFS (env : Env) (logEntry : LogData.t) (st : Store)
  : Store * list Call :=
  let logPath := getLittleFSLogPath (logIndex st) in
  let dirPath := getLittleFSLogDir (logIndex st) in
  let existed := bool_decide (dirPath ∈ fs_dirs (littlefs st)) in
  let '(dir_ok, fs1) := ensure_dir env dirPath (littlefs st) in
  let tr1 := if existed then [] else [FsMkdir dirPath dir_ok] in
  if negb dir_ok then
    (set_lastError ERROR_FLASH_WRITE_FAILED st, tr1)
  else if negb (env_open_w env logPath) then
    (set_lastError ERROR_FLASH_WRITE_FAILED (set_littlefs fs1 st),
     tr1 ++ [FsOpenW logPath false])
  else
    let octets := LogData.image (env_pad env) logEntry in
    let '(bytesWritten, fs2) := write_file env logPath octets fs1 in
    let tr2 := tr1 ++ [FsOpenW logPath true; FsWrite logPath octets bytesWritten] in
    if negb (bytesWritten =? LogData.sizeof)%nat then
      (set_lastError ERROR_FLASH_WRITE_FAILED (set_littlefs fs2 st), tr2)
    else
      let logIndex' := wrap_int (logIndex st + 1) in
      (set_logIndex logIndex' (set_littlefs (write_metadata env logIndex' fs2) st),
       tr2).

(** The targeted cleanup of [logDataToFlash]: when space is very low and
    the buffer has wrapped, the entry about to be overwritten is removed. *)
Definition targeted_cleanup (env : Env) (st : Store) : Store * list Call :=
  if (env_freeEntries env <? 10) && (MAX_LOG_ENTRIES <=? logIndex st)
  then remove_logged (slot_key (logIndex st - MAX_LOG_ENTRIES)) (st, [])
  else (st, []).

(** The emergency cleanup that follows a failed write: the ten oldest slots
    once the buffer has wrapped, the first ten legacy keys before. *)
Definition emergency_cleanup (st : Store) (acc : Store * list Call)
  : Store * list Call :=
  if MAX_LOG_ENTRIES <=? logIndex st
  then fold_left
         (fun acc i => remove_logged (slot_key (logIndex st - MAX_LOG_ENTRIES + i)) acc)
         (seqZ 0 10) acc
  else fold_left (fun acc i => remove_logged (legacy_key i) acc) (seqZ 0 10) acc.

(** [logIndex++; preferences.putInt("logIndex", logIndex)] *)
Definition persist_index (env : Env) (acc : Store * list Call)
  : Store * list Call :=
  let logIndex' := wrap_int (logIndex (fst acc) + 1) in
  let '(indexResult, p) :=
    Preferences.putInt (env_putInt_ok env) "logIndex" logIndex'
      (preferences (fst acc)) in
  (set_logIndex logIndex' (set_preferences p (fst acc)),
   snd acc ++ [NvsPutInt "logIndex" logIndex' indexResult]).

(** The key/value branch of [logDataToFlash], from the computation of the
    slot key to the end of the function. *)
Definition logToPreferences (env : Env) (logEntry : LogData.t) (st : Store)
  : Store * list Call :=
  let key := slot_key (logIndex st) in
  let blob := LogData.image (env_pad env) logEntry in
  let acc1 := targeted_cleanup env st in
  let '(result, acc2) := putBytes_logged (env_putBytes_ok env 0) key blob acc1 in
  if (result =? 0)%nat then
    let acc3 := (set_lastError ERROR_FLASH_WRITE_FAILED (fst acc2), snd acc2) in
    let acc4 := emergency_cleanup st acc3 in
    (* final retry *)
    let '(result', acc5) := putBytes_logged (env_putBytes_ok env 1) key blob acc4 in
    if (result' =? 0)%nat then acc5 else persist_index env acc5
  else persist_index env acc2.

(** The log entry [logDataToFlash] builds from a reading once both checks
    have passed; [None] when the function returns before building one. *)
Definition gated_entry (c : Clock) (data : SensorData.t) : option LogData.t :=
  if negb (rtcTimeAccurate c) then None
  else
    let currentTime := getRTCTime c in
    if currentTime <? JAN_1_2021 then None
    else Some {| LogData.timestamp := to_uint32 currentTime;
                 LogData.pm1_0_env := SensorData.pm1_0_env data;
                 LogData.pm2_5_env := SensorData.pm2_5_env data;
                 LogData.pm10_0_env := SensorData.pm10_0_env data;
                 LogData.battery_level := SensorData.battery_level data |}.

(** [logDataToFlash(data)], with the backend calls it made. *)
Definition logDataToFlash_calls (env : Env) (c : Clock) (data : SensorData.t)
    (st : Store) : Store * list Call :=
  match gated_entry c data with
  | None => (st, [])
  | Some logEntry =>
      if useLittleFS st then saveLogToLittleFS env logEntry st
      else logToPreferences env logEntry st
  end.

Definition logDataToFlash (env : Env) (c : Clock) (data : SensorData.t)
    (st : Store) : Store :=
  fst (logDataToFlash_calls env c data st).

(** The part of the loop of [migrateLegacyData] that both formats share:
    the record's octets are written to the path of the current [logIndex];
    after a complete write [logIndex] and the count of migrated records
    advance and the legacy key is removed, otherwise an error is counted
    and the key stays. *)
Definition migrate_write (env : Env) (octets : list Z) (key : string)
    (acc : Store * Z * Z) : Store * Z * Z :=
  let '(st, migratedCount, errorCount) := acc in
  let logPath := getLittleFSLogPath (logIndex st) in
  let dirPath := getLittleFSLogDir (logIndex st) in
  let fs1 := snd (ensure_dir env dirPath (littlefs st)) in
  if env_open_w env logPath then
    let '(written, fs2) := write_file env logPath octets fs1 in
    if (written =? LogData.sizeof)%nat then
      (set_preferences (snd (Preferences.remove key (preferences st)))
         (set_logIndex (wrap_int (logIndex st + 1)) (set_littlefs fs2 st)),
       migratedCount + 1, errorCount)
    else (set_littlefs fs2 st, migratedCount, errorCount + 1)
  else (set_littlefs fs1 st, migratedCount, errorCount + 1).

(** One turn of the loop of [migrateLegacyData], for legacy index [i]; the
    accumulator carries the store and the two counters.  A [log_i] blob of
    [sizeof(LogData)] octets is written as it is; failing that, a [data_i]
    blob of [sizeof(SensorData)] octets is converted. *)
Definition migrate_step (env : Env) (acc : Store * Z * Z) (i : Z)
  : Store * Z * Z :=
  let '(st, migratedCount, errorCount) := acc in
  let key := legacy_key i in
  let '(bytesRead, legacyData) :=
    Preferences.getBytes key LogData.sizeof (preferences st) in
  if (bytesRead =? LogData.sizeof)%nat then
    migrate_write env legacyData key acc
  else
    let oldKey := data_key i in
    let '(legacyBytesRead, legacySensorData) :=
      Preferences.getBytes oldKey SensorData.sizeof (preferences st) in
    if (legacyBytesRead =? SensorData.sizeof)%nat then
      let convertedData :=
        LogData.of_SensorData (SensorData.of_image legacySensorData) in
      migrate_write env (LogData.image (env_pad env) convertedData) oldKey acc
    else (st, migratedCount, errorCount + 1).

(** The end of [migrateLegacyData]: the metadata file and the stored
    index are brought up to date, and the file store becomes the active
    backend when at least one record was migrated. *)
Definition migrate_finish (env : Env) (acc : Store * Z * Z) : Store :=
  let '(st1, migratedCount, errorCount) := acc in
  let st2 := set_littlefs (write_metadata env (logIndex st1) (littlefs st1)) st1 in
  let st3 :=
    set_preferences
      (snd (Preferences.putInt (env_putInt_ok env) "logIndex" (logIndex st2)
              (preferences st2))) st2 in
  if 0 <? migratedCount then set_useLittleFS true st3 else st3.

(** [migrateLegacyData()] *)
Definition migrateLegacyData (env : Env) (st : Store) : Store :=
  let legacyLogIndex := Preferences.getInt "logIndex" 0 (preferences st) in
  if legacyLogIndex <=? 0 then st
  else
    migrate_finish env
      (fold_left (migrate_step env) (seqZ 0 legacyLogIndex) (st, 0, 0)).

(* ===================================================================== *)
(** * The chunked transfer controller *)
(* ===================================================================== *)

Record Session : Type := mkSession {
  loggedDataCache : string;
  totalChunks : Z;
  currentChunk : Z;
  totalEntriesToSend : Z;
  entriesProcessed : Z;
  startEntryIndex : Z;
  (** the value of the chunk-info characteristic *)
  chunkInfo : string
}.

Definition set_cache (cache : string) (s : Session) : Session :=
  mkSession cache (totalChunks s) (currentChunk s) (totalEntriesToSend s)
    (entriesProcessed s) (startEntryIndex s) (chunkInfo s).

Definition set_currentChunk (k : Z) (s : Session) : Session :=
  mkSession (loggedDataCache s) (totalChunks s) k (totalEntriesToSend s)
    (entriesProcessed s) (startEntryIndex s) (chunkInfo s).

Definition set_chunkInfo (v : string) (s : Session) : Session :=
  mkSession (loggedDataCache s) (totalChunks s) (currentChunk s)
    (totalEntriesToSend s) (entriesProcessed s) (startEntryIndex s) v.

(** [String(totalChunks) + "," + String(currentChunk)] *)
Definition chunkInfo_text (s : Session) : string :=
  String_of (totalChunks s) +:+ "," +:+ String_of (currentChunk s).

(** What the body of the loop of [loadNextBatch] reads for one logical
    index: the file store first when it is active (a record counts as read
    when its timestamp is positive), then the slot key of the key/value
    store, then the legacy key holding a full reading. *)
Definition load_entry (env : Env) (st : Store) (actualIndex : Z)
  : option LogData.t :=
  let fromFile :=
    if useLittleFS st then
      let logEntry := readLogFromLittleFS env actualIndex (littlefs st) in
      if 0 <? LogData.timestamp logEntry then Some logEntry else None
    else None in
  match fromFile with
  | Some logEntry => Some logEntry
  | None =>
      let '(bytesRead, blob) :=
        Preferences.getBytes (slot_key actualIndex) LogData.sizeof (preferences st) in
      if (bytesRead =? LogData.sizeof)%nat then Some (LogData.of_image blob)
      else
        let oldKey := legacy_key (Z.rem actualIndex MAX_LOG_ENTRIES) in
        let '(legacyBytesRead, legacyBlob) :=
          Preferences.getBytes oldKey SensorData.sizeof (preferences st) in
        if (legacyBytesRead =? SensorData.sizeof)%nat
        then Some (LogData.of_SensorData (SensorData.of_image legacyBlob))
        else None
  end.

(** The text appended to the cache for one logical index. *)
Definition entry_text (env : Env) (st : Store) (actualIndex : Z) : string :=
  match load_entry env st actualIndex with
  | Some logEntry => LogData.serialize logEntry
  | None => ""
  end.

Definition no_data : string := "No data available".

(** [loadNextBatch()] *)
Definition loadNextBatch (env : Env) (st : Store) (s : Session) : Session :=
  let batchEnd :=
    Z.min (entriesProcessed s + ENTRIES_PER_BATCH) (totalEntriesToSend s) in
  let cache :=
    fold_left
      (fun cache i => cache +:+ entry_text env st (startEntryIndex s + i))
      (seqZ (entriesProcessed s) (batchEnd - entriesProcessed s)) "" in
  mkSession (if (String.length cache =? 0)%nat then no_data else cache)
    (totalChunks s) (currentChunk s) (totalEntriesToSend s)
    batchEnd (startEntryIndex s) (chunkInfo s).

(** [prepareLoggedDataForChunking()]; [debugLogEntries] only prints.  The
    difference, the product and the sum are [int] results. *)
Definition prepareLoggedDataForChunking (env : Env) (st : Store) (s : Session)
  : Session :=
  let startEntryIndex' := Z.max 0 (wrap_int (logIndex st - MAX_LOG_ENTRIES)) in
  let totalEntriesToSend' := Z.min (logIndex st) MAX_LOG_ENTRIES in
  let estimatedChars := wrap_int (totalEntriesToSend' * 30) in
  let totalChunks' :=
    Z.max 1
      (Z.quot (wrap_int (estimatedChars + MAX_CHUNK_SIZE - 1)) MAX_CHUNK_SIZE) in
  let s1 :=
    loadNextBatch env st
      (mkSession "" totalChunks' 0 totalEntriesToSend' 0 startEntryIndex'
         (chunkInfo s)) in
  set_chunkInfo (chunkInfo_text s1) s1.

(** [sendLoggedDataChunk()]: the session afterwards and the payload set on
    the logged-data characteristic and notified. *)
Definition sendLoggedDataChunk (env : Env) (st : Store) (s : Session)
  : Session * string :=
  let s1 :=
    if (String.length (loggedDataCache s) =? 0)%nat
    then prepareLoggedDataForChunking env st s
    else s in
  let needMoreData :=
    (Z.of_nat (String.length (loggedDataCache s1)) <? MAX_CHUNK_SIZE)
    && (entriesProcessed s1 <? totalEntriesToSend s1) in
  let s2 := if needMoreData then loadNextBatch env st s1 else s1 in
  let len := String.length (loggedDataCache s2) in
  if (0 <? len)%nat then
    let endPos := Z.to_nat (Z.min MAX_CHUNK_SIZE (Z.of_nat len)) in
    let chunkData := substring_from_to 0 endPos (loggedDataCache s2) in
    let rest :=
      if (endPos <? len)%nat then substring_from endPos (loggedDataCache s2)
      else "" in
    (set_cache rest s2, chunkData)
  else if totalEntriesToSend s2 <=? entriesProcessed s2 then (s2, "")
  else (s2, no_data).

(** An accepted chunk request moves the cursor and refreshes the chunk-info
    characteristic. *)
Definition accept_request (requestedChunk : Z) (s : Session) : Session :=
  let s1 := set_currentChunk requestedChunk s in
  set_chunkInfo (chunkInfo_text s1) s1.

(** The chunk-request branch of [MyCharacteristicCallbacks::onWrite], for
    the integer the written text parses to: the session afterwards and the
    payload notified, if any. *)
Definition onWrite_chunkRequest (env : Env) (st : Store) (requestedChunk : Z)
    (s : Session) : Session * option string :=
  if requestedChunk =? -1 then
    (prepareLoggedDataForChunking env st s, None)
  else if (0 <=? requestedChunk) && (requestedChunk <? totalChunks s) then
    let '(s3, payload) := sendLoggedDataChunk env st (accept_request requestedChunk s) in
    (s3, Some payload)
  else (s, None).

(** The concatenation of a list of texts. *)
Definition concat_text (texts : list string) : string :=
  fold_right String.append "" texts.

(** The serialized form of the records at the logical offsets
    [from .. from+n-1] of the prepared window, in order. *)
Definition batch_text (env : Env) (st : Store) (s : Session) (from n : Z)
  : string :=
  concat_text
    (List.map (fun i => entry_text env st (startEntryIndex s + i)) (seqZ from n)).

(** A client that writes the chunk indices [ks] one after the other: the
    payloads notified, in order. *)
Fixpoint request_chunks (env : Env) (st : Store) (ks : list Z) (s : Session)
  : Session * list string :=
  match ks with
  | [] => (s, [])
  | k :: ks' =>
      let '(s1, payload) := onWrite_chunkRequest env st k s in
      let '(s2, payloads) := request_chunks env st ks' s1 in
      (s2, match payload with Some p => p :: payloads | None => payloads end)
  end.

(** The download as the companion application drives it: the prepare
    request, then the chunk indices [0 .. totalChunks-1] in order; the
    result is the concatenation of the payloads. *)
Definition download (env : Env) (st : Store) (s : Session) : string :=
  let s0 := fst (onWrite_chunkRequest env st (-1) s) in
  let payloads := snd (request_chunks env st (seqZ 0 (totalChunks s0)) s0) in
  concat_text payloads.

(** The serialized form of all records of the prepared window, in order. *)
Definition window_text (env : Env) (st : Store) (s : Session) : string :=
  batch_text env st s 0 (totalEntriesToSend s).

(* ===================================================================== *)
(** * The radio task *)
(* ===================================================================== *)

Inductive Notification : Type :=
| NotifyLive (payload : string)
| NotifyBattery (level : Z).

Record Radio : Type := mkRadio {
  bleInitialized : bool;
  deviceConnected : bool;
  oldDeviceConnected : bool;
  (** [pServer != NULL] *)
  serverCreated : bool;
  (** [pLiveDataCharacteristic && pBatteryCharacteristic] *)
  characteristicsCreated : bool;
  newDataAvailable : bool;
  sharedSensorData : SensorData.t;
  (** the value of the live-data characteristic *)
  liveDataValue : string;
  lastConnectionCheck : Z;
  lastAdvertisingStart : Z;
  (** the notifications sent so far, oldest first *)
  notified : list Notification
}.

Definition set_newDataAvailable (b : bool) (r : Radio) : Radio :=
  mkRadio (bleInitialized r) (deviceConnected r) (oldDeviceConnected r)
    (serverCreated r) (characteristicsCreated r) b (sharedSensorData r)
    (liveDataValue r) (lastConnectionCheck r) (lastAdvertisingStart r)
    (notified r).

Definition set_oldDeviceConnected (b : bool) (r : Radio) : Radio :=
  mkRadio (bleInitialized r) (deviceConnected r) b
    (serverCreated r) (characteristicsCreated r) (newDataAvailable r)
    (sharedSensorData r) (liveDataValue r) (lastConnectionCheck r)
    (lastAdvertisingStart r) (notified r).

Definition set_deviceConnected (b : bool) (r : Radio) : Radio :=
  mkRadio (bleInitialized r) b (oldDeviceConnected r)
    (serverCreated r) (characteristicsCreated r) (newDataAvailable r)
    (sharedSensorData r) (liveDataValue r) (lastConnectionCheck r)
    (lastAdvertisingStart r) (notified r).

Definition set_lastConnectionCheck (t : Z) (r : Radio) : Radio :=
  mkRadio (bleInitialized r) (deviceConnected r) (oldDeviceConnected r)
    (serverCreated r) (characteristicsCreated r) (newDataAvailable r)
    (sharedSensorData r) (liveDataValue r) t
    (lastAdvertisingStart r) (notified r).

Definition set_lastAdvertisingStart (t : Z) (r : Radio) : Radio :=
  mkRadio (bleInitialized r) (deviceConnected r) (oldDeviceConnected r)
    (serverCreated r) (characteristicsCreated r) (newDataAvailable r)
    (sharedSensorData r) (liveDataValue r) (lastConnectionCheck r)
    t (notified r).

Definition CONNECTION_CHECK_INTERVAL : Z := 5000.
Definition ADVERTISING_RESTART_INTERVAL : Z := 30000.

(** [restartAdvertising()], entered when [millis()] reads [now].  The
    advertising is stopped, [vTaskDelay] waits 100 ms, the advertising is
    started and [lastAdvertisingStart] takes what [millis()] reads then, an
    [unsigned long]; when the stop or the start throws, the [catch] leaves
    [lastAdvertisingStart] as it was. *)
Definition restartAdvertising (env : Env) (now : Z) (r : Radio) : Radio :=
  if negb (bleInitialized r) || negb (serverCreated r) then r
  else if env_advertising_ok env
       then set_lastAdvertisingStart (to_uint32 (now + 100)) r
       else r.

(** [checkBLEConnection()], entered when [millis()] reads [now]; the
    differences are [unsigned long]. *)
Definition checkBLEConnection (env : Env) (now : Z) (r : Radio) : Radio :=
  if CONNECTION_CHECK_INTERVAL <=? to_uint32 (now - lastConnectionCheck r) then
    let r1 := set_lastConnectionCheck now r in
    if negb (deviceConnected r1)
       && (ADVERTISING_RESTART_INTERVAL <=? to_uint32 (now - lastAdvertisingStart r1))
    then restartAdvertising env now r1
    else r1
  else r.

(** [updateSharedData(newData)] *)
Definition updateSharedData (env : Env) (newData : SensorData.t) (r : Radio)
  : Radio :=
  if env_mutex env then
    mkRadio (bleInitialized r) (deviceConnected r) (oldDeviceConnected r)
      (serverCreated r) (characteristicsCreated r) true newData
      (liveDataValue r) (lastConnectionCheck r) (lastAdvertisingStart r)
      (notified r)
  else r.

(** The live-data payload: [pm1,pm2_5,pm10,battery]. *)
Definition liveData_text (d : SensorData.t) : string :=
  String_of (SensorData.pm1_0_env d) +:+ "," +:+
  String_of (SensorData.pm2_5_env d) +:+ "," +:+
  String_of (SensorData.pm10_0_env d) +:+ "," +:+
  String_of (SensorData.battery_level d).

(** [safeBLEUpdate()]; the BLE calls are taken not to throw. *)
Definition safeBLEUpdate (env : Env) (r : Radio) : Radio :=
  if negb (bleInitialized r) || negb (deviceConnected r)
     || negb (characteristicsCreated r)
  then r
  else if env_mutex env then
    let latestData := sharedSensorData r in
    let liveData := liveData_text latestData in
    let sent :=
      if deviceConnected r
      then [NotifyLive liveData; NotifyBattery (SensorData.battery_level latestData)]
      else [] in
    mkRadio (bleInitialized r) (deviceConnected r) (oldDeviceConnected r)
      (serverCreated r) (characteristicsCreated r) (newDataAvailable r)
      (sharedSensorData r) liveData (lastConnectionCheck r)
      (lastAdvertisingStart r) (notified r ++ sent)
  else r.

(** One turn of the [while (true)] loop of [BLETask], entered when
    [millis()] reads [now]. *)
Definition BLETask_iteration (env : Env) (now : Z) (r : Radio) : Radio :=
  if bleInitialized r then
    let r1 := checkBLEConnection env now r in
    let r2 :=
      if deviceConnected r1 && serverCreated r1 && newDataAvailable r1
      then set_newDataAvailable false (safeBLEUpdate env r1)
      else r1 in
    let r3 :=
      if bleInitialized r2 && negb (deviceConnected r2) && oldDeviceConnected r2
      then set_oldDeviceConnected (deviceConnected r2) r2
      else r2 in
    if deviceConnected r3 && negb (oldDeviceConnected r3)
    then set_oldDeviceConnected (deviceConnected r3) r3
    else r3
  else r.

(** [MyServerCallbacks::onConnect] and [onDisconnect]; the latter is
    entered when [millis()] reads [now] and waits 500 ms before it restarts
    the advertising. *)
Definition onConnect (r : Radio) : Radio := set_deviceConnected true r.

Definition onDisconnect (env : Env) (now : Z) (r : Radio) : Radio :=
  restartAdvertising env (now + 500) (set_deviceConnected false r).

(* ===================================================================== *)
(** * The device *)
(* ===================================================================== *)

Record Device : Type := mkDevice {
  clock : Clock;
  store : Store;
  session : Session;
  radio : Radio
}.

(** What can happen to the device after [setup]: the callbacks of the BLE
    stack, one turn of either task loop, the functions of the sketch that
    touch the clock or the log store, and time passing.  The clock of the
    device moves in [OpTick] and in the confirmation flashes of a first
    sync; the waits of the other operations are an [OpTick] that follows
    them. *)
Inductive Op : Type :=
| OpInitRTC
| OpSetRTCTime (epochTime : Z)
| OpSetRTCTimeFromBLE (epochTime : Z)
| OpWriteRTCTime (newTime : Z)
| OpLogDataToFlash (data : SensorData.t)
| OpSensorReading (newData : SensorData.t)
| OpMigrateLegacyData
| OpWriteChunkRequest (requestedChunk : Z)
| OpReadLoggedData
| OpBLETaskIteration
| OpConnect
| OpDisconnect
| OpTick (ms : Z).

(** The RTC-time branch of [onWrite]: values at or below the sanity floor
    are rejected. *)
Definition onWrite_rtcTime (newTime : Z) (c : Clock) : Clock :=
  if JAN_1_2021 <? newTime then setRTCTimeFromBLE newTime c else c.

Definition exec (env : Env) (op : Op) (d : Device) : Device :=
  match op with
  | OpInitRTC =>
      mkDevice (initRTC (clock d)) (store d) (session d) (radio d)
  | OpSetRTCTime epochTime =>
      mkDevice (setRTCTime epochTime (clock d)) (store d) (session d) (radio d)
  | OpSetRTCTimeFromBLE epochTime =>
      mkDevice (setRTCTimeFromBLE epochTime (clock d)) (store d) (session d)
        (radio d)
  | OpWriteRTCTime newTime =>
      mkDevice (onWrite_rtcTime newTime (clock d)) (store d) (session d)
        (radio d)
  | OpLogDataToFlash data =>
      mkDevice (clock d) (logDataToFlash env (clock d) data (store d))
        (session d) (radio d)
  | OpSensorReading newData =>
      (* the successful branch of the loop of SensorTask *)
      mkDevice (clock d) (logDataToFlash env (clock d) newData (store d))
        (session d) (updateSharedData env newData (radio d))
  | OpMigrateLegacyData =>
      mkDevice (clock d) (migrateLegacyData env (store d)) (session d) (radio d)
  | OpWriteChunkRequest requestedChunk =>
      mkDevice (clock d) (store d)
        (fst (onWrite_chunkRequest env (store d) requestedChunk (session d)))
        (radio d)
  | OpReadLoggedData =>
      mkDevice (clock d) (store d)
        (fst (sendLoggedDataChunk env (store d) (session d))) (radio d)
  | OpBLETaskIteration =>
      mkDevice (clock d) (store d) (session d)
        (BLETask_iteration env (uptimeMs (clock d)) (radio d))
  | OpConnect =>
      mkDevice (clock d) (store d) (session d) (onConnect (radio d))
  | OpDisconnect =>
      mkDevice (clock d) (store d) (session d)
        (onDisconnect env (uptimeMs (clock d)) (radio d))
  | OpTick ms =>
      mkDevice (tick ms (clock d)) (store d) (session d) (radio d)
  end.

(** The states the device can be in: [setup] ends with [initRTC] on some
    state of the stores, and every later state comes from an operation
    under some answer of the hardware. *)
Inductive reachable : Device -> Prop :=
| reachable_boot (d : Device) :
    reachable (exec healthy OpInitRTC d)
| reachable_step (env : Env) (op : Op) (d : Device) :
    reachable d -> reachable (exec env op d).

(* ===================================================================== *)
(** * Fixtures for the concrete scenarios *)
(* ===================================================================== *)

Definition empty_fs : FileSystem := mkFS ∅ ∅ (Some 0).

Definition empty_session : Session := mkSession "" 0 0 0 0 0 "".

(** A reading with the given environmental concentrations and battery. *)
Definition reading (pm1 pm25 pm10 battery : Z) : SensorData.t :=
  SensorData.mk 0 0 0 pm1 pm25 pm10 0 0 0 0 0 0 battery 0.

(** A synced clock that reads [t]. *)
Definition synced_clock (t : Z) : Clock := mkClock true true t 0.

(** An empty store on the file backend. *)
Definition empty_file_store : Store := mkStore 0 true ∅ empty_fs ERROR_NONE.

(** The file-backed store after [n] appends of the reading [data], taken
    one second apart from [t0] on, on healthy hardware. *)
Definition store_after_appends (t0 : Z) (data : SensorData.t) (n : nat) : Store :=
  fold_left
    (fun st i => logDataToFlash healthy (synced_clock (t0 + Z.of_nat i)) data st)
    (seq 0 n) empty_file_store.

(** The stores of the concrete scenarios, computed once: 14 records of 20
    characters, 40 and 201 records of 21 characters, 450 records of 25
    characters. *)
Definition store_14 : Store :=
  Eval vm_compute in store_after_appends 1700000000 (reading 1 2 3 50) 14.

Definition store_40 : Store :=
  Eval vm_compute in store_after_appends 1700000000 (reading 10 2 3 50) 40.

Definition store_201 : Store :=
  Eval vm_compute in store_after_appends 1700000000 (reading 10 2 3 50) 201.

Definition store_450 : Store :=
  Eval vm_compute in store_after_appends 1700000000 (reading 12 345 678 85) 450.



(* ===================================================================== *)
(** * Predicates used in the statements *)
(* ===================================================================== *)

(** The clock invariant: an accurate clock has been set. *)
Definition accurate_is_set (c : Clock) : Prop :=
  rtcTimeAccurate c = true -> rtcTimeSet c = true.

(** Every blob of [p'] was already in [p] under the same key, or is
    [octets]. *)
Definition blobs_from (octets : list Z) (p p' : Preferences.t) : Prop :=
  forall key blob,
    p' !! key = Some (PBytes blob) ->
    p !! key = Some (PBytes blob) \/ blob = octets.

(** Every file of [fs'] was already in [fs] with the same contents, or
    holds a prefix of [octets]. *)
Definition files_from (octets : list Z) (fs fs' : FileSystem) : Prop :=
  forall path content,
    fs_files fs' !! path = Some content ->
    fs_files fs !! path = Some content \/ exists n, content = take n octets.

(** [getBytes(key, buf, size) == size]: the key holds a blob of exactly
    [size] octets. *)
Definition has_blob (key : string) (size : nat) (p : Preferences.t) : bool :=
  (fst (Preferences.getBytes key size p) =? size)%nat.

(** Legacy index [i] holds nothing [migrateLegacyData] would migrate:
    neither a [log_i] blob of [sizeof(LogData)] nor a [data_i] blob of
    [sizeof(SensorData)]. *)
Definition settled (p : Preferences.t) (i : Z) : Prop :=
  has_blob (legacy_key i) LogData.sizeof p = false /\
  has_blob (data_key i) SensorData.sizeof p = false.


(** Every file opens for writing, every write is complete and the index is
    persisted. *)
Definition writes_succeed (env : Env) : Prop :=
  (forall path, env_open_w env path = true) /\
  (forall path, (LogData.sizeof <= env_written env path)%nat) /\
  env_putInt_ok env = true.

(** The key the targeted cleanup of [logDataToFlash] removes, when it
    runs. *)
Definition targeted_keys (env : Env) (st : Store) : list string :=
  if (env_freeEntries env <? 10) && (MAX_LOG_ENTRIES <=? logIndex st)
  then [slot_key (logIndex st - MAX_LOG_ENTRIES)]
  else [].

(** The keys the emergency cleanup of [logDataToFlash] removes: ten slots
    from [logIndex - MAX_LOG_ENTRIES] on once the buffer has wrapped, the
    first ten legacy keys before. *)
Definition emergency_keys (st : Store) : list string :=
  List.map
    (fun i => if MAX_LOG_ENTRIES <=? logIndex st
              then slot_key (logIndex st - MAX_LOG_ENTRIES + i)
              else legacy_key i)
    (seqZ 0 10).

(** The calls are removals of the keys, one for one and in order. *)
Definition removes (calls : list Call) (keys : list string) : Prop :=
  Forall2 (fun c key => exists found, c = NvsRemove key found) calls keys.



(* ===================================================================== *)
(** * Helpers of the Arduino core *)
(* ===================================================================== *)

(** The cast [(uint8_t) x]. *)
Definition to_uint8 (z : Z) : Z := z mod 2 ^ 8.

(** The macro [constrain(amt, low, high)]. *)
Definition constrain (amt low high : Z) : Z :=
  if amt <? low then low else if high <? amt then high else amt.

(** [map(x, in_min, in_max, out_min, out_max)] of the ESP32 core: [long]
    arithmetic, a division that truncates, and [-1] for an empty input
    range. *)
Definition map_long (x in_min in_max out_min out_max : Z) : Z :=
  let run := wrap_int (in_max - in_min) in
  if run =? 0 then -1
  else
    let rise := wrap_int (out_max - out_min) in
    let delta := wrap_int (x - in_min) in
    wrap_int (Z.quot (wrap_int (delta * rise)) run + out_min).

(** [getBatteryLevel()]; [centivolts] is the [long] that the argument
    [voltage * 100] of [map] converts to. *)
Definition getBatteryLevel (centivolts : Z) : Z :=
  to_uint8 (constrain (map_long centivolts 300 420 0 100) 0 100).

(** The text a [String] holds when it is built from [value.c_str()]: the
    characters before the first NUL. *)
Fixpoint c_str (value : string) : string :=
  match value with
  | EmptyString => EmptyString
  | String c rest =>
      if Ascii.eqb c Ascii.zero then EmptyString else String c (c_str rest)
  end.

(** [isspace] in the C locale: space, and the controls 9 to 13. *)
Definition isspace (c : ascii) : bool :=
  let n := Z.of_N (N_of_ascii c) in
  (n =? 32) || ((9 <=? n) && (n <=? 13)).

(** The value of a decimal digit. *)
Definition digit_value (c : ascii) : option Z :=
  let n := Z.of_N (N_of_ascii c) in
  if (48 <=? n) && (n <=? 57) then Some (n - 48) else None.

Fixpoint skip_spaces (s : string) : string :=
  match s with
  | EmptyString => EmptyString
  | String c rest => if isspace c then skip_spaces rest else s
  end.

(** The number spelled by the leading digits of [s], continuing [acc]. *)
Fixpoint digits_value (acc : Z) (s : string) : Z :=
  match s with
  | EmptyString => acc
  | String c rest =>
      match digit_value c with
      | Some d => digits_value (acc * 10 + d) rest
      | None => acc
      end
  end.

Definition LONG_MAX : Z := 2 ^ 31 - 1.
Definition LONG_MIN : Z := - 2 ^ 31.

(** [String::toInt()], which is [atol] on the buffer: leading white space
    is skipped, one sign is read, then the decimal digits up to the first
    other character; no digits give 0 and a value outside [long] gives the
    nearest bound. *)
Definition toInt (s : string) : Z :=
  let s1 := skip_spaces s in
  let value :=
    match s1 with
    | String c rest =>
        if Ascii.eqb c "-" then - digits_value 0 rest
        else if Ascii.eqb c "+" then digits_value 0 rest
        else digits_value 0 s1
    | EmptyString => 0
    end in
  constrain value LONG_MIN LONG_MAX.

(* ===================================================================== *)
(** * The sensor task *)
(* ===================================================================== *)

Definition ERROR_SENSOR_TIMEOUT : Z := 2.

(** What the sensor library hands back from [aqi.read]. *)
Record PM25_AQI_Data : Type := mkAQI {
  aqi_pm10_standard : Z;
  aqi_pm25_standard : Z;
  aqi_pm100_standard : Z;
  aqi_pm10_env : Z;
  aqi_pm25_env : Z;
  aqi_pm100_env : Z;
  aqi_particles_03um : Z;
  aqi_particles_05um : Z;
  aqi_particles_10um : Z;
  aqi_particles_25um : Z;
  aqi_particles_50um : Z;
  aqi_particles_100um : Z
}.

(** [readPMSA003I(data)]: [answer] is what [aqi.read] delivered, if it
    delivered.  The result is the function's return value, the struct
    behind [data] and the value it leaves in [lastError]. *)
Definition readPMSA003I (answer : option PM25_AQI_Data) (data : SensorData.t)
  : bool * SensorData.t * Z :=
  match answer with
  | None => (false, data, ERROR_SENSOR_TIMEOUT)
  | Some aqiData =>
      (true,
       {| SensorData.pm1_0_standard := aqi_pm10_standard aqiData;
          SensorData.pm2_5_standard := aqi_pm25_standard aqiData;
          SensorData.pm10_0_standard := aqi_pm100_standard aqiData;
          SensorData.pm1_0_env := aqi_pm10_env aqiData;
          SensorData.pm2_5_env := aqi_pm25_env aqiData;
          SensorData.pm10_0_env := aqi_pm100_env aqiData;
          SensorData.particles_03um := aqi_particles_03um aqiData;
          SensorData.particles_05um := aqi_particles_05um aqiData;
          SensorData.particles_10um := aqi_particles_10um aqiData;
          SensorData.particles_25um := aqi_particles_25um aqiData;
          SensorData.particles_50um := aqi_particles_50um aqiData;
          SensorData.particles_100um := aqi_particles_100um aqiData;
          SensorData.battery_level := SensorData.battery_level data;
          SensorData.timestamp := SensorData.timestamp data |},
       ERROR_NONE)
  end.

(** One turn of the loop of [SensorTask], up to the return of
    [logDataToFlash] (what follows prints, blinks and sleeps): the battery
    level and the time stamp are taken, the sensor is read into the same
    struct (whose other fields start out as [junk], whatever the stack
    held), and a reading that arrived is shown on the pixel for half a
    second by [updateLEDStatus], published to the radio task and handed to
    [logDataToFlash]. *)
Definition SensorTask_iteration (env : Env) (centivolts : Z)
    (answer : option PM25_AQI_Data) (junk : SensorData.t) (d : Device) : Device :=
  let newData0 :=
    {| SensorData.pm1_0_standard := SensorData.pm1_0_standard junk;
       SensorData.pm2_5_standard := SensorData.pm2_5_standard junk;
       SensorData.pm10_0_standard := SensorData.pm10_0_standard junk;
       SensorData.pm1_0_env := SensorData.pm1_0_env junk;
       SensorData.pm2_5_env := SensorData.pm2_5_env junk;
       SensorData.pm10_0_env := SensorData.pm10_0_env junk;
       SensorData.particles_03um := SensorData.particles_03um junk;
       SensorData.particles_05um := SensorData.particles_05um junk;
       SensorData.particles_10um := SensorData.particles_10um junk;
       SensorData.particles_25um := SensorData.particles_25um junk;
       SensorData.particles_50um := SensorData.particles_50um junk;
       SensorData.particles_100um := SensorData.particles_100um junk;
       SensorData.battery_level := getBatteryLevel centivolts;
       SensorData.timestamp := to_uint32 (getRTCTime (clock d)) |} in
  let '(ok, newData, err) := readPMSA003I answer newData0 in
  let st1 := set_lastError err (store d) in
  if ok then
    let c1 := tick 500 (clock d) in
    mkDevice c1 (logDataToFlash env c1 newData st1) (session d)
      (updateSharedData env newData (radio d))
  else mkDevice (clock d) st1 (session d) (radio d).

(* ===================================================================== *)
(** * The characteristic callbacks *)
(* ===================================================================== *)

Definition LOGGED_DATA_UUID : string := "12345678-1234-1234-1234-123456789abe".
Definition POWER_MODE_UUID : string := "12345678-1234-1234-1234-123456789ac0".
Definition RTC_TIME_UUID : string := "12345678-1234-1234-1234-123456789ac1".
Definition CHUNK_INFO_UUID : string := "12345678-1234-1234-1234-123456789ac2".
Definition CHUNK_REQUEST_UUID : string := "87654321-4321-4321-4321-cba987654321".

(** [preferences.getBool(key, defaultValue)] *)
Definition getBool (key : string) (defaultValue : bool) (p : Preferences.t)
  : bool :=
  match p !! key with
  | Some (PBool b) => b
  | _ => defaultValue
  end.

(** [preferences.putBool(key, value)]: the number of octets stored, 0 on
    failure. *)
Definition putBool (ok : bool) (key : string) (b : bool) (p : Preferences.t)
  : nat * Preferences.t :=
  if ok then (1%nat, <[key := PBool b]> p) else (0%nat, p).

(** The device together with the power-mode setting of the sketch. *)
Record Sketch : Type := mkSketch {
  device : Device;
  lowPowerMode : bool
}.

(** [MyCharacteristicCallbacks::onWrite] for a write of [value] to the
    characteristic [uuid]: the sketch afterwards and the payload notified on
    the logged-data characteristic, if any.  [putBool_ok] is whether
    [preferences.putBool] stores its value. *)
Definition onWrite (env : Env) (putBool_ok : bool) (uuid value : string)
    (k : Sketch) : Sketch * option string :=
  let d := device k in
  if String.eqb uuid CHUNK_REQUEST_UUID then
    let chunkValue := c_str value in
    let requestedChunk := toInt chunkValue in
    let '(s', payload) :=
      onWrite_chunkRequest env (store d) requestedChunk (session d) in
    (mkSketch (mkDevice (clock d) (store d) s' (radio d)) (lowPowerMode k),
     payload)
  else if String.eqb uuid POWER_MODE_UUID then
    let newMode := String.eqb (c_str value) "1" in
    if Bool.eqb newMode (lowPowerMode k) then (k, None)
    else
      let p := snd (putBool putBool_ok "lowPowerMode" newMode
                      (preferences (store d))) in
      (mkSketch (mkDevice (clock d) (set_preferences p (store d)) (session d)
                   (radio d)) newMode,
       None)
  else if String.eqb uuid RTC_TIME_UUID then
    let newTime := toInt (c_str value) in
    (mkSketch (mkDevice (onWrite_rtcTime newTime (clock d)) (store d)
                 (session d) (radio d)) (lowPowerMode k),
     None)
  else (k, None).

(** [MyCharacteristicCallbacks::onRead] for a read of the characteristic
    [uuid]: the sketch afterwards and the value the callback sets on that
    characteristic, if it sets one. *)
Definition onRead (env : Env) (uuid : string) (k : Sketch)
  : Sketch * option string :=
  let d := device k in
  if String.eqb uuid LOGGED_DATA_UUID then
    let '(s', payload) := sendLoggedDataChunk env (store d) (session d) in
    (mkSketch (mkDevice (clock d) (store d) s' (radio d)) (lowPowerMode k),
     Some payload)
  else if String.eqb uuid CHUNK_INFO_UUID then
    let chunkInfo := chunkInfo_text (session d) in
    (mkSketch (mkDevice (clock d) (store d) (set_chunkInfo chunkInfo (session d))
                 (radio d)) (lowPowerMode k),
     Some chunkInfo)
  else if String.eqb uuid CHUNK_REQUEST_UUID then
    (k, Some (String_of (currentChunk (session d))))
  else if String.eqb uuid POWER_MODE_UUID then
    (k, Some (if lowPowerMode k then "1" else "0"))
  else if String.eqb uuid RTC_TIME_UUID then
    (k, Some (String_of (to_uint32 (getRTCTime (clock d)))))
  else (k, None).

(* ===================================================================== *)
(** * Bring-up and maintenance of the stores *)
(* ===================================================================== *)

(** What [LittleFS.begin(true)] did: mounted the file system as it was,
    formatted it after a failed mount and mounted the empty one, or gave
    up. *)
Inductive MountResult : Type := Mounted | Formatted | MountFailed.

Definition logs_dir : string := "/logs".

(** [initLittleFS()]: its return value and the file system afterwards. *)
Definition initLittleFS (env : Env) (mount : MountResult) (fs : FileSystem)
  : bool * FileSystem :=
  match mount with
  | MountFailed => (false, fs)
  | _ =>
      let fs0 := match mount with Formatted => mkFS ∅ ∅ None | _ => fs end in
      let '(dir_ok, fs1) := ensure_dir env logs_dir fs0 in
      if negb dir_ok then (false, fs1)
      else
        match fs_meta fs1 with
        | Some _ => (true, fs1)
        | None =>
            if env_open_w env metadata_path
            then (true, mkFS (fs_dirs fs1) (fs_files fs1) (Some 0))
            else (false, fs1)
        end
  end.

(** The part of [setup] that brings up the log store, entered with the
    [Preferences] handle open: [initLittleFS], then [migrateLegacyData],
    then the load of [logIndex] from the metadata file when the file store
    became active and from the key/value store otherwise.  [env_fs] answers
    the calls of [initLittleFS] and the read of the metadata file, [env]
    those of the migration.  The metadata file holds the decimal text that
    [println] wrote, which [toInt] reads back as the number. *)
Definition setup_storage (env_fs env : Env) (mount : MountResult) (st : Store)
  : Store :=
  let '(ok, fs1) := initLittleFS env_fs mount (littlefs st) in
  let st1 := set_littlefs fs1 st in
  let st2 :=
    if ok then
      let st_m := migrateLegacyData env st1 in
      if useLittleFS st_m then
        match fs_meta (littlefs st_m) with
        | Some n =>
            if env_open_r env_fs metadata_path then set_logIndex n st_m
            else st_m
        | None => st_m
        end
      else st_m
    else set_useLittleFS false st1 in
  if negb (useLittleFS st2)
  then set_logIndex (Preferences.getInt "logIndex" 0 (preferences st2)) st2
  else st2.

(** The globals of the sketch as a boot finds them, over what the flash
    holds. *)
Definition boot_store (p : Preferences.t) (fs : FileSystem) (err : Z) : Store :=
  mkStore 0 false p fs err.

Definition test_key (i : Z) : string := "test_" +:+ String_of i.

(** The record that turn [i] of [testFlashWriteCapacity] writes. *)
Definition test_entry (i : Z) : LogData.t :=
  {| LogData.timestamp := 1234567890 + i;
     LogData.pm1_0_env := i;
     LogData.pm2_5_env := i * 2;
     LogData.pm10_0_env := i * 3;
     LogData.battery_level := 50 + i |}.

(** One turn of the loop of [testFlashWriteCapacity]: the test record is
    written under its key and the key is removed again; the second
    component counts the failed writes. *)
Definition test_write (env : Env) (acc : Preferences.t * Z) (i : Z)
  : Preferences.t * Z :=
  let '(p, failedWrites) := acc in
  let '(result, p1) :=
    Preferences.putBytes (env_putBytes_ok env (Z.to_nat i)) (test_key i)
      (LogData.image (env_pad env) (test_entry i)) p in
  let p2 := snd (Preferences.remove (test_key i) p1) in
  (p2, if (result =? 0)%nat then failedWrites + 1 else failedWrites).

(** [testFlashWriteCapacity()]: the store afterwards and the number of
    failed writes it reports. *)
Definition testFlashWriteCapacity (env : Env) (st : Store) : Store * Z :=
  let '(p, failedWrites) :=
    fold_left (test_write env) (seqZ 0 10) (preferences st, 0) in
  (set_preferences p st, failedWrites).

(** [repairFlashStorage()] *)
Definition repairFlashStorage (env : Env) (st : Store) : Store :=
  let p1 :=
    fold_left (fun p i => snd (Preferences.remove (legacy_key i) p))
      (seqZ 0 MAX_LOG_ENTRIES) (preferences st) in
  let p2 := snd (Preferences.putInt (env_putInt_ok env) "logIndex" 0 p1) in
  set_preferences p2 (set_logIndex 0 st).

(** The flash part of [setup], from [initLittleFS] to the load of the
    power mode: the bring-up of the log store, the write test, and the
    repair when few entries are free and the index is positive.  The health
    and capacity checks between them only print.  The result is the store
    and [lowPowerMode]. *)
Definition setup_flash (env_fs env env_test env_repair : Env)
    (mount : MountResult) (st : Store) : Store * bool :=
  let st1 := setup_storage env_fs env mount st in
  let st2 := fst (testFlashWriteCapacity env_test st1) in
  let st3 :=
    if (env_freeEntries env_repair <? 50) && (0 <? logIndex st2)
    then repairFlashStorage env_repair st2
    else st2 in
  (st3, getBool "lowPowerMode" true (preferences st3)).

(** The scan of [optimizeLittleFSStorage]: the number of log files found
    below [n] and the index of the last one (0 when there is none). *)
Definition scan_logs (fs : FileSystem) (n : Z) : Z * Z :=
  fold_left
    (fun acc i =>
       if bool_decide (is_Some (fs_files fs !! getLittleFSLogPath i))
       then (wrap_int (fst acc + 1), i)
       else acc)
    (seqZ 0 n) (0, 0).

(** [optimizeLittleFSStorage()] *)
Definition optimizeLittleFSStorage (env : Env) (st : Store) : Store :=
  let '(actualFiles, maxIndex) := scan_logs (littlefs st) (logIndex st) in
  if negb (wrap_int (maxIndex + 1) =? logIndex st) then
    let logIndex' := wrap_int (maxIndex + 1) in
    let fs1 := write_metadata env logIndex' (littlefs st) in
    let p1 :=
      snd (Preferences.putInt (env_putInt_ok env) "logIndex" logIndex'
             (preferences st)) in
    set_preferences p1 (set_littlefs fs1 (set_logIndex logIndex' st))
  else st.

(* ===================================================================== *)
(** * More predicates used in the statements *)
(* ===================================================================== *)

(** The text begins like a number for [atol]: with white space, a sign or
    a digit. *)
Definition starts_a_number (s : string) : bool :=
  match s with
  | EmptyString => false
  | String c _ =>
      isspace c || Ascii.eqb c "-" || Ascii.eqb c "+"
      || match digit_value c with Some _ => true | None => false end
  end.

(** The chunk-info characteristic holds what a read of it would compute. *)
Definition chunkInfo_current (s : Session) : Prop :=
  chunkInfo s = chunkInfo_text s.

(** The transfer globals as a boot leaves them, with the value that
    [initBLE] sets on the chunk-info characteristic. *)
Definition boot_session : Session := mkSession "" 0 0 0 0 0 "0,0".

(** An empty store on the key/value backend. *)
Definition empty_key_store : Store := mkStore 0 false ∅ empty_fs ERROR_NONE.

(** Every element is an octet. *)
Definition is_octets (l : list Z) : Prop := Forall (fun b => 0 <= b < 256) l.

(** Every character is a decimal digit. *)
Fixpoint all_digits (s : string) : bool :=
  match s with
  | EmptyString => true
  | String c rest =>
      match digit_value c with Some _ => all_digits rest | None => false end
  end.

(* ===================================================================== *)
(** * Theorems *)
(* ===================================================================== *)

(* --------------------------------------------------------------------- *)
(** ** Integers *)
(* --------------------------------------------------------------------- *)

(** An [int] result that fits is the exact result. *)
Lemma wrap_int_small (z : Z) : - 2 ^ 31 <= z < 2 ^ 31 -> wrap_int z = z.
Proof. intros H. unfold wrap_int. rewrite Z.mod_small by lia. lia. Qed.

(* --------------------------------------------------------------------- *)
(** ** Little-endian images *)
(* --------------------------------------------------------------------- *)

Lemma le_combine_le_bytes_1 (x : Z) :
  0 <= x < 2 ^ 8 -> le_combine (le_bytes 1 x) = x.
Proof.
  intros Hx. cbn [le_bytes seq List.map le_combine]. unfold le_byte.
  change (256 ^ Z.of_nat 0) with 1.
  rewrite Z.div_1_r, Z.mod_small by lia. lia.
Qed.

Lemma le_combine_le_bytes_2 (x : Z) :
  0 <= x < 2 ^ 16 -> le_combine (le_bytes 2 x) = x.
Proof.
  intros Hx. cbn [le_bytes seq List.map le_combine]. unfold le_byte.
  change (256 ^ Z.of_nat 0) with 1. change (256 ^ Z.of_nat 1) with 256.
  rewrite Z.div_1_r.
  change (2 ^ 16) with 65536 in Hx.
  Z.div_mod_to_equations. lia.
Qed.

Lemma le_combine_le_bytes_4 (x : Z) :
  0 <= x < 2 ^ 32 -> le_combine (le_bytes 4 x) = x.
Proof.
  intros Hx. cbn [le_bytes seq List.map le_combine]. unfold le_byte.
  change (256 ^ Z.of_nat 0) with 1. change (256 ^ Z.of_nat 1) with 256.
  change (256 ^ Z.of_nat 2) with 65536. change (256 ^ Z.of_nat 3) with 16777216.
  rewrite Z.div_1_r.
  change (2 ^ 32) with 4294967296 in Hx.
  Z.div_mod_to_equations. lia.
Qed.

(** The struct read back from its own image is the struct: decoding what
    was encoded returns the record, for every record whose fields are in
    range and whatever the padding octet holds. *)
Lemma LogData_of_image_image (pad : Z) (r : LogData.t) :
  LogData.in_range r -> LogData.of_image (LogData.image pad r) = r.
Proof.
  intros (Ht & H1 & H2 & H3 & Hb). destruct r as [ts p1 p2 p3 bat].
  cbn [LogData.timestamp LogData.pm1_0_env LogData.pm2_5_env
       LogData.pm10_0_env LogData.battery_level] in *.
  unfold LogData.of_image, LogData.image, field_at.
  cbn [LogData.timestamp LogData.pm1_0_env LogData.pm2_5_env
       LogData.pm10_0_env LogData.battery_level].
  change (octets_at 0 4 (le_bytes 4 ts ++ le_bytes 2 p1 ++ le_bytes 2 p2 ++
            le_bytes 2 p3 ++ le_bytes 1 bat ++ [pad])) with (le_bytes 4 ts).
  change (octets_at 4 2 (le_bytes 4 ts ++ le_bytes 2 p1 ++ le_bytes 2 p2 ++
            le_bytes 2 p3 ++ le_bytes 1 bat ++ [pad])) with (le_bytes 2 p1).
  change (octets_at 6 2 (le_bytes 4 ts ++ le_bytes 2 p1 ++ le_bytes 2 p2 ++
            le_bytes 2 p3 ++ le_bytes 1 bat ++ [pad])) with (le_bytes 2 p2).
  change (octets_at 8 2 (le_bytes 4 ts ++ le_bytes 2 p1 ++ le_bytes 2 p2 ++
            le_bytes 2 p3 ++ le_bytes 1 bat ++ [pad])) with (le_bytes 2 p3).
  change (octets_at 10 1 (le_bytes 4 ts ++ le_bytes 2 p1 ++ le_bytes 2 p2 ++
            le_bytes 2 p3 ++ le_bytes 1 bat ++ [pad])) with (le_bytes 1 bat).
  rewrite le_combine_le_bytes_4, !le_combine_le_bytes_2, le_combine_le_bytes_1
    by assumption.
  reflexivity.
Qed.


(* --------------------------------------------------------------------- *)
(** ** The logging gate *)
(* --------------------------------------------------------------------- *)

Lemma gate_not_accurate (c : Clock) :
  gate_state c <> SetAccurate <-> rtcTimeAccurate c = false.
Proof.
  unfold gate_state. destruct (rtcTimeAccurate c), (rtcTimeSet c);
    split; intros H; try reflexivity; try discriminate; try (exfalso; apply H; reflexivity).
Qed.

Lemma gated_entry_closed (c : Clock) (data : SensorData.t) :
  rtcTimeAccurate c = false -> gated_entry c data = None.
Proof. intros H. unfold gated_entry. rewrite H. reflexivity. Qed.

(** C1.  Whenever the clock gate is not [SetAccurate] (that is,
    [rtcTimeAccurate] is false), [logDataToFlash] is a no-op for every
    reading and every answer of the hardware: it makes no call on either
    backend and returns the store as it was, so [logIndex] and every stored
    record are unchanged; the same holds for three appends in a row. *)
Theorem logDataToFlash_gate_closed
    (env env2 env3 : Env) (c : Clock) (data data2 data3 : SensorData.t) (st : Store) :
  gate_state c <> SetAccurate ->
  logDataToFlash_calls env c data st = (st, []) /\
  logDataToFlash env c data st = st /\
  logIndex (logDataToFlash env c data st) = logIndex st /\
  logDataToFlash env3 c data3
    (logDataToFlash env2 c data2 (logDataToFlash env c data st)) = st.
Proof.
  intros Hgate. apply gate_not_accurate in Hgate.
  assert (Hno : forall e d s, logDataToFlash_calls e c d s = (s, [])).
  { intros e d s. unfold logDataToFlash_calls.
    rewrite gated_entry_closed by assumption. reflexivity. }
  assert (Hid : forall e d s, logDataToFlash e c d s = s).
  { intros e d s. unfold logDataToFlash. rewrite Hno. reflexivity. }
  repeat split.
  - apply Hno.
  - apply Hid.
  - rewrite Hid. reflexivity.
  - rewrite !Hid. reflexivity.
Qed.

(** The scenario of C1: clock set locally but never synced, three appends
    on a store that already holds five records. *)
Lemma logDataToFlash_gate_closed_witness :
  let c := mkClock true false 1700000000 5000 in
  let st := mkStore 5 false ∅ empty_fs ERROR_NONE in
  gate_state c = SetInaccurate /\
  logIndex
    (logDataToFlash healthy c (reading 3 4 5 90)
       (logDataToFlash healthy c (reading 2 3 4 90)
          (logDataToFlash healthy c (reading 1 2 3 90) st))) = 5.
Proof.
  split; [reflexivity |].
  pose proof (logDataToFlash_gate_closed healthy healthy healthy
                (mkClock true false 1700000000 5000)
                (reading 1 2 3 90) (reading 2 3 4 90) (reading 3 4 5 90)
                (mkStore 5 false ∅ empty_fs ERROR_NONE)) as H.
  destruct H as (_ & _ & _ & H3); [discriminate |].
  rewrite H3. reflexivity.
Defined.

(* --------------------------------------------------------------------- *)
(** ** The clock gate state machine *)
(* --------------------------------------------------------------------- *)

(** The sync sets both flags, on a first sync and on a later one. *)
Lemma setRTCTimeFromBLE_flags (t : Z) (c : Clock) :
  rtcTimeSet (setRTCTimeFromBLE t c) = true /\
  rtcTimeAccurate (setRTCTimeFromBLE t c) = true.
Proof.
  unfold setRTCTimeFromBLE. cbn [setRTCTime rtcTimeAccurate].
  destruct (rtcTimeAccurate c); split; reflexivity.
Qed.

Lemma exec_clock (env : Env) (op : Op) (d : Device) :
  clock (exec env op d) =
  match op with
  | OpInitRTC => initRTC (clock d)
  | OpSetRTCTime t => setRTCTime t (clock d)
  | OpSetRTCTimeFromBLE t => setRTCTimeFromBLE t (clock d)
  | OpWriteRTCTime t => onWrite_rtcTime t (clock d)
  | OpTick ms => tick ms (clock d)
  | _ => clock d
  end.
Proof. destruct op; reflexivity. Qed.

(** C4.  For every operation of the device and every answer of the
    hardware: [rtcTimeAccurate] turns true only through the BLE sync path
    ([setRTCTimeFromBLE], reached from the RTC characteristic's write
    handler); a local [setRTCTime] leaves [rtcTimeAccurate] as it was and
    from [Unset] only reaches [SetInaccurate]; no operation other than
    [initRTC] lowers the gate state; and [initRTC] clears both flags. *)
Theorem clock_gate_transitions (env : Env) (op : Op) (d : Device) (t : Z) :
  (rtcTimeAccurate (clock d) = false ->
   rtcTimeAccurate (clock (exec env op d)) = true ->
   exists t', (op = OpSetRTCTimeFromBLE t' \/ op = OpWriteRTCTime t') /\
              clock (exec env op d) = setRTCTimeFromBLE t' (clock d)) /\
  rtcTimeAccurate (setRTCTime t (clock d)) = rtcTimeAccurate (clock d) /\
  (rtcTimeAccurate (clock d) = false ->
   gate_state (setRTCTime t (clock d)) = SetInaccurate) /\
  gate_state (setRTCTimeFromBLE t (clock d)) = SetAccurate /\
  (op <> OpInitRTC ->
   (gate_rank (gate_state (clock d)) <= gate_rank (gate_state (clock (exec env op d))))%nat) /\
  rtcTimeSet (clock (exec env OpInitRTC d)) = false /\
  rtcTimeAccurate (clock (exec env OpInitRTC d)) = false /\
  gate_state (initRTC (clock d)) = Unset.
Proof.
  pose proof setRTCTimeFromBLE_flags as Hsync.
  split; [| split; [| split; [| split; [| split; [| repeat split]]]]].
  - intros Hbefore Hafter. rewrite exec_clock in *.
    destruct op; cbn in Hafter; try congruence.
    + exists epochTime. split; [left; reflexivity | reflexivity].
    + exists newTime. split; [right; reflexivity |].
      unfold onWrite_rtcTime in *.
      destruct (JAN_1_2021 <? newTime); [reflexivity | congruence].
  - reflexivity.
  - intros Hbefore. unfold gate_state. cbn. rewrite Hbefore. reflexivity.
  - unfold gate_state. rewrite (proj2 (Hsync t (clock d))). reflexivity.
  - intros Hop. rewrite exec_clock.
    destruct op; try reflexivity; try (exfalso; apply Hop; reflexivity);
      unfold gate_state, onWrite_rtcTime;
      try destruct (JAN_1_2021 <? newTime);
      rewrite ?(proj1 (Hsync _ _)), ?(proj2 (Hsync _ _)); cbn;
      destruct (rtcTimeAccurate (clock d)), (rtcTimeSet (clock d)); cbn; lia.
Qed.

(* --------------------------------------------------------------------- *)
(** ** Accuracy implies that the clock was set *)
(* --------------------------------------------------------------------- *)

Lemma accurate_is_set_step (env : Env) (op : Op) (d : Device) :
  accurate_is_set (clock d) -> accurate_is_set (clock (exec env op d)).
Proof.
  unfold accurate_is_set. rewrite exec_clock.
  pose proof setRTCTimeFromBLE_flags as Hsync.
  destruct op; try (cbn; tauto); try (cbn; congruence).
  - intros _ _. apply Hsync.
  - unfold onWrite_rtcTime. destruct (JAN_1_2021 <? newTime); [| tauto].
    intros _ _. apply Hsync.
Qed.

Lemma reachable_accurate_is_set (d : Device) :
  reachable d -> accurate_is_set (clock d).
Proof.
  induction 1 as [d | env op d _ IH].
  - unfold accurate_is_set. cbn. congruence.
  - apply accurate_is_set_step. exact IH.
Qed.

(* --------------------------------------------------------------------- *)
(** ** What an append can put into the store *)
(* --------------------------------------------------------------------- *)

Lemma blobs_from_refl (octets : list Z) (p : Preferences.t) :
  blobs_from octets p p.
Proof. intros key blob H. left. exact H. Qed.

Lemma blobs_from_trans (octets : list Z) (p1 p2 p3 : Preferences.t) :
  blobs_from octets p1 p2 -> blobs_from octets p2 p3 -> blobs_from octets p1 p3.
Proof.
  intros H12 H23 key blob H. destruct (H23 key blob H) as [H2 | ->].
  - apply H12. exact H2.
  - right. reflexivity.
Qed.

Lemma blobs_from_delete (octets : list Z) (key : string) (p : Preferences.t) :
  blobs_from octets p (delete key p).
Proof.
  intros k blob H. apply lookup_delete_Some in H as [_ H]. left. exact H.
Qed.

Lemma blobs_from_putBytes (ok : bool) (key : string) (octets : list Z)
    (p : Preferences.t) :
  blobs_from octets p (snd (Preferences.putBytes ok key octets p)).
Proof.
  unfold Preferences.putBytes. destruct ok; cbn; [| apply blobs_from_refl].
  intros k blob H. apply lookup_insert_Some in H as [[_ H] | [_ H]].
  - right. congruence.
  - left. exact H.
Qed.

Lemma blobs_from_putInt (ok : bool) (key : string) (v : Z) (octets : list Z)
    (p : Preferences.t) :
  blobs_from octets p (snd (Preferences.putInt ok key v p)).
Proof.
  unfold Preferences.putInt. destruct ok; cbn; [| apply blobs_from_refl].
  intros k blob H. apply lookup_insert_Some in H as [[_ H] | [_ H]].
  - discriminate.
  - left. exact H.
Qed.

(** The effect of a logged removal on each component. *)
Lemma remove_logged_fst (key : string) (acc : Store * list Call) :
  fst (remove_logged key acc) =
  set_preferences (delete key (preferences (fst acc))) (fst acc).
Proof. reflexivity. Qed.

Lemma remove_logged_snd (key : string) (acc : Store * list Call) :
  snd (remove_logged key acc) =
  snd acc ++ [NvsRemove key (bool_decide (is_Some (preferences (fst acc) !! key)))].
Proof. reflexivity. Qed.

(** A run of logged removals, whatever the keys: the write index, the
    active backend, the file store and the error code stay, keys only
    disappear, and the log grows by one removal per key. *)
Lemma removals_spec (keyOf : Z -> string) (idxs : list Z) (acc : Store * list Call) :
  let acc' := fold_left (fun a i => remove_logged (keyOf i) a) idxs acc in
  logIndex (fst acc') = logIndex (fst acc) /\
  useLittleFS (fst acc') = useLittleFS (fst acc) /\
  littlefs (fst acc') = littlefs (fst acc) /\
  lastError (fst acc') = lastError (fst acc) /\
  preferences (fst acc') ⊆ preferences (fst acc) /\
  (exists removals,
      snd acc' = snd acc ++ removals /\
      length removals = length idxs /\
      forallb is_remove removals = true).
Proof.
  revert acc. induction idxs as [| i idxs IH]; intros acc; cbn [fold_left].
  - repeat split; try reflexivity. exists []. rewrite app_nil_r. repeat split.
  - specialize (IH (remove_logged (keyOf i) acc)). cbv zeta in IH.
    destruct IH as (H1 & H2 & H3 & H4 & H5 & removals & H6 & H7 & H8).
    rewrite remove_logged_fst in H1, H2, H3, H4, H5.
    rewrite remove_logged_snd in H6. cbn in H1, H2, H3, H4, H5.
    repeat split; try assumption.
    + etransitivity; [exact H5 | apply delete_subseteq].
    + eexists (_ :: removals). rewrite H6, <- app_assoc. cbn.
      repeat split; [congruence | assumption].
Qed.

(** A run of removals: the keys removed are gone, the others keep what
    they held. *)
Lemma removals_lookup_in (keyOf : Z -> string) (idxs : list Z)
    (p : Preferences.t) (i : Z) :
  i ∈ idxs ->
  fold_left (fun p i => snd (Preferences.remove (keyOf i) p)) idxs p
    !! keyOf i = None.
Proof.
  revert p. induction idxs as [| j idxs IH]; intros p Hi.
  - apply elem_of_nil in Hi. contradiction.
  - cbn [fold_left]. apply elem_of_cons in Hi as [-> | Hi].
    + clear IH. unfold Preferences.remove at 2. cbn [snd].
      generalize (delete (keyOf j) p), (lookup_delete_eq p (keyOf j)).
      induction idxs as [| k idxs IH]; intros q Hq; [exact Hq |].
      cbn [fold_left]. apply IH. unfold Preferences.remove. cbn [snd].
      destruct (decide (keyOf k = keyOf j)) as [-> | Hne].
      * apply lookup_delete_eq.
      * rewrite lookup_delete_ne by exact Hne. exact Hq.
    + apply IH. exact Hi.
Qed.

Lemma removals_lookup_out (keyOf : Z -> string) (idxs : list Z)
    (p : Preferences.t) (key : string) :
  (forall i, i ∈ idxs -> key <> keyOf i) ->
  fold_left (fun p i => snd (Preferences.remove (keyOf i) p)) idxs p !! key =
  p !! key.
Proof.
  revert p. induction idxs as [| j idxs IH]; intros p Hout; [reflexivity |].
  cbn [fold_left]. rewrite IH.
  - unfold Preferences.remove. cbn [snd]. apply lookup_delete_ne.
    intros E. apply (Hout j); [apply elem_of_cons; left; reflexivity |].
    symmetry. exact E.
  - intros i Hi. apply Hout. apply elem_of_cons. right. exact Hi.
Qed.

(** A run of logged removals acts on the key/value store as the same run
    of [remove] calls, and logs one removal per key, in order. *)
Lemma removals_keys (keyOf : Z -> string) (idxs : list Z) (acc : Store * list Call) :
  let acc' := fold_left (fun a i => remove_logged (keyOf i) a) idxs acc in
  preferences (fst acc') =
    fold_left (fun p i => snd (Preferences.remove (keyOf i) p)) idxs
      (preferences (fst acc)) /\
  exists removals,
    snd acc' = snd acc ++ removals /\ removes removals (List.map keyOf idxs).
Proof.
  revert acc. induction idxs as [| i idxs IH]; intros acc; cbn [fold_left List.map].
  - split; [reflexivity |]. exists []. rewrite app_nil_r. split; constructor.
  - specialize (IH (remove_logged (keyOf i) acc)). cbv zeta in IH.
    destruct IH as (Hp & removals & Hcalls & Hkeys).
    rewrite remove_logged_fst in Hp. rewrite remove_logged_snd in Hcalls.
    split; [exact Hp |].
    eexists (_ :: removals). rewrite Hcalls, <- app_assoc. split; [reflexivity |].
    constructor; [eexists; reflexivity | exact Hkeys].
Qed.

Lemma LogData_image_length (pad : Z) (e : LogData.t) :
  length (LogData.image pad e) = LogData.sizeof.
Proof. reflexivity. Qed.

Lemma putBytes_logged_eq (ok : bool) (key : string) (blob : list Z)
    (acc : Store * list Call) :
  putBytes_logged ok key blob acc =
  (if ok then length blob else 0%nat,
   (set_preferences (snd (Preferences.putBytes ok key blob (preferences (fst acc))))
      (fst acc),
    snd acc ++ [NvsPutBytes key blob (if ok then length blob else 0%nat)])).
Proof. unfold putBytes_logged, Preferences.putBytes. destruct ok; reflexivity. Qed.

Lemma targeted_cleanup_spec (env : Env) (st : Store) :
  let acc := targeted_cleanup env st in
  logIndex (fst acc) = logIndex st /\
  useLittleFS (fst acc) = useLittleFS st /\
  littlefs (fst acc) = littlefs st /\
  lastError (fst acc) = lastError st /\
  preferences (fst acc) ⊆ preferences st /\
  (length (snd acc) <= 1)%nat /\
  forallb is_remove (snd acc) = true.
Proof.
  unfold targeted_cleanup.
  destruct ((env_freeEntries env <? 10) && (MAX_LOG_ENTRIES <=? logIndex st)); cbn.
  - repeat split; try reflexivity; try lia. apply delete_subseteq.
  - repeat split; try reflexivity; lia.
Qed.

Lemma emergency_cleanup_spec (st : Store) (acc : Store * list Call) :
  let acc' := emergency_cleanup st acc in
  logIndex (fst acc') = logIndex (fst acc) /\
  useLittleFS (fst acc') = useLittleFS (fst acc) /\
  littlefs (fst acc') = littlefs (fst acc) /\
  lastError (fst acc') = lastError (fst acc) /\
  preferences (fst acc') ⊆ preferences (fst acc) /\
  (exists removals,
      snd acc' = snd acc ++ removals /\
      length removals = 10%nat /\
      forallb is_remove removals = true).
Proof.
  unfold emergency_cleanup. destruct (MAX_LOG_ENTRIES <=? logIndex st).
  - apply (removals_spec (fun i => slot_key (logIndex st - MAX_LOG_ENTRIES + i))).
  - apply (removals_spec legacy_key).
Qed.

Lemma persist_index_eq (env : Env) (acc : Store * list Call) :
  persist_index env acc =
  (set_logIndex (wrap_int (logIndex (fst acc) + 1))
     (set_preferences
        (snd (Preferences.putInt (env_putInt_ok env) "logIndex"
                (wrap_int (logIndex (fst acc) + 1)) (preferences (fst acc))))
        (fst acc)),
   snd acc ++ [NvsPutInt "logIndex" (wrap_int (logIndex (fst acc) + 1))
                 (if env_putInt_ok env then 4%nat else 0%nat)]).
Proof.
  unfold persist_index, Preferences.putInt. destruct (env_putInt_ok env); reflexivity.
Qed.

(** [logToPreferences] by the outcome of its two writes. *)
Lemma logToPreferences_eq (env : Env) (e : LogData.t) (st : Store) :
  let key := slot_key (logIndex st) in
  let blob := LogData.image (env_pad env) e in
  let acc2 := snd (putBytes_logged (env_putBytes_ok env 0) key blob
                     (targeted_cleanup env st)) in
  logToPreferences env e st =
  if env_putBytes_ok env 0 then persist_index env acc2
  else
    let acc5 :=
      snd (putBytes_logged (env_putBytes_ok env 1) key blob
             (emergency_cleanup st
                (set_lastError ERROR_FLASH_WRITE_FAILED (fst acc2), snd acc2))) in
    if env_putBytes_ok env 1 then persist_index env acc5 else acc5.
Proof.
  cbv zeta. unfold logToPreferences.
  rewrite (putBytes_logged_eq (env_putBytes_ok env 0)).
  destruct (env_putBytes_ok env 0) eqn:H0.
  - rewrite LogData_image_length. reflexivity.
  - cbn [Nat.eqb snd fst].
    rewrite (putBytes_logged_eq (env_putBytes_ok env 1)).
    destruct (env_putBytes_ok env 1) eqn:H1.
    + rewrite LogData_image_length. reflexivity.
    + reflexivity.
Qed.

(* --------------------------------------------------------------------- *)
(** ** A write failure on the key/value backend *)
(* --------------------------------------------------------------------- *)

Lemma no_putBytes_among_removals (l : list Call) :
  forallb is_remove l = true -> filter is_putBytes l = [].
Proof.
  induction l as [| x l IH]; [reflexivity |]. cbn.
  intros Hx. apply andb_prop in Hx as [Hx Hl].
  destruct x; try discriminate. cbn. apply IH, Hl.
Qed.

(** The state in which a retried write leaves the store: its first
    component and its log, from those of the first attempt. *)
Lemma retry_stage (env : Env) (e : LogData.t) (st : Store) :
  env_putBytes_ok env 0 = false ->
  let key := slot_key (logIndex st) in
  let blob := LogData.image (env_pad env) e in
  let acc2 := snd (putBytes_logged false key blob (targeted_cleanup env st)) in
  let acc4 :=
    emergency_cleanup st
      (set_lastError ERROR_FLASH_WRITE_FAILED (fst acc2), snd acc2) in
  logIndex (fst acc4) = logIndex st /\
  useLittleFS (fst acc4) = useLittleFS st /\
  littlefs (fst acc4) = littlefs st /\
  lastError (fst acc4) = ERROR_FLASH_WRITE_FAILED /\
  preferences (fst acc4) ⊆ preferences st /\
  exists targeted emergency,
    snd acc4 = targeted ++ [NvsPutBytes key blob 0] ++ emergency /\
    forallb is_remove targeted = true /\ (length targeted <= 1)%nat /\
    forallb is_remove emergency = true /\ length emergency = 10%nat.
Proof.
  intros H0. cbv zeta.
  rewrite putBytes_logged_eq. cbn [snd fst Preferences.putBytes].
  pose proof (targeted_cleanup_spec env st) as T. cbv zeta in T.
  destruct T as (T1 & T2 & T3 & T4 & T5 & T6 & T7).
  match goal with
  | |- context [emergency_cleanup st ?a] =>
      pose proof (emergency_cleanup_spec st a) as E; cbv zeta in E
  end.
  destruct E as (E1 & E2 & E3 & E4 & E5 & emergency & E6 & E7 & E8).
  cbn [fst snd] in E1, E2, E3, E4, E5, E6.
  repeat split.
  - rewrite E1. exact T1.
  - rewrite E2. exact T2.
  - rewrite E3. exact T3.
  - rewrite E4. reflexivity.
  - etransitivity; [exact E5 | exact T5].
  - exists (snd (targeted_cleanup env st)), emergency.
    rewrite E6, <- app_assoc. repeat split; assumption.
Qed.

(** The emergency cleanup by its keys: each of them is gone afterwards,
    every other key holds what it held, and the log names them in order. *)
Lemma emergency_cleanup_keys (st : Store) (acc : Store * list Call) :
  let acc' := emergency_cleanup st acc in
  (forall key,
     preferences (fst acc') !! key =
     if bool_decide (key ∈ emergency_keys st) then None
     else preferences (fst acc) !! key) /\
  exists removals,
    snd acc' = snd acc ++ removals /\ removes removals (emergency_keys st).
Proof.
  cbv zeta. unfold emergency_cleanup, emergency_keys.
  set (keyOf := fun i => if MAX_LOG_ENTRIES <=? logIndex st
                         then slot_key (logIndex st - MAX_LOG_ENTRIES + i)
                         else legacy_key i).
  assert (Hfold :
    (if MAX_LOG_ENTRIES <=? logIndex st
     then fold_left
            (fun acc i => remove_logged (slot_key (logIndex st - MAX_LOG_ENTRIES + i)) acc)
            (seqZ 0 10) acc
     else fold_left (fun acc i => remove_logged (legacy_key i) acc) (seqZ 0 10) acc) =
    fold_left (fun a i => remove_logged (keyOf i) a) (seqZ 0 10) acc).
  { subst keyOf. destruct (MAX_LOG_ENTRIES <=? logIndex st); reflexivity. }
  rewrite Hfold.
  destruct (removals_keys keyOf (seqZ 0 10) acc) as (Hp & Hcalls).
  split; [| exact Hcalls].
  intros key. rewrite Hp.
  destruct (bool_decide (key ∈ List.map keyOf (seqZ 0 10))) eqn:Hin.
  - apply bool_decide_eq_true in Hin.
    apply list_elem_of_fmap in Hin as (i & -> & Hi).
    apply removals_lookup_in. exact Hi.
  - apply bool_decide_eq_false in Hin.
    apply removals_lookup_out. intros i Hi E. apply Hin.
    apply list_elem_of_fmap. exists i. split; assumption.
Qed.

(** The keys of the emergency cleanup, by the state of the buffer. *)
Lemma emergency_keys_wrapped (env : Env) (st : Store) (s : Session) :
  MAX_LOG_ENTRIES <= logIndex st < 2 ^ 31 ->
  emergency_keys st =
  List.map
    (fun i => slot_key (startEntryIndex (prepareLoggedDataForChunking env st s) + i))
    (seqZ 0 10).
Proof.
  intros H. unfold emergency_keys.
  assert (Hstart : startEntryIndex (prepareLoggedDataForChunking env st s) =
                   logIndex st - MAX_LOG_ENTRIES).
  { change (startEntryIndex (prepareLoggedDataForChunking env st s))
      with (Z.max 0 (wrap_int (logIndex st - MAX_LOG_ENTRIES))).
    unfold MAX_LOG_ENTRIES in *. rewrite wrap_int_small by lia. lia. }
  rewrite Hstart.
  destruct (MAX_LOG_ENTRIES <=? logIndex st) eqn:Hw; [reflexivity |].
  apply Z.leb_gt in Hw. lia.
Qed.

Lemma emergency_keys_linear (st : Store) :
  logIndex st < MAX_LOG_ENTRIES ->
  emergency_keys st = List.map legacy_key (seqZ 0 10).
Proof.
  intros H. unfold emergency_keys.
  destruct (MAX_LOG_ENTRIES <=? logIndex st) eqn:Hw; [| reflexivity].
  apply Z.leb_le in Hw. lia.
Qed.

(** The targeted cleanup by its key, which is one of the keys of the
    emergency cleanup. *)
Lemma targeted_cleanup_keys (env : Env) (st : Store) :
  let acc := targeted_cleanup env st in
  (forall key,
     preferences (fst acc) !! key =
     if bool_decide (key ∈ targeted_keys env st) then None
     else preferences st !! key) /\
  removes (snd acc) (targeted_keys env st) /\
  (forall key, key ∈ targeted_keys env st -> key ∈ emergency_keys st).
Proof.
  cbv zeta. unfold targeted_cleanup, targeted_keys.
  destruct ((env_freeEntries env <? 10) && (MAX_LOG_ENTRIES <=? logIndex st)) eqn:Hc.
  - split; [| split].
    + intros key. rewrite remove_logged_fst. cbn [fst preferences set_preferences].
      destruct (bool_decide (key ∈ [slot_key (logIndex st - MAX_LOG_ENTRIES)])) eqn:Hin.
      * apply bool_decide_eq_true in Hin. apply list_elem_of_singleton in Hin as ->.
        apply lookup_delete_eq.
      * apply bool_decide_eq_false in Hin. apply lookup_delete_ne.
        intros E. apply Hin. apply list_elem_of_singleton. symmetry. exact E.
    + rewrite remove_logged_snd. cbn [snd app].
      constructor; [eexists; reflexivity | constructor].
    + intros key Hin. apply list_elem_of_singleton in Hin as ->.
      apply andb_prop in Hc as [_ Hw]. unfold emergency_keys. rewrite Hw.
      apply list_elem_of_fmap. exists 0. split.
      * rewrite Z.add_0_r. reflexivity.
      * apply elem_of_seqZ. lia.
  - split; [| split].
    + intros key. reflexivity.
    + constructor.
    + intros key Hin. apply elem_of_nil in Hin. contradiction.
Qed.

(** The retried write by the keys removed before it. *)
Lemma retry_stage_keys (env : Env) (e : LogData.t) (st : Store) :
  let key := slot_key (logIndex st) in
  let blob := LogData.image (env_pad env) e in
  let acc2 := snd (putBytes_logged false key blob (targeted_cleanup env st)) in
  let acc4 :=
    emergency_cleanup st
      (set_lastError ERROR_FLASH_WRITE_FAILED (fst acc2), snd acc2) in
  (forall k,
     preferences (fst acc4) !! k =
     if bool_decide (k ∈ emergency_keys st) then None else preferences st !! k) /\
  exists targeted emergency,
    snd acc4 = targeted ++ [NvsPutBytes key blob 0] ++ emergency /\
    removes targeted (targeted_keys env st) /\
    removes emergency (emergency_keys st).
Proof.
  cbv zeta. rewrite putBytes_logged_eq. cbn [snd fst Preferences.putBytes].
  destruct (targeted_cleanup_keys env st) as (Tp & Tc & Tsub). cbv zeta in Tp, Tc.
  match goal with
  | |- context [emergency_cleanup st ?a] =>
      destruct (emergency_cleanup_keys st a) as (Ep & emergency & Ec & Ek)
  end.
  cbn [fst snd preferences set_preferences set_lastError] in Ep, Ec.
  split.
  - intros k. rewrite Ep, Tp.
    destruct (bool_decide (k ∈ emergency_keys st)) eqn:Hin; [reflexivity |].
    destruct (bool_decide (k ∈ targeted_keys env st)) eqn:Hin'; [| reflexivity].
    apply bool_decide_eq_true in Hin'. apply bool_decide_eq_false in Hin.
    exfalso. apply Hin, Tsub, Hin'.
  - exists (snd (targeted_cleanup env st)), emergency.
    rewrite Ec, <- app_assoc. repeat split; assumption.
Qed.

(** C3, as the firmware has it.  On the key/value backend, for every
    reading that passes the gate and every answer of the hardware:
    [logIndex] changes only when some [putBytes] of the slot stored its
    blob.  When the first write stores nothing, the call makes exactly one
    emergency cleanup (ten removals) and exactly one retry, two [putBytes]
    in all, with at most one targeted removal before the first; if the
    retry succeeds [logIndex] advances by one; if it fails [logIndex], the
    file store and the active backend are unchanged, no key is added or
    changed, and the error code is set -- but the keys of the emergency
    cleanup are gone and every other key holds what it held.  Once the
    buffer has wrapped these keys are the slots of the ten oldest records
    of the window a download would send; before, they are the legacy keys
    [log_0 .. log_9]. *)
Theorem logDataToFlash_write_failure
    (env : Env) (c : Clock) (data : SensorData.t) (e : LogData.t) (st : Store) :
  gated_entry c data = Some e ->
  useLittleFS st = false ->
  let key := slot_key (logIndex st) in
  let blob := LogData.image (env_pad env) e in
  let st' := fst (logDataToFlash_calls env c data st) in
  let calls := snd (logDataToFlash_calls env c data st) in
  (logIndex st' <> logIndex st ->
   In (NvsPutBytes key blob LogData.sizeof) calls /\
   logIndex st' = wrap_int (logIndex st + 1)) /\
  (env_putBytes_ok env 0 = false ->
   (exists targeted emergency post,
       calls = targeted ++ [NvsPutBytes key blob 0] ++ emergency ++
               [NvsPutBytes key blob
                  (if env_putBytes_ok env 1 then LogData.sizeof else 0%nat)] ++ post /\
       removes targeted (targeted_keys env st) /\ (length targeted <= 1)%nat /\
       removes emergency (emergency_keys st) /\ length emergency = 10%nat /\
       post = (if env_putBytes_ok env 1
               then [NvsPutInt "logIndex" (wrap_int (logIndex st + 1))
                       (if env_putInt_ok env then 4%nat else 0%nat)]
               else [])) /\
   length (filter is_putBytes calls) = 2%nat /\
   (env_putBytes_ok env 1 = true ->
    logIndex st' = wrap_int (logIndex st + 1) /\
    preferences st' !! "logIndex" =
      (if env_putInt_ok env then Some (PInt (wrap_int (logIndex st + 1)))
       else preferences st' !! "logIndex")) /\
   (env_putBytes_ok env 1 = false ->
    logIndex st' = logIndex st /\
    useLittleFS st' = useLittleFS st /\
    littlefs st' = littlefs st /\
    preferences st' ⊆ preferences st /\
    (forall k,
       preferences st' !! k =
       if bool_decide (k ∈ emergency_keys st) then None
       else preferences st !! k) /\
    lastError st' = ERROR_FLASH_WRITE_FAILED)) /\
  (forall s,
     MAX_LOG_ENTRIES <= logIndex st < 2 ^ 31 ->
     emergency_keys st =
     List.map
       (fun i => slot_key (startEntryIndex (prepareLoggedDataForChunking env st s) + i))
       (seqZ 0 10)) /\
  (logIndex st < MAX_LOG_ENTRIES ->
   emergency_keys st = List.map legacy_key (seqZ 0 10)).
Proof.
  intros Hgate Hkv. cbv zeta.
  split; [| split; [| split; [intros s; apply emergency_keys_wrapped
                             | apply emergency_keys_linear]]].
  - (* the index moves only with a stored blob *)
    unfold logDataToFlash_calls. rewrite Hgate, Hkv.
    pose proof (logToPreferences_eq env e st) as Heq. cbv zeta in Heq.
    rewrite Heq. clear Heq.
    destruct (env_putBytes_ok env 0) eqn:H0.
    + intros _. rewrite persist_index_eq, putBytes_logged_eq. cbn [fst snd].
      pose proof (targeted_cleanup_spec env st) as T. cbv zeta in T.
      destruct T as (T1 & _). cbn. rewrite T1. split; [| reflexivity].
      rewrite !in_app_iff. left. right. left. reflexivity.
    + pose proof (retry_stage env e st H0) as R. cbv zeta in R.
      destruct R as (R1 & _ & _ & _ & _ & targeted & emergency & R6 & _).
      cbv zeta. rewrite (putBytes_logged_eq (env_putBytes_ok env 1)).
      cbn [fst snd].
      destruct (env_putBytes_ok env 1) eqn:H1.
      * intros _. rewrite persist_index_eq.
        cbn [fst snd set_preferences logIndex preferences].
        rewrite R1, R6. split; [| reflexivity].
        rewrite !in_app_iff. left. right. left. reflexivity.
      * cbn [fst snd set_preferences logIndex preferences Preferences.putBytes].
        intros Hne. contradiction.
  - (* the first write stored nothing *)
    intros H0.
    unfold logDataToFlash_calls. rewrite Hgate, Hkv.
    pose proof (logToPreferences_eq env e st) as Heq. cbv zeta in Heq.
    rewrite Heq, H0. clear Heq.
    pose proof (retry_stage env e st H0) as R. cbv zeta in R.
    destruct R as (R1 & R2 & R3 & R4 & R5 & targeted0 & emergency0 & R6 & R7 & R8 & R9 & R10).
    pose proof (retry_stage_keys env e st) as K. cbv zeta in K.
    destruct K as (Kp & targeted & emergency & K6 & Kt & Ke).
    assert (Hsame : targeted0 = targeted /\ emergency0 = emergency).
    { rewrite R6 in K6.
      assert (Hlen : length targeted0 = length targeted).
      { apply (f_equal (@length Call)) in K6.
        rewrite !length_app in K6. cbn [length] in K6.
        apply Forall2_length in Ke. unfold emergency_keys in Ke.
        rewrite length_map, length_seqZ in Ke. change (Z.to_nat 10) with 10%nat in Ke.
        lia. }
      apply app_inj_1 in K6 as [Ht Hrest]; [| exact Hlen].
      split; [exact Ht |]. injection Hrest as Hrest. exact Hrest. }
    destruct Hsame as [-> ->]. clear K6.
    cbv zeta. rewrite (putBytes_logged_eq (env_putBytes_ok env 1)).
    cbn [fst snd].
    destruct (env_putBytes_ok env 1) eqn:H1.
    + (* the retry stored the blob *)
      rewrite persist_index_eq. cbn [fst snd set_preferences logIndex preferences].
      rewrite R1, R6.
      split; [| split; [| split]].
      * exists targeted, emergency. eexists.
        split; [| repeat split; try assumption; reflexivity].
        rewrite <- !app_assoc. reflexivity.
      * rewrite !filter_app, (no_putBytes_among_removals _ R7),
          (no_putBytes_among_removals _ R9). reflexivity.
      * intros _. split; [reflexivity |].
        unfold Preferences.putInt. destruct (env_putInt_ok env); cbn.
        -- apply lookup_insert_eq.
        -- reflexivity.
      * discriminate.
    + (* the retry stored nothing *)
      cbn [fst snd set_preferences logIndex preferences useLittleFS littlefs lastError
           Preferences.putBytes].
      rewrite R6.
      split; [| split; [| split]].
      * exists targeted, emergency, []. rewrite <- !app_assoc.
        repeat split; assumption.
      * rewrite !filter_app, (no_putBytes_among_removals _ R7),
          (no_putBytes_among_removals _ R9). reflexivity.
      * discriminate.
      * intros _.
        split; [exact R1 |]. split; [congruence |]. split; [exact R3 |].
        split; [exact R5 |]. split; [exact Kp | exact R4].
Qed.

(** The scenario of C3 on a wrapped buffer: the flash takes no blob at
    all, and the retained record in the slot [log6] is lost. *)
Lemma logDataToFlash_write_failure_witness :
  let env := mkEnv 3 (fun _ => false) true 0 (fun _ => true) (fun _ => true)
               (fun _ => LogData.sizeof) (fun _ => true) true true in
  let c := mkClock true true 1700000000 60000 in
  let st := mkStore 100005 false
              (<["log6" := PBytes (LogData.image 0 (LogData.mk 1650000006 1 2 3 80))]>
                 (<["logIndex" := PInt 100005]> ∅))
              empty_fs ERROR_NONE in
  let out := logDataToFlash_calls env c (reading 7 8 9 90) st in
  length (filter is_putBytes (snd out)) = 2%nat /\
  logIndex (fst out) = 100005 /\
  lastError (fst out) = ERROR_FLASH_WRITE_FAILED /\
  preferences (fst out) !! "log6" = None /\
  preferences (fst out) !! "logIndex" = Some (PInt 100005).
Proof.
  cbv zeta.
  pose proof (logDataToFlash_write_failure
                (mkEnv 3 (fun _ => false) true 0 (fun _ => true) (fun _ => true)
                   (fun _ => LogData.sizeof) (fun _ => true) true true)
                (mkClock true true 1700000000 60000)
                (reading 7 8 9 90)
                (LogData.mk (to_uint32 1700000000) 7 8 9 90)
                (mkStore 100005 false
                   (<["log6" := PBytes (LogData.image 0 (LogData.mk 1650000006 1 2 3 80))]>
                      (<["logIndex" := PInt 100005]> ∅))
                   empty_fs ERROR_NONE)
                eq_refl eq_refl) as H.
  cbv zeta in H. destruct H as (_ & H & _).
  destruct (H eq_refl) as (_ & Hcount & _ & Hfail).
  destruct (Hfail eq_refl) as (Hidx & _ & _ & _ & Hkeys & Herr).
  split; [exact Hcount |]. split; [exact Hidx |]. split; [exact Herr |].
  split.
  - rewrite (Hkeys "log6"). reflexivity.
  - rewrite (Hkeys "logIndex"). reflexivity.
Defined.

(** C3 as stated fails on the code: with the buffer wrapped at index
    100005 and a flash that takes no blob, the failed append leaves
    [logIndex] alone but removes the slots [log5 .. log14]; the record at
    logical index 6, readable before the call, is gone after it. *)
Lemma write_failure_removes_retained_records :
  let env := mkEnv 3 (fun _ => false) true 0 (fun _ => true) (fun _ => true)
               (fun _ => LogData.sizeof) (fun _ => true) true true in
  let c := mkClock true true 1700000000 60000 in
  let st := mkStore 100005 false
              (<["log6" := PBytes (LogData.image 0 (LogData.mk 1650000006 1 2 3 80))]>
                 (<["logIndex" := PInt 100005]> ∅))
              empty_fs ERROR_NONE in
  let st' := logDataToFlash env c (reading 7 8 9 90) st in
  logIndex st' = logIndex st /\
  load_entry healthy st 6 = Some (LogData.mk 1650000006 1 2 3 80) /\
  load_entry healthy st' 6 = None /\
  preferences st' <> preferences st.
Proof.
  cbv zeta. split; [vm_compute; reflexivity |].
  split; [vm_compute; reflexivity |].
  split; [vm_compute; reflexivity |].
  intros Heq.
  apply (f_equal (fun p => p !! "log6")) in Heq.
  vm_compute in Heq. discriminate.
Qed.

(* --------------------------------------------------------------------- *)
(** ** No pseudo-time reaches the store *)
(* --------------------------------------------------------------------- *)

Lemma logToPreferences_frame (env : Env) (e : LogData.t) (st : Store) :
  let st' := fst (logToPreferences env e st) in
  littlefs st' = littlefs st /\
  blobs_from (LogData.image (env_pad env) e) (preferences st) (preferences st').
Proof.
  cbv zeta. pose proof (logToPreferences_eq env e st) as Heq. cbv zeta in Heq.
  rewrite Heq. clear Heq.
  pose proof (targeted_cleanup_spec env st) as T. cbv zeta in T.
  destruct T as (_ & _ & T3 & _ & T5 & _).
  assert (Hsub : forall octets (p p' : Preferences.t), p' ⊆ p -> blobs_from octets p p').
  { intros octets p p' Hsub key blob H. left.
    eapply lookup_weaken; eassumption. }
  rewrite !putBytes_logged_eq. cbn [fst snd].
  destruct (env_putBytes_ok env 0).
  - rewrite persist_index_eq. cbn. split; [exact T3 |].
    eapply blobs_from_trans; [| apply blobs_from_putInt].
    eapply blobs_from_trans; [apply Hsub; exact T5 |].
    apply (blobs_from_putBytes true).
  - cbn [Preferences.putBytes snd].
    match goal with
    | |- context [emergency_cleanup st ?a] =>
        pose proof (emergency_cleanup_spec st a) as E; cbv zeta in E;
        set (acc4 := emergency_cleanup st a) in *
    end.
    destruct E as (_ & _ & E3 & _ & E5 & _). cbn [fst snd] in E3, E5.
    cbn [littlefs preferences set_lastError set_preferences] in E3, E5.
    destruct (env_putBytes_ok env 1).
    + rewrite persist_index_eq. cbn. split; [rewrite E3; exact T3 |].
      eapply blobs_from_trans; [| apply blobs_from_putInt].
      eapply blobs_from_trans; [| apply (blobs_from_putBytes true)].
      apply Hsub. etransitivity; [exact E5 | exact T5].
    + cbn. split; [rewrite E3; exact T3 |].
      apply Hsub. etransitivity; [exact E5 | exact T5].
Qed.

Lemma ensure_dir_files (env : Env) (dirPath : string) (fs : FileSystem) :
  fs_files (snd (ensure_dir env dirPath fs)) = fs_files fs.
Proof.
  unfold ensure_dir.
  destruct (bool_decide (dirPath ∈ fs_dirs fs)); [reflexivity |].
  destruct (env_mkdir_ok env dirPath); reflexivity.
Qed.

Lemma write_metadata_files (env : Env) (n : Z) (fs : FileSystem) :
  fs_files (write_metadata env n fs) = fs_files fs.
Proof. unfold write_metadata. destruct (env_open_w env metadata_path); reflexivity. Qed.

Lemma saveLogToLittleFS_frame (env : Env) (e : LogData.t) (st : Store) :
  let st' := fst (saveLogToLittleFS env e st) in
  preferences st' = preferences st /\
  files_from (LogData.image (env_pad env) e) (littlefs st) (littlefs st').
Proof.
  cbv zeta. unfold saveLogToLittleFS.
  pose proof (ensure_dir_files env (getLittleFSLogDir (logIndex st)) (littlefs st)) as Hd.
  destruct (ensure_dir env (getLittleFSLogDir (logIndex st)) (littlefs st))
    as [dir_ok fs1] eqn:Hens.
  cbn [snd] in Hd.
  assert (Hsame : forall octets (fs fs' : FileSystem),
             fs_files fs' = fs_files fs -> files_from octets fs fs').
  { intros octets fs fs' Hf path content H. left. rewrite <- Hf. exact H. }
  assert (Hwrite : forall n,
             files_from (LogData.image (env_pad env) e) (littlefs st)
               (mkFS (fs_dirs fs1)
                  (<[getLittleFSLogPath (logIndex st) :=
                       take n (LogData.image (env_pad env) e)]> (fs_files fs1))
                  (fs_meta fs1))).
  { intros n path content H. cbn [fs_files] in H.
    apply lookup_insert_Some in H as [[_ H] | [_ H]].
    - right. exists n. symmetry. exact H.
    - left. rewrite <- Hd. exact H. }
  destruct dir_ok; cbn [negb].
  - destruct (env_open_w env (getLittleFSLogPath (logIndex st))); cbn [negb].
    + unfold write_file.
      match goal with
      | |- context [(length ?x =? LogData.sizeof)%nat] =>
          destruct (length x =? LogData.sizeof)%nat
      end; cbn [negb fst snd preferences littlefs set_logIndex set_littlefs set_lastError].
      * split; [reflexivity |].
        intros path content H. rewrite write_metadata_files in H.
        revert H. apply Hwrite.
      * split; [reflexivity |]. apply Hwrite.
    + cbn [fst preferences littlefs set_littlefs set_lastError].
      split; [reflexivity |]. apply Hsame. exact Hd.
  - cbn [fst preferences littlefs set_littlefs set_lastError].
    split; [reflexivity |]. apply Hsame. reflexivity.
Qed.

Lemma gated_entry_Some (c : Clock) (data : SensorData.t) (e : LogData.t) :
  gated_entry c data = Some e ->
  rtcTimeAccurate c = true /\
  JAN_1_2021 <= getRTCTime c /\
  LogData.timestamp e = to_uint32 (getRTCTime c) /\
  LogData.pm1_0_env e = SensorData.pm1_0_env data /\
  LogData.pm2_5_env e = SensorData.pm2_5_env data /\
  LogData.pm10_0_env e = SensorData.pm10_0_env data /\
  LogData.battery_level e = SensorData.battery_level data.
Proof.
  unfold gated_entry. destruct (rtcTimeAccurate c); cbn [negb]; [| discriminate].
  destruct (getRTCTime c <? JAN_1_2021) eqn:Hfloor; [discriminate |].
  intros [= <-]. apply Z.ltb_ge in Hfloor. repeat split. exact Hfloor.
Qed.

(** C10.  In every reachable state, [rtcTimeAccurate] implies
    [rtcTimeSet]; hence with the gate open [getRTCTime] is the system clock
    and not the uptime-derived stand-in, and an append, whatever the
    hardware answers, either leaves the store as it was or only adds blobs
    and files that hold (a prefix of) the image of a record stamped with
    the system clock. *)
Theorem no_pseudo_time_logged (env : Env) (data : SensorData.t) (d : Device) :
  reachable d ->
  accurate_is_set (clock d) /\
  (rtcTimeAccurate (clock d) = true -> getRTCTime (clock d) = sysTime (clock d)) /\
  (logDataToFlash env (clock d) data (store d) = store d \/
   exists e,
     gated_entry (clock d) data = Some e /\
     rtcTimeSet (clock d) = true /\
     LogData.timestamp e = to_uint32 (sysTime (clock d)) /\
     JAN_1_2021 <= sysTime (clock d) /\
     blobs_from (LogData.image (env_pad env) e)
       (preferences (store d))
       (preferences (logDataToFlash env (clock d) data (store d))) /\
     files_from (LogData.image (env_pad env) e)
       (littlefs (store d))
       (littlefs (logDataToFlash env (clock d) data (store d)))).
Proof.
  intros Hreach. pose proof (reachable_accurate_is_set d Hreach) as Hinv.
  assert (Hclock : rtcTimeAccurate (clock d) = true ->
                   getRTCTime (clock d) = sysTime (clock d)).
  { intros Hacc. unfold getRTCTime. rewrite (Hinv Hacc). reflexivity. }
  split; [exact Hinv | split; [exact Hclock |]].
  unfold logDataToFlash, logDataToFlash_calls.
  destruct (gated_entry (clock d) data) as [e |] eqn:Hgate; [| left; reflexivity].
  right. exists e.
  apply gated_entry_Some in Hgate as (Hacc & Hfloor & Hts & _).
  rewrite (Hclock Hacc) in Hfloor, Hts.
  split; [reflexivity |]. split; [exact (Hinv Hacc) |].
  split; [exact Hts |]. split; [exact Hfloor |].
  destruct (useLittleFS (store d)).
  - pose proof (saveLogToLittleFS_frame env e (store d)) as [Hp Hf].
    split; [rewrite Hp; apply blobs_from_refl | exact Hf].
  - pose proof (logToPreferences_frame env e (store d)) as [Hf Hp].
    split; [exact Hp |].
    intros path content H. left. rewrite <- Hf. exact H.
Qed.

(** A device that booted and was then synced over BLE; the confirmation
    flashes of the first sync have taken 1200 ms, so the clock reads one
    second more than what was written. *)
Lemma no_pseudo_time_logged_witness :
  let d0 := mkDevice (mkClock true true 0 0)
              (mkStore 0 true ∅ empty_fs ERROR_NONE) empty_session
              (mkRadio true true false true true false (reading 0 0 0 0) ""
                 0 0 []) in
  let d := exec healthy (OpWriteRTCTime 1700000000) (exec healthy OpInitRTC d0) in
  reachable d /\ getRTCTime (clock d) = 1700000001.
Proof.
  cbv zeta.
  assert (Hreach : reachable
            (exec healthy (OpWriteRTCTime 1700000000)
               (exec healthy OpInitRTC
                  (mkDevice (mkClock true true 0 0)
                     (mkStore 0 true ∅ empty_fs ERROR_NONE) empty_session
                     (mkRadio true true false true true false (reading 0 0 0 0) ""
                        0 0 []))))).
  { apply reachable_step, reachable_boot. }
  split; [exact Hreach |].
  destruct (no_pseudo_time_logged healthy (reading 1 2 3 90) _ Hreach)
    as (_ & Hclock & _).
  rewrite Hclock; reflexivity.
Defined.

(* --------------------------------------------------------------------- *)
(** ** The live-data push of the radio task *)
(* --------------------------------------------------------------------- *)

Lemma checkBLEConnection_flags (env : Env) (now : Z) (r : Radio) :
  let r' := checkBLEConnection env now r in
  bleInitialized r' = bleInitialized r /\
  deviceConnected r' = deviceConnected r /\
  serverCreated r' = serverCreated r /\
  characteristicsCreated r' = characteristicsCreated r /\
  newDataAvailable r' = newDataAvailable r /\
  sharedSensorData r' = sharedSensorData r /\
  notified r' = notified r.
Proof.
  cbv zeta. unfold checkBLEConnection, restartAdvertising.
  destruct (CONNECTION_CHECK_INTERVAL <=? to_uint32 (now - lastConnectionCheck r));
    [| repeat split].
  cbn.
  destruct (negb (deviceConnected r) &&
            (ADVERTISING_RESTART_INTERVAL <=? to_uint32 (now - lastAdvertisingStart r)));
    [| repeat split].
  destruct (negb (bleInitialized r) || negb (serverCreated r));
    [| destruct (env_advertising_ok env)]; repeat split.
Qed.

Lemma safeBLEUpdate_notified (env : Env) (r : Radio) :
  notified (safeBLEUpdate env r) =
  notified r ++
  (if bleInitialized r && deviceConnected r && characteristicsCreated r
      && env_mutex env
   then [NotifyLive (liveData_text (sharedSensorData r));
         NotifyBattery (SensorData.battery_level (sharedSensorData r))]
   else []).
Proof.
  unfold safeBLEUpdate.
  destruct (bleInitialized r), (deviceConnected r), (characteristicsCreated r),
    (env_mutex env); cbn; rewrite ?app_nil_r; reflexivity.
Qed.

(** C9, as the firmware has it.  In one turn of the loop of [BLETask], for
    every state and every answer of the hardware: a live-data notification
    is sent only when the device is connected and [newDataAvailable] is set
    (and only if the mutex was obtained); and [newDataAvailable] is cleared
    whenever the push was attempted, whether or not it went through -- it
    keeps its value only when no attempt was made. *)
Theorem BLETask_iteration_push (env : Env) (now : Z) (r : Radio) :
  let r' := BLETask_iteration env now r in
  let attempted :=
    bleInitialized r && deviceConnected r && serverCreated r && newDataAvailable r in
  (notified r' <> notified r ->
   bleInitialized r = true /\ deviceConnected r = true /\
   newDataAvailable r = true /\ env_mutex env = true) /\
  notified r' =
    notified r ++
    (if attempted && characteristicsCreated r && env_mutex env
     then [NotifyLive (liveData_text (sharedSensorData r));
           NotifyBattery (SensorData.battery_level (sharedSensorData r))]
     else []) /\
  newDataAvailable r' = (if attempted then false else newDataAvailable r).
Proof.
  cbv zeta.
  assert (Hnot : notified (BLETask_iteration env now r) =
    notified r ++
    (if bleInitialized r && deviceConnected r && serverCreated r
        && newDataAvailable r && characteristicsCreated r && env_mutex env
     then [NotifyLive (liveData_text (sharedSensorData r));
           NotifyBattery (SensorData.battery_level (sharedSensorData r))]
     else [])).
  { unfold BLETask_iteration.
    destruct (bleInitialized r) eqn:Hinit; [| cbn; rewrite app_nil_r; reflexivity].
    pose proof (checkBLEConnection_flags env now r) as C. cbv zeta in C.
    destruct C as (C1 & C2 & C3 & C4 & C5 & C6 & C7).
    set (r1 := checkBLEConnection env now r) in *.
    assert (Hn2 : notified
              (if deviceConnected r1 && serverCreated r1 && newDataAvailable r1
               then set_newDataAvailable false (safeBLEUpdate env r1) else r1) =
            notified r ++
            (if deviceConnected r && serverCreated r && newDataAvailable r
                && characteristicsCreated r && env_mutex env
             then [NotifyLive (liveData_text (sharedSensorData r));
                   NotifyBattery (SensorData.battery_level (sharedSensorData r))]
             else [])).
    { rewrite C2, C3, C5.
      destruct (deviceConnected r) eqn:Hc, (serverCreated r), (newDataAvailable r);
        cbn [andb]; rewrite ?C7, ?app_nil_r; try reflexivity.
      cbn [set_newDataAvailable notified].
      rewrite safeBLEUpdate_notified, C1, C2, C4, C6, C7, Hinit. reflexivity. }
    cbn [andb]. rewrite <- Hn2.
    repeat match goal with
           | |- context [if ?b then set_oldDeviceConnected ?v ?x else ?x] =>
               destruct b
           end; reflexivity. }
  assert (Hflag : newDataAvailable (BLETask_iteration env now r) =
    if bleInitialized r && deviceConnected r && serverCreated r && newDataAvailable r
    then false else newDataAvailable r).
  { unfold BLETask_iteration.
    destruct (bleInitialized r) eqn:Hinit; [| reflexivity].
    pose proof (checkBLEConnection_flags env now r) as C. cbv zeta in C.
    destruct C as (C1 & C2 & C3 & C4 & C5 & C6 & C7).
    set (r1 := checkBLEConnection env now r) in *.
    assert (Hf2 : newDataAvailable
              (if deviceConnected r1 && serverCreated r1 && newDataAvailable r1
               then set_newDataAvailable false (safeBLEUpdate env r1) else r1) =
            if deviceConnected r && serverCreated r && newDataAvailable r
            then false else newDataAvailable r).
    { rewrite C2, C3, C5.
      destruct (deviceConnected r), (serverCreated r), (newDataAvailable r);
        cbn [andb]; rewrite ?C5; reflexivity. }
    cbn [andb]. rewrite <- Hf2.
    repeat match goal with
           | |- context [if ?b then set_oldDeviceConnected ?v ?x else ?x] =>
               destruct b
           end; reflexivity. }
  split; [| split; [exact Hnot | exact Hflag]].
  intros Hchanged. rewrite Hnot in Hchanged.
  destruct (bleInitialized r), (deviceConnected r), (serverCreated r),
    (newDataAvailable r), (characteristicsCreated r), (env_mutex env);
    cbn in Hchanged; rewrite ?app_nil_r in Hchanged;
    try (exfalso; apply Hchanged; reflexivity); repeat split.
Qed.

(** C9 as stated fails on the code: connected, new data pending, the
    mutex held by the sensor task; the push is skipped (nothing is
    notified) and the flag is cleared all the same. *)
Lemma skipped_push_clears_flag :
  let busy := mkEnv 1000 (fun _ => true) true 0 (fun _ => true) (fun _ => true)
                (fun _ => LogData.sizeof) (fun _ => true) false true in
  let r := mkRadio true true true true true true (reading 5 12 20 87) ""
             0 0 [] in
  let r' := BLETask_iteration busy 100 r in
  deviceConnected r = true /\ newDataAvailable r = true /\
  notified r' = notified r /\
  newDataAvailable r' = false.
Proof. cbv zeta. repeat split. Qed.

(* --------------------------------------------------------------------- *)
(** ** The record codec *)
(* --------------------------------------------------------------------- *)

(** Writing a record to the file store and reading it back: when the
    directory is there, the file opens and the write is complete, the store
    holds the record's image at the path of the old [logIndex], [logIndex]
    has advanced, and [readLogFromLittleFS] returns the record. *)
Lemma saveLogToLittleFS_readLogFromLittleFS
    (env env' : Env) (e : LogData.t) (st : Store) :
  LogData.in_range e ->
  fst (ensure_dir env (getLittleFSLogDir (logIndex st)) (littlefs st)) = true ->
  env_open_w env (getLittleFSLogPath (logIndex st)) = true ->
  (LogData.sizeof <= env_written env (getLittleFSLogPath (logIndex st)))%nat ->
  env_open_r env' (getLittleFSLogPath (logIndex st)) = true ->
  let st' := fst (saveLogToLittleFS env e st) in
  logIndex st' = wrap_int (logIndex st + 1) /\
  fs_files (littlefs st') !! getLittleFSLogPath (logIndex st) =
    Some (LogData.image (env_pad env) e) /\
  readLogFromLittleFS env' (logIndex st) (littlefs st') = e.
Proof.
  intros Hrange Hdir Hopen Hwritten Hread. cbv zeta.
  unfold saveLogToLittleFS.
  destruct (ensure_dir env (getLittleFSLogDir (logIndex st)) (littlefs st))
    as [dir_ok fs1].
  cbn [fst] in Hdir. subst dir_ok. cbn [negb]. rewrite Hopen. cbn [negb].
  unfold write_file.
  assert (Htake : take (env_written env (getLittleFSLogPath (logIndex st)))
                    (LogData.image (env_pad env) e) = LogData.image (env_pad env) e).
  { apply take_ge. rewrite LogData_image_length. exact Hwritten. }
  rewrite Htake, LogData_image_length, Nat.eqb_refl.
  cbn [negb fst logIndex littlefs set_logIndex set_littlefs].
  assert (Hfile : fs_files
            (write_metadata env (wrap_int (logIndex st + 1))
               (mkFS (fs_dirs fs1)
                  (<[getLittleFSLogPath (logIndex st) := LogData.image (env_pad env) e]>
                     (fs_files fs1)) (fs_meta fs1)))
            !! getLittleFSLogPath (logIndex st) =
          Some (LogData.image (env_pad env) e)).
  { rewrite write_metadata_files. cbn [fs_files]. apply lookup_insert_eq. }
  split; [reflexivity |]. split; [exact Hfile |].
  unfold readLogFromLittleFS. rewrite Hfile, Hread.
  rewrite take_ge by (rewrite LogData_image_length; reflexivity).
  apply LogData_of_image_image. exact Hrange.
Qed.

(** On the key/value path a blob of any other length than
    [sizeof(LogData)] is not accepted as a record. *)
Lemma getBytes_short_blob (key : string) (blob : list Z) (p : Preferences.t) :
  p !! key = Some (PBytes blob) ->
  length blob <> LogData.sizeof ->
  (fst (Preferences.getBytes key LogData.sizeof p) =? LogData.sizeof)%nat = false.
Proof.
  intros Hkey Hlen. unfold Preferences.getBytes. rewrite Hkey.
  destruct (length blob <=? LogData.sizeof)%nat; cbn [fst].
  - apply Nat.eqb_neq. exact Hlen.
  - reflexivity.
Qed.

(** C8 at its failing input.  A log file cut short to five octets (a
    complete timestamp, one octet of [pm1_0_env]) is not rejected:
    [readLogFromLittleFS] returns the struct it partly filled, and
    [loadNextBatch] takes it for a record because its timestamp is not
    zero.  The same five octets under the slot key of the key/value store
    are rejected. *)
Theorem short_file_is_read_as_a_record :
  let cut := [1; 0; 0; 0; 7] in
  let fs := mkFS ∅ (<[getLittleFSLogPath 0 := cut]> ∅) (Some 1) in
  let onFile := mkStore 1 true ∅ fs ERROR_NONE in
  let onKeys := mkStore 1 false (<[slot_key 0 := PBytes cut]> ∅) empty_fs ERROR_NONE in
  (length cut < LogData.sizeof)%nat /\
  readLogFromLittleFS healthy 0 fs = LogData.mk 1 7 0 0 0 /\
  load_entry healthy onFile 0 = Some (LogData.mk 1 7 0 0 0) /\
  entry_text healthy onFile 0 = "1,7,0,0,0;" /\
  load_entry healthy onKeys 0 = None.
Proof.
  cbv zeta. split; [unfold LogData.sizeof; cbn [length]; lia |].
  split; [vm_compute; reflexivity |].
  split; [vm_compute; reflexivity |].
  split; vm_compute; reflexivity.
Qed.

(* --------------------------------------------------------------------- *)
(** ** Strings: concatenation and slices *)
(* --------------------------------------------------------------------- *)

Lemma str_app_cons (c : ascii) (a b : string) :
  String c a +:+ b = String c (a +:+ b).
Proof. reflexivity. Qed.

Lemma str_app_nil_r (s : string) : s +:+ "" = s.
Proof.
  induction s as [| c s IH]; [reflexivity |].
  rewrite str_app_cons, IH. reflexivity.
Qed.

Lemma str_app_assoc (a b c : string) : (a +:+ b) +:+ c = a +:+ (b +:+ c).
Proof.
  induction a as [| x a IH]; [reflexivity |].
  rewrite !str_app_cons, IH. reflexivity.
Qed.

Lemma str_length_app (a b : string) :
  String.length (a +:+ b) = (String.length a + String.length b)%nat.
Proof.
  induction a as [| x a IH]; [reflexivity |].
  rewrite str_app_cons. cbn [String.length]. rewrite IH. reflexivity.
Qed.

Lemma substring_0_all (s : string) : String.substring 0 (String.length s) s = s.
Proof. induction s as [| c s IH]; [reflexivity |]. cbn. rewrite IH. reflexivity. Qed.

Lemma substring_0_length (m : nat) (s : string) :
  String.length (String.substring 0 m s) = Nat.min m (String.length s).
Proof.
  revert m. induction s as [| c s IH]; intros [| m]; try reflexivity.
  cbn. rewrite IH. reflexivity.
Qed.

(** A string is its first [m] characters followed by the rest. *)
Lemma substring_split (m : nat) (s : string) :
  (m <= String.length s)%nat ->
  String.substring 0 m s +:+ String.substring m (String.length s - m) s = s.
Proof.
  revert m. induction s as [| c s IH]; intros [| m] Hm; cbn in Hm |- *.
  - reflexivity.
  - lia.
  - rewrite substring_0_all. reflexivity.
  - rewrite str_app_cons, IH by lia. reflexivity.
Qed.

Lemma substring_rest_length (m : nat) (s : string) :
  (m <= String.length s)%nat ->
  String.length (String.substring m (String.length s - m) s) =
  (String.length s - m)%nat.
Proof.
  intros Hm. pose proof (substring_split m s Hm) as H.
  apply (f_equal String.length) in H.
  rewrite str_length_app, substring_0_length in H. lia.
Qed.

(** A slice of what follows position [b] is a slice of the string. *)
Lemma substring_compose (a b m : nat) (s : string) :
  String.substring a m (String.substring b (String.length s - b) s) =
  String.substring (b + a) m s.
Proof.
  revert b. induction s as [| c s IH]; intros [| b].
  - reflexivity.
  - cbn. destruct a, m; reflexivity.
  - rewrite Nat.sub_0_r, (substring_0_all (String c s)). reflexivity.
  - change (String.substring a m
              (String.substring b (String.length s - b) s) =
            String.substring (b + a) m s).
    apply IH.
Qed.

(** The first [m] characters of what follows position [n]. *)
Lemma substring_of_rest (n m : nat) (s : string) :
  String.substring 0 m (String.substring n (String.length s - n) s) =
  String.substring n m s.
Proof. rewrite substring_compose, Nat.add_0_r. reflexivity. Qed.

(** A string is its first [n1] characters, the [n2] that follow, and the
    rest. *)
Lemma substring_split3 (n1 n2 : nat) (s : string) :
  (n1 + n2 <= String.length s)%nat ->
  s = String.substring 0 n1 s +:+ String.substring n1 n2 s +:+
      String.substring (n1 + n2) (String.length s - (n1 + n2)) s.
Proof.
  intros Hlen.
  pose proof (substring_split n1 s ltac:(lia)) as H1.
  pose proof (substring_rest_length n1 s ltac:(lia)) as Hl.
  pose proof (substring_split n2 (String.substring n1 (String.length s - n1) s)
                ltac:(lia)) as H2.
  rewrite Hl, substring_of_rest, substring_compose in H2.
  replace (String.length s - n1 - n2)%nat with (String.length s - (n1 + n2))%nat
    in H2 by lia.
  rewrite <- H2 in H1. symmetry. exact H1.
Qed.

Lemma concat_text_app (l1 l2 : list string) :
  concat_text (l1 ++ l2) = concat_text l1 +:+ concat_text l2.
Proof.
  induction l1 as [| x l1 IH]; [reflexivity |].
  cbn [app concat_text fold_right]. fold (concat_text (l1 ++ l2)).
  fold (concat_text l1). rewrite IH, str_app_assoc. reflexivity.
Qed.

Lemma concat_text_length (n : nat) (l : list string) :
  Forall (fun t => String.length t = n) l ->
  String.length (concat_text l) = (length l * n)%nat.
Proof.
  induction 1 as [| x l Hx _ IH]; [reflexivity |].
  cbn [concat_text fold_right length]. fold (concat_text l).
  rewrite str_length_app, IH, Hx. lia.
Qed.

(** The loop of [loadNextBatch] appends to the cache from the left; the
    result is the concatenation of the texts. *)
Lemma fold_left_append (f : Z -> string) (l : list Z) (acc : string) :
  fold_left (fun cache i => cache +:+ f i) l acc =
  acc +:+ concat_text (List.map f l).
Proof.
  revert acc. induction l as [| i l IH]; intros acc.
  - cbn. rewrite str_app_nil_r. reflexivity.
  - cbn [fold_left List.map concat_text fold_right].
    fold (concat_text (List.map f l)).
    rewrite IH, str_app_assoc. reflexivity.
Qed.

Lemma batch_text_app (env : Env) (st : Store) (s : Session) (from n1 n2 : Z) :
  0 <= n1 -> 0 <= n2 ->
  batch_text env st s from (n1 + n2) =
  batch_text env st s from n1 +:+ batch_text env st s (from + n1) n2.
Proof.
  intros H1 H2. unfold batch_text.
  rewrite seqZ_app, map_app, concat_text_app by assumption. reflexivity.
Qed.

Lemma batch_text_length (env : Env) (st : Store) (s : Session) (from n : Z) (w : nat) :
  (forall i, from <= i < from + n ->
             String.length (entry_text env st (startEntryIndex s + i)) = w) ->
  String.length (batch_text env st s from n) = (Z.to_nat n * w)%nat.
Proof.
  intros Hw. unfold batch_text.
  rewrite (concat_text_length w).
  - rewrite length_map, length_seqZ. reflexivity.
  - apply Forall_map, Forall_seqZ. exact Hw.
Qed.

(* --------------------------------------------------------------------- *)
(** ** The transfer session *)
(* --------------------------------------------------------------------- *)

Lemma loadNextBatch_cache (env : Env) (st : Store) (s : Session) :
  let batchEnd :=
    Z.min (entriesProcessed s + ENTRIES_PER_BATCH) (totalEntriesToSend s) in
  let text :=
    batch_text env st s (entriesProcessed s) (batchEnd - entriesProcessed s) in
  loadNextBatch env st s =
  mkSession (if (String.length text =? 0)%nat then no_data else text)
    (totalChunks s) (currentChunk s) (totalEntriesToSend s) batchEnd
    (startEntryIndex s) (chunkInfo s).
Proof.
  cbv zeta. unfold loadNextBatch, batch_text. rewrite fold_left_append.
  reflexivity.
Qed.

(** [prepareLoggedDataForChunking] starts from scratch: nothing of the
    previous session survives. *)
Lemma prepare_fresh (env : Env) (st : Store) (s s' : Session) :
  prepareLoggedDataForChunking env st s = prepareLoggedDataForChunking env st s'.
Proof. reflexivity. Qed.

Lemma prepare_totalChunks (env : Env) (st : Store) (s : Session) :
  totalChunks (prepareLoggedDataForChunking env st s) =
  Z.max 1
    (Z.quot
       (wrap_int (wrap_int (Z.min (logIndex st) MAX_LOG_ENTRIES * 30)
                  + MAX_CHUNK_SIZE - 1))
       MAX_CHUNK_SIZE).
Proof. reflexivity. Qed.

Lemma substring_none (n : nat) (s : string) : String.substring n 0 s = "".
Proof.
  revert n. induction s as [| c s IH]; intros [| n]; try reflexivity.
  cbn. apply IH.
Qed.

(** With at least one chunk in the cache nothing is loaded: the payload is
    the first [MAX_CHUNK_SIZE] characters of the cache and the cache keeps
    the rest. *)
Lemma sendLoggedDataChunk_slice (env : Env) (st : Store) (s : Session) :
  MAX_CHUNK_SIZE <= Z.of_nat (String.length (loggedDataCache s)) ->
  sendLoggedDataChunk env st s =
  (set_cache (substring_from 400 (loggedDataCache s)) s,
   substring_from_to 0 400 (loggedDataCache s)).
Proof.
  unfold MAX_CHUNK_SIZE. intros Hlen. unfold sendLoggedDataChunk.
  destruct (String.length (loggedDataCache s) =? 0)%nat eqn:H0.
  { apply Nat.eqb_eq in H0. lia. }
  assert (Hno : (Z.of_nat (String.length (loggedDataCache s)) <? MAX_CHUNK_SIZE) = false).
  { apply Z.ltb_ge. exact Hlen. }
  rewrite Hno. cbn [andb].
  assert (Hpos : (0 <? String.length (loggedDataCache s))%nat = true).
  { apply Nat.ltb_lt. lia. }
  rewrite Hpos.
  assert (Hend : Z.to_nat (Z.min MAX_CHUNK_SIZE (Z.of_nat (String.length (loggedDataCache s))))
                 = 400%nat).
  { unfold MAX_CHUNK_SIZE. rewrite Z.min_l by lia. reflexivity. }
  rewrite Hend.
  destruct (400 <? String.length (loggedDataCache s))%nat eqn:Hlt; [reflexivity |].
  apply Nat.ltb_ge in Hlt.
  assert (Hexact : String.length (loggedDataCache s) = 400%nat) by lia.
  unfold substring_from. rewrite Hexact.
  change (400 - 400)%nat with 0%nat. rewrite substring_none. reflexivity.
Qed.

(** With a cache that is not empty and holds a chunk or more, or with no
    record left to load, nothing is loaded: the payload is the front of the
    cache, up to [MAX_CHUNK_SIZE] characters, and the cache keeps the
    rest. *)
Lemma sendLoggedDataChunk_front (env : Env) (st : Store) (s : Session) :
  let len := String.length (loggedDataCache s) in
  let n := Nat.min 400 len in
  len <> 0%nat ->
  MAX_CHUNK_SIZE <= Z.of_nat len \/ totalEntriesToSend s <= entriesProcessed s ->
  sendLoggedDataChunk env st s =
  (set_cache (substring_from n (loggedDataCache s)) s,
   substring_from_to 0 n (loggedDataCache s)).
Proof.
  cbv zeta. unfold MAX_CHUNK_SIZE. intros Hlen Hno. unfold sendLoggedDataChunk.
  destruct (String.length (loggedDataCache s) =? 0)%nat eqn:H0.
  { apply Nat.eqb_eq in H0. contradiction. }
  assert (Hnoload :
    (Z.of_nat (String.length (loggedDataCache s)) <? MAX_CHUNK_SIZE)
    && (entriesProcessed s <? totalEntriesToSend s) = false).
  { apply andb_false_iff. destruct Hno as [H | H].
    - left. apply Z.ltb_ge. exact H.
    - right. apply Z.ltb_ge. exact H. }
  rewrite Hnoload.
  assert (Hpos : (0 <? String.length (loggedDataCache s))%nat = true).
  { apply Nat.ltb_lt. lia. }
  rewrite Hpos.
  assert (Hend : Z.to_nat (Z.min MAX_CHUNK_SIZE (Z.of_nat (String.length (loggedDataCache s))))
                 = Nat.min 400 (String.length (loggedDataCache s))).
  { unfold MAX_CHUNK_SIZE. lia. }
  rewrite Hend.
  destruct (Nat.min 400 (String.length (loggedDataCache s))
            <? String.length (loggedDataCache s))%nat eqn:Hlt; [reflexivity |].
  apply Nat.ltb_ge in Hlt.
  assert (Hexact : Nat.min 400 (String.length (loggedDataCache s)) =
                   String.length (loggedDataCache s)) by lia.
  rewrite Hexact. unfold substring_from. rewrite Nat.sub_diag, substring_none.
  reflexivity.
Qed.

(** Two sessions with the same cache and the same progress: they may
    differ in the cursor and in the chunk-info text. *)
Lemma sendLoggedDataChunk_same_stream (env : Env) (st : Store) (a b : Session) :
  loggedDataCache a = loggedDataCache b ->
  entriesProcessed a = entriesProcessed b ->
  totalEntriesToSend a = totalEntriesToSend b ->
  startEntryIndex a = startEntryIndex b ->
  totalChunks a = totalChunks b ->
  let sa := sendLoggedDataChunk env st a in
  let sb := sendLoggedDataChunk env st b in
  snd sa = snd sb /\
  loggedDataCache (fst sa) = loggedDataCache (fst sb) /\
  entriesProcessed (fst sa) = entriesProcessed (fst sb) /\
  totalEntriesToSend (fst sa) = totalEntriesToSend (fst sb) /\
  startEntryIndex (fst sa) = startEntryIndex (fst sb) /\
  totalChunks (fst sa) = totalChunks (fst sb) /\
  currentChunk (fst sa) =
    (if (String.length (loggedDataCache a) =? 0)%nat then 0 else currentChunk a).
Proof.
  destruct a as [cache tc cc total ep start info].
  destruct b as [cache' tc' cc' total' ep' start' info'].
  cbn [loggedDataCache totalChunks currentChunk totalEntriesToSend
       entriesProcessed startEntryIndex].
  intros <- <- <- <- <-. cbv zeta. unfold sendLoggedDataChunk.
  cbn [loggedDataCache].
  destruct (String.length cache =? 0)%nat eqn:Hempty.
  - rewrite (prepare_fresh env st
               (mkSession cache tc cc' total ep start info')
               (mkSession cache tc cc total ep start info)).
    set (s1 := prepareLoggedDataForChunking env st _).
    assert (Hc : currentChunk s1 = 0) by reflexivity.
    cbv zeta.
    destruct ((Z.of_nat (String.length (loggedDataCache s1)) <? MAX_CHUNK_SIZE)
              && (entriesProcessed s1 <? totalEntriesToSend s1)).
    + set (s2 := loadNextBatch env st s1).
      assert (Hc2 : currentChunk s2 = 0) by reflexivity.
      destruct (0 <? String.length (loggedDataCache s2))%nat;
        [| destruct (totalEntriesToSend s2 <=? entriesProcessed s2)];
        repeat split; assumption.
    + destruct (0 <? String.length (loggedDataCache s1))%nat;
        [| destruct (totalEntriesToSend s1 <=? entriesProcessed s1)];
        repeat split; assumption.
  - cbv zeta. unfold loadNextBatch.
    repeat first
      [ progress cbn [loggedDataCache totalChunks currentChunk totalEntriesToSend
                      entriesProcessed startEntryIndex chunkInfo set_cache fst snd]
      | match goal with
        | |- context [if ?b then _ else _] =>
            lazymatch b with
            | context [if _ then _ else _] => fail
            | _ => destruct b
            end
        end ];
      repeat split.
Qed.

(** The cursor does not select the bytes: sending after an accepted
    request for [k] yields the payload, the cache and the progress that
    sending without it yields; only the cursor and the chunk-info text
    differ (and not even those when the empty cache forces a new
    preparation). *)
Lemma sendLoggedDataChunk_accept_request
    (env : Env) (st : Store) (k : Z) (s : Session) :
  let sent := sendLoggedDataChunk env st s in
  let sent' := sendLoggedDataChunk env st (accept_request k s) in
  snd sent' = snd sent /\
  loggedDataCache (fst sent') = loggedDataCache (fst sent) /\
  entriesProcessed (fst sent') = entriesProcessed (fst sent) /\
  totalEntriesToSend (fst sent') = totalEntriesToSend (fst sent) /\
  startEntryIndex (fst sent') = startEntryIndex (fst sent) /\
  totalChunks (fst sent') = totalChunks (fst sent) /\
  currentChunk (fst sent') =
    (if (String.length (loggedDataCache s) =? 0)%nat then 0 else k).
Proof.
  cbv zeta.
  pose proof (sendLoggedDataChunk_same_stream env st (accept_request k s) s
                eq_refl eq_refl eq_refl eq_refl eq_refl) as H.
  exact H.
Qed.

Lemma onWrite_chunkRequest_accepted
    (env : Env) (st : Store) (k : Z) (s : Session) :
  0 <= k < totalChunks s ->
  onWrite_chunkRequest env st k s =
  (fst (sendLoggedDataChunk env st (accept_request k s)),
   Some (snd (sendLoggedDataChunk env st (accept_request k s)))).
Proof.
  intros [Hlo Hhi]. unfold onWrite_chunkRequest.
  assert (Hprep : (k =? -1) = false) by (apply Z.eqb_neq; lia).
  assert (Hin : (0 <=? k) && (k <? totalChunks s) = true).
  { apply andb_true_intro. split; [apply Z.leb_le | apply Z.ltb_lt]; assumption. }
  rewrite Hprep, Hin.
  destruct (sendLoggedDataChunk env st (accept_request k s)); reflexivity.
Qed.

(** An accepted request delivers what [sendLoggedDataChunk] would deliver
    from the session as it was: the index written plays no part. *)
Lemma onWrite_chunkRequest_payload (env : Env) (st : Store) (s : Session) (k : Z) :
  0 <= k < totalChunks s ->
  snd (onWrite_chunkRequest env st k s) = Some (snd (sendLoggedDataChunk env st s)).
Proof.
  intros Hk. rewrite (onWrite_chunkRequest_accepted env st k s Hk).
  cbn [snd]. f_equal.
  apply (sendLoggedDataChunk_accept_request env st k s).
Qed.

(** An accepted request on a cache of a chunk or more. *)
Lemma onWrite_chunkRequest_slice (env : Env) (st : Store) (s : Session) (k : Z) :
  0 <= k < totalChunks s ->
  MAX_CHUNK_SIZE <= Z.of_nat (String.length (loggedDataCache s)) ->
  snd (onWrite_chunkRequest env st k s) =
    Some (substring_from_to 0 400 (loggedDataCache s)) /\
  loggedDataCache (fst (onWrite_chunkRequest env st k s)) =
    substring_from 400 (loggedDataCache s) /\
  currentChunk (fst (onWrite_chunkRequest env st k s)) = k /\
  totalChunks (fst (onWrite_chunkRequest env st k s)) = totalChunks s.
Proof.
  intros Hk Hlen.
  pose proof (sendLoggedDataChunk_slice env st s Hlen) as Hslice.
  pose proof (sendLoggedDataChunk_accept_request env st k s) as Hacc.
  cbv zeta in Hacc. destruct Hacc as (_ & Hcache & _ & _ & _ & Htc & Hcur).
  rewrite Hslice in Hcache, Htc.
  cbn [fst set_cache loggedDataCache totalChunks] in Hcache, Htc.
  assert (Hnonempty : (String.length (loggedDataCache s) =? 0)%nat = false).
  { apply Nat.eqb_neq. unfold MAX_CHUNK_SIZE in Hlen. lia. }
  rewrite Hnonempty in Hcur.
  split; [rewrite onWrite_chunkRequest_payload by exact Hk; rewrite Hslice; reflexivity |].
  rewrite (onWrite_chunkRequest_accepted env st k s Hk). cbn [fst].
  split; [exact Hcache |]. split; [exact Hcur | exact Htc].
Qed.

(** Two accepted requests in a row on a cache of two chunks or more: the
    second payload is the second slice. *)
Lemma second_request_second_slice
    (env : Env) (st : Store) (s : Session) (k j : Z) :
  0 <= k < totalChunks s ->
  0 <= j < totalChunks s ->
  2 * MAX_CHUNK_SIZE <= Z.of_nat (String.length (loggedDataCache s)) ->
  snd (onWrite_chunkRequest env st j (fst (onWrite_chunkRequest env st k s))) =
  Some (substring_from_to 400 800 (loggedDataCache s)).
Proof.
  intros Hk Hj Hlen2. unfold MAX_CHUNK_SIZE in Hlen2.
  destruct (onWrite_chunkRequest_slice env st s k Hk) as (_ & Hcache & _ & Htc);
    [unfold MAX_CHUNK_SIZE; lia |].
  set (s1 := fst (onWrite_chunkRequest env st k s)) in *.
  assert (Hlen1 : String.length (loggedDataCache s1) =
                  (String.length (loggedDataCache s) - 400)%nat).
  { rewrite Hcache. unfold substring_from. apply substring_rest_length. lia. }
  destruct (onWrite_chunkRequest_slice env st s1 j) as (Hp & _);
    [rewrite Htc; exact Hj | unfold MAX_CHUNK_SIZE; lia |].
  rewrite Hp, Hcache. f_equal.
  unfold substring_from_to, substring_from.
  change (400 - 0)%nat with 400%nat. change (800 - 400)%nat with 400%nat.
  apply substring_of_rest.
Qed.

(** C6, as the firmware has it.  An accepted chunk request -- a first one,
    a repeated one or one for an earlier index alike -- delivers what
    [sendLoggedDataChunk] delivers next, whichever index was written: the
    payload, the cache left behind and the loading progress do not depend
    on the index, which only ends up in [currentChunk] (when the cache was
    not empty).  The cache is consumed from its front: when it is not empty
    and holds a chunk or more, or no record is left to load, the payload is
    its first [min(400, length)] characters, these are dropped from the
    cache and nothing is loaded.  So with two chunks or more in the cache, a
    second request (for any index in range, the same one included) delivers
    the 400 characters that follow, not the ones already delivered. *)
Theorem chunk_request_streams (env : Env) (st : Store) (s : Session) (k j : Z) :
  0 <= k < totalChunks s ->
  0 <= j < totalChunks s ->
  let sent := sendLoggedDataChunk env st s in
  let rk := onWrite_chunkRequest env st k s in
  let cache := loggedDataCache s in
  let len := String.length cache in
  let n := Nat.min 400 len in
  snd rk = Some (snd sent) /\
  snd (onWrite_chunkRequest env st j s) = snd rk /\
  loggedDataCache (fst rk) = loggedDataCache (fst sent) /\
  entriesProcessed (fst rk) = entriesProcessed (fst sent) /\
  totalEntriesToSend (fst rk) = totalEntriesToSend (fst sent) /\
  startEntryIndex (fst rk) = startEntryIndex (fst sent) /\
  totalChunks (fst rk) = totalChunks (fst sent) /\
  (len <> 0%nat -> currentChunk (fst rk) = k) /\
  (len <> 0%nat ->
   MAX_CHUNK_SIZE <= Z.of_nat len \/ totalEntriesToSend s <= entriesProcessed s ->
   snd rk = Some (substring_from_to 0 n cache) /\
   loggedDataCache (fst rk) = substring_from n cache /\
   entriesProcessed (fst rk) = entriesProcessed s /\
   totalEntriesToSend (fst rk) = totalEntriesToSend s /\
   startEntryIndex (fst rk) = startEntryIndex s /\
   totalChunks (fst rk) = totalChunks s) /\
  (2 * MAX_CHUNK_SIZE <= Z.of_nat len ->
   snd (onWrite_chunkRequest env st j (fst rk)) =
     Some (substring_from_to 400 800 cache)).
Proof.
  intros Hk Hj. cbv zeta.
  pose proof (sendLoggedDataChunk_accept_request env st k s) as Hacc.
  cbv zeta in Hacc.
  destruct Hacc as (Hpay & Hcache & Hep & Htotal & Hstart & Htc & Hcur).
  rewrite (onWrite_chunkRequest_accepted env st k s Hk). cbn [fst snd].
  split; [f_equal; exact Hpay |].
  split.
  { rewrite (onWrite_chunkRequest_payload env st s j Hj). f_equal.
    symmetry. exact Hpay. }
  split; [exact Hcache |]. split; [exact Hep |]. split; [exact Htotal |].
  split; [exact Hstart |]. split; [exact Htc |].
  split.
  { intros Hlen. rewrite Hcur.
    destruct (String.length (loggedDataCache s) =? 0)%nat eqn:H0; [| reflexivity].
    apply Nat.eqb_eq in H0. contradiction. }
  split.
  - intros Hlen Hno.
    pose proof (sendLoggedDataChunk_front env st s Hlen Hno) as Hfront.
    cbv zeta in Hfront.
    rewrite Hpay, Hcache, Hep, Htotal, Hstart, Htc, Hfront.
    cbn [fst snd set_cache loggedDataCache entriesProcessed totalEntriesToSend
         startEntryIndex totalChunks].
    repeat split.
  - intros Hlen2.
    pose proof (second_request_second_slice env st s k j Hk Hj Hlen2) as H2.
    rewrite (onWrite_chunkRequest_accepted env st k s Hk) in H2. exact H2.
Qed.

(** A session whose last record is in the cache, with two chunks
    announced: either index is served the same 20 characters, and the cache
    is empty afterwards. *)
Lemma chunk_request_streams_witness :
  let s := mkSession "1700000000,1,2,3,50;" 2 0 1 1 0 "2,0" in
  let st := mkStore 1 true ∅ empty_fs ERROR_NONE in
  snd (onWrite_chunkRequest healthy st 0 s) = snd (onWrite_chunkRequest healthy st 1 s) /\
  snd (onWrite_chunkRequest healthy st 1 s) = Some "1700000000,1,2,3,50;" /\
  loggedDataCache (fst (onWrite_chunkRequest healthy st 1 s)) = "" /\
  currentChunk (fst (onWrite_chunkRequest healthy st 1 s)) = 1.
Proof.
  cbv zeta.
  destruct (chunk_request_streams healthy (mkStore 1 true ∅ empty_fs ERROR_NONE)
              (mkSession "1700000000,1,2,3,50;" 2 0 1 1 0 "2,0") 1 0
              ltac:(cbn [totalChunks]; lia) ltac:(cbn [totalChunks]; lia))
    as (_ & Hsame & _ & _ & _ & _ & _ & Hcur & Hfront & _).
  cbv zeta in Hsame, Hcur, Hfront.
  destruct (Hfront ltac:(discriminate) ltac:(right; cbn; lia))
    as (Hpay & Hcache & _).
  split; [exact Hsame |]. split; [exact Hpay |]. split; [exact Hcache |].
  apply Hcur. discriminate.
Defined.

(** C6 as stated fails on the code: forty records of 21 characters, 840
    characters in all.  After chunk 0 and chunk 1, a repeated request for
    chunk 0 delivers the last 40 characters of the stream, and a request
    for chunk 0 right after chunk 0 delivers the second 400. *)
Lemma repeated_chunk_request_differs :
  let st := store_40 in
  let s0 := fst (onWrite_chunkRequest healthy st (-1) empty_session) in
  let text := window_text healthy st s0 in
  let r0 := onWrite_chunkRequest healthy st 0 s0 in
  let r1 := onWrite_chunkRequest healthy st 1 (fst r0) in
  let again := onWrite_chunkRequest healthy st 0 (fst r1) in
  let twice := onWrite_chunkRequest healthy st 0 (fst r0) in
  String.length text = 840%nat /\
  snd r0 = Some (substring_from_to 0 400 text) /\
  snd r1 = Some (substring_from_to 400 800 text) /\
  snd again = Some (substring_from_to 800 840 text) /\
  snd twice = Some (substring_from_to 400 800 text) /\
  snd again <> snd r0 /\
  snd twice <> snd r0.
Proof.
  cbv zeta.
  split; [vm_compute; reflexivity |].
  split; [vm_compute; reflexivity |].
  split; [vm_compute; reflexivity |].
  split; [vm_compute; reflexivity |].
  split; [vm_compute; reflexivity |].
  split; intros H; vm_compute in H; discriminate H.
Qed.

(** The session a prepare request leaves, field by field. *)
Lemma prepare_session_int (env : Env) (st : Store) (s : Session) :
  let start := Z.max 0 (wrap_int (logIndex st - MAX_LOG_ENTRIES)) in
  let total := Z.min (logIndex st) MAX_LOG_ENTRIES in
  let chunks :=
    Z.max 1
      (Z.quot (wrap_int (wrap_int (total * 30) + MAX_CHUNK_SIZE - 1))
         MAX_CHUNK_SIZE) in
  let batchEnd := Z.min (0 + ENTRIES_PER_BATCH) total in
  let text :=
    concat_text
      (List.map (fun i => entry_text env st (start + i)) (seqZ 0 (batchEnd - 0))) in
  prepareLoggedDataForChunking env st s =
  mkSession (if (String.length text =? 0)%nat then no_data else text)
    chunks 0 total batchEnd start (String_of chunks +:+ "," +:+ String_of 0).
Proof.
  cbv zeta. unfold prepareLoggedDataForChunking.
  rewrite loadNextBatch_cache. reflexivity.
Qed.

(** The same while nothing wraps: the product [totalEntriesToSend * 30]
    stays an [int] down to [logIndex = -71582788], and so does the
    difference [logIndex - MAX_LOG_ENTRIES]. *)
Lemma prepare_session (env : Env) (st : Store) (s : Session) :
  -71582788 <= logIndex st < 2 ^ 31 ->
  let start := Z.max 0 (logIndex st - MAX_LOG_ENTRIES) in
  let total := Z.min (logIndex st) MAX_LOG_ENTRIES in
  let chunks :=
    Z.max 1 (Z.quot (total * 30 + MAX_CHUNK_SIZE - 1) MAX_CHUNK_SIZE) in
  let batchEnd := Z.min (0 + ENTRIES_PER_BATCH) total in
  let text :=
    concat_text
      (List.map (fun i => entry_text env st (start + i)) (seqZ 0 (batchEnd - 0))) in
  prepareLoggedDataForChunking env st s =
  mkSession (if (String.length text =? 0)%nat then no_data else text)
    chunks 0 total batchEnd start (String_of chunks +:+ "," +:+ String_of 0).
Proof.
  intros Hint. cbv zeta. rewrite prepare_session_int.
  unfold MAX_LOG_ENTRIES, MAX_CHUNK_SIZE in *.
  rewrite (wrap_int_small (logIndex st - 100000)) by lia.
  rewrite (wrap_int_small (Z.min (logIndex st) 100000 * 30)) by lia.
  rewrite (wrap_int_small (Z.min (logIndex st) 100000 * 30 + 400 - 1)) by lia.
  reflexivity.
Qed.

(** C7, as the firmware has it.  With 450 records retained, each
    serializing to 25 characters, a prepare request sets [totalChunks] to
    [ceil(450 * 30 / 400) = 34] (the estimate counts 30 characters per
    record, whatever their real size); chunk 0 and then chunk 1 are two
    payloads of exactly 400 characters each, and their concatenation is a
    strict prefix of the serialization of the window. *)
Theorem prepare_450_records (env : Env) (st : Store) (s : Session) :
  logIndex st = 450 ->
  (forall i, 0 <= i < 450 -> String.length (entry_text env st i) = 25%nat) ->
  let s0 := fst (onWrite_chunkRequest env st (-1) s) in
  let r0 := onWrite_chunkRequest env st 0 s0 in
  let r1 := onWrite_chunkRequest env st 1 (fst r0) in
  totalChunks s0 = 34 /\
  totalChunks s0 = (450 * 30 + 399) / 400 /\
  exists p0 p1 rest,
    snd r0 = Some p0 /\ snd r1 = Some p1 /\
    String.length p0 = 400%nat /\ String.length p1 = 400%nat /\
    window_text env st s0 = p0 +:+ p1 +:+ rest /\
    rest <> "".
Proof.
  intros Hidx Hw. cbv zeta.
  change (fst (onWrite_chunkRequest env st (-1) s))
    with (prepareLoggedDataForChunking env st s).
  pose proof (prepare_session env st s ltac:(rewrite Hidx; lia)) as Hs0.
  cbv zeta in Hs0.
  rewrite Hidx in Hs0.
  change (Z.max 0 (450 - MAX_LOG_ENTRIES)) with 0 in Hs0.
  change (Z.min 450 MAX_LOG_ENTRIES) with 450 in Hs0.
  change (Z.min (0 + ENTRIES_PER_BATCH) 450 - 0) with 200 in Hs0.
  change (Z.min (0 + ENTRIES_PER_BATCH) 450) with 200 in Hs0.
  change (Z.max 1 (Z.quot (450 * 30 + MAX_CHUNK_SIZE - 1) MAX_CHUNK_SIZE)) with 34 in Hs0.
  set (c := concat_text (List.map (fun i => entry_text env st (0 + i)) (seqZ 0 200))) in Hs0.
  set (s0 := prepareLoggedDataForChunking env st s) in *.
  (* the first batch: 200 records, 5000 characters *)
  assert (Hc : String.length c = 5000%nat).
  { subst c. rewrite (concat_text_length 25).
    - rewrite length_map, length_seqZ. reflexivity.
    - apply Forall_map, Forall_seqZ. intros i Hi. cbn beta. apply Hw. lia. }
  rewrite Hc in Hs0. cbn [Nat.eqb] in Hs0.
  assert (Hcache0 : loggedDataCache s0 = c) by (rewrite Hs0; reflexivity).
  assert (Htc0 : totalChunks s0 = 34) by (rewrite Hs0; reflexivity).
  assert (Hstart0 : startEntryIndex s0 = 0) by (rewrite Hs0; reflexivity).
  assert (Htotal0 : totalEntriesToSend s0 = 450) by (rewrite Hs0; reflexivity).
  split; [exact Htc0 |]. split; [rewrite Htc0; reflexivity |].
  (* chunk 0 and chunk 1 are slices of the cache *)
  destruct (onWrite_chunkRequest_slice env st s0 0) as (Hp0 & _);
    [rewrite Htc0; lia | rewrite Hcache0, Hc; unfold MAX_CHUNK_SIZE; lia |].
  pose proof (second_request_second_slice env st s0 0 1) as Hp1.
  specialize (Hp1 ltac:(rewrite Htc0; lia) ltac:(rewrite Htc0; lia)
                  ltac:(rewrite Hcache0, Hc; unfold MAX_CHUNK_SIZE; lia)).
  rewrite Hcache0 in Hp0, Hp1.
  exists (substring_from_to 0 400 c), (substring_from_to 400 800 c).
  exists (String.substring 800 4200 c +:+ batch_text env st s0 200 250).
  split; [exact Hp0 |]. split; [exact Hp1 |].
  unfold substring_from_to.
  change (400 - 0)%nat with 400%nat. change (800 - 400)%nat with 400%nat.
  pose proof (substring_0_length 400 c) as Hl0.
  pose proof (substring_0_length 400 (String.substring 400 (String.length c - 400) c))
    as Hl1.
  rewrite substring_of_rest, substring_rest_length in Hl1 by lia.
  rewrite Hc in Hl0, Hl1.
  split; [exact Hl0 |]. split; [exact Hl1 |].
  split.
  - unfold window_text. rewrite Htotal0.
    change 450 with (200 + 250).
    rewrite (batch_text_app env st s0 0 200 250) by lia.
    change (0 + 200) with 200.
    assert (Hfirst : batch_text env st s0 0 200 = c).
    { unfold batch_text. rewrite Hstart0. reflexivity. }
    rewrite Hfirst, <- !str_app_assoc. f_equal.
    rewrite str_app_assoc.
    pose proof (substring_split3 400 400 c ltac:(lia)) as H3.
    rewrite Hc in H3. exact H3.
  - intros Hempty. apply (f_equal String.length) in Hempty.
    rewrite str_length_app in Hempty.
    pose proof (substring_compose 400 400 4200 c) as Hcomp.
    pose proof (substring_rest_length 400
                  (String.substring 400 (String.length c - 400) c)) as Hl2.
    rewrite substring_rest_length in Hl2 by lia.
    rewrite Hc in Hl2, Hcomp.
    change (5000 - 400 - 400)%nat with 4200%nat in Hl2.
    rewrite Hcomp in Hl2. change (400 + 400)%nat with 800%nat in Hl2.
    rewrite Hl2 in Hempty by lia. cbn in Hempty. lia.
Qed.


(** The store of the scenario of C7: 450 records of 25 characters. *)
Lemma range_check (P : Z -> bool) (n : Z) :
  forallb P (seqZ 0 n) = true -> forall i, 0 <= i < n -> P i = true.
Proof.
  intros Hall i Hi. rewrite forallb_forall in Hall. apply Hall.
  apply list_elem_of_In, elem_of_seqZ. lia.
Qed.

Lemma prepare_450_records_witness :
  let st := store_450 in
  totalChunks (fst (onWrite_chunkRequest healthy st (-1) empty_session)) = 34.
Proof.
  cbv zeta.
  refine (proj1 (prepare_450_records healthy
                   store_450
                   empty_session _ _)).
  - vm_compute. reflexivity.
  - intros i Hi. apply Nat.eqb_eq.
    apply (range_check
             (fun i => (String.length
                          (entry_text healthy
                             store_450 i)
                        =? 25)%nat) 450); [vm_compute; reflexivity | exact Hi].
Defined.

(** C7 as stated fails on the code: for 450 retained records of 25
    characters the firmware announces 34 chunks, not
    [ceil(450 * 25 / 400) = 29]. *)
Lemma prepare_450_records_not_29 :
  let st := store_450 in
  let s0 := fst (onWrite_chunkRequest healthy st (-1) empty_session) in
  logIndex st = 450 /\
  forallb (fun i => (String.length (entry_text healthy st i) =? 25)%nat)
    (seqZ 0 450) = true /\
  (450 * 25 + 399) / 400 = 29 /\
  totalChunks s0 = 34 /\
  totalChunks s0 <> 29.
Proof.
  cbv zeta.
  split; [vm_compute; reflexivity |].
  split; [vm_compute; reflexivity |].
  split; [reflexivity |].
  split; [vm_compute; reflexivity |].
  intros H. vm_compute in H. discriminate H.
Qed.

(* --------------------------------------------------------------------- *)
(** ** The end-of-data signal *)
(* --------------------------------------------------------------------- *)

Lemma loadNextBatch_nonempty (env : Env) (st : Store) (s : Session) :
  String.length (loggedDataCache (loadNextBatch env st s)) <> 0%nat.
Proof.
  rewrite loadNextBatch_cache. cbn [loggedDataCache].
  match goal with
  | |- context [(String.length ?t =? 0)%nat] =>
      destruct (String.length t =? 0)%nat eqn:H
  end.
  - discriminate.
  - apply Nat.eqb_neq. exact H.
Qed.

(** [sendLoggedDataChunk] never delivers the empty payload that stands for
    the end of the data: the cache it slices is never empty, because an
    empty cache triggers a new preparation and [loadNextBatch] leaves at
    least the placeholder text in it. *)
Lemma sendLoggedDataChunk_never_empty (env : Env) (st : Store) (s : Session) :
  snd (sendLoggedDataChunk env st s) <> "".
Proof.
  unfold sendLoggedDataChunk.
  set (s1 := if (String.length (loggedDataCache s) =? 0)%nat
             then prepareLoggedDataForChunking env st s else s).
  assert (H1 : String.length (loggedDataCache s1) <> 0%nat).
  { subst s1. destruct (String.length (loggedDataCache s) =? 0)%nat eqn:H.
    - unfold prepareLoggedDataForChunking.
      change (loggedDataCache (set_chunkInfo ?v ?x)) with (loggedDataCache x).
      apply loadNextBatch_nonempty.
    - apply Nat.eqb_neq. exact H. }
  cbv zeta.
  set (s2 := if (Z.of_nat (String.length (loggedDataCache s1)) <? MAX_CHUNK_SIZE)
                && (entriesProcessed s1 <? totalEntriesToSend s1)
             then loadNextBatch env st s1 else s1).
  assert (H2 : String.length (loggedDataCache s2) <> 0%nat).
  { subst s2.
    destruct ((Z.of_nat (String.length (loggedDataCache s1)) <? MAX_CHUNK_SIZE)
              && (entriesProcessed s1 <? totalEntriesToSend s1));
      [apply loadNextBatch_nonempty | exact H1]. }
  assert (Hpos : (0 <? String.length (loggedDataCache s2))%nat = true).
  { apply Nat.ltb_lt. lia. }
  rewrite Hpos. cbn [snd]. intros Hempty.
  apply (f_equal String.length) in Hempty.
  unfold substring_from_to in Hempty. rewrite Nat.sub_0_r in Hempty.
  rewrite substring_0_length in Hempty. unfold MAX_CHUNK_SIZE in Hempty.
  cbn [String.length] in Hempty. lia.
Qed.

(* --------------------------------------------------------------------- *)
(** ** A download that fits one batch *)
(* --------------------------------------------------------------------- *)

(** With every record of the window already loaded and the cache not
    empty, nothing is loaded: the payload is the first chunk of the cache
    (all of it when it is shorter) and the cache keeps the rest. *)
Lemma sendLoggedDataChunk_loaded (env : Env) (st : Store) (s : Session) :
  String.length (loggedDataCache s) <> 0%nat ->
  totalEntriesToSend s <= entriesProcessed s ->
  sendLoggedDataChunk env st s =
  (set_cache
     (if (400 <? String.length (loggedDataCache s))%nat
      then substring_from 400 (loggedDataCache s) else "") s,
   substring_from_to 0 (Nat.min 400 (String.length (loggedDataCache s)))
     (loggedDataCache s)).
Proof.
  intros Hlen Hdone. unfold sendLoggedDataChunk.
  destruct (String.length (loggedDataCache s) =? 0)%nat eqn:H0.
  { apply Nat.eqb_eq in H0. contradiction. }
  assert (Hno : (entriesProcessed s <? totalEntriesToSend s) = false).
  { apply Z.ltb_ge. exact Hdone. }
  rewrite Hno, andb_false_r.
  assert (Hpos : (0 <? String.length (loggedDataCache s))%nat = true).
  { apply Nat.ltb_lt. lia. }
  rewrite Hpos.
  assert (Hend : Z.to_nat (Z.min MAX_CHUNK_SIZE (Z.of_nat (String.length (loggedDataCache s))))
                 = Nat.min 400 (String.length (loggedDataCache s))).
  { unfold MAX_CHUNK_SIZE. lia. }
  rewrite Hend.
  destruct (400 <? String.length (loggedDataCache s))%nat eqn:Hlt.
  - apply Nat.ltb_lt in Hlt. rewrite Nat.min_l by lia.
    assert (H400 : (400 <? String.length (loggedDataCache s))%nat = true)
      by (apply Nat.ltb_lt; exact Hlt).
    rewrite H400. reflexivity.
  - apply Nat.ltb_ge in Hlt. rewrite Nat.min_r by lia.
    rewrite Nat.ltb_irrefl. reflexivity.
Qed.

(** The chunks that stream a loaded cache: [m] requests with increasing
    indices, where [m] is the number of chunks the cache needs, deliver
    the cache, whole and once. *)
Lemma request_chunks_stream (env : Env) (st : Store) (m : nat) :
  forall (s : Session) (k : Z),
    String.length (loggedDataCache s) <> 0%nat ->
    totalEntriesToSend s <= entriesProcessed s ->
    Z.of_nat m = (Z.of_nat (String.length (loggedDataCache s)) + 399) / 400 ->
    0 <= k -> k + Z.of_nat m <= totalChunks s ->
    concat_text (snd (request_chunks env st (seqZ k (Z.of_nat m)) s)) =
    loggedDataCache s.
Proof.
  induction m as [| m IH]; intros s k Hlen Hdone Hm Hk Hroom.
  - exfalso. change (Z.of_nat 0) with 0 in Hm.
    assert (0 < (Z.of_nat (String.length (loggedDataCache s)) + 399) / 400).
    { apply Z.div_str_pos. lia. }
    lia.
  - rewrite seqZ_cons by lia. cbn [request_chunks].
    rewrite (onWrite_chunkRequest_accepted env st k s) by lia.
    assert (Hsend : sendLoggedDataChunk env st (accept_request k s) =
              (set_cache
                 (if (400 <? String.length (loggedDataCache s))%nat
                  then substring_from 400 (loggedDataCache s) else "")
                 (accept_request k s),
               substring_from_to 0 (Nat.min 400 (String.length (loggedDataCache s)))
                 (loggedDataCache s))).
    { apply (sendLoggedDataChunk_loaded env st (accept_request k s)); assumption. }
    rewrite Hsend. cbn [fst snd].
    replace (Z.pred (Z.of_nat (S m))) with (Z.of_nat m) by lia.
    destruct (400 <? String.length (loggedDataCache s))%nat eqn:Hlt.
    + (* more than one chunk left *)
      apply Nat.ltb_lt in Hlt.
      set (s' := set_cache (substring_from 400 (loggedDataCache s))
                   (accept_request k s)).
      assert (Hrest : String.length (loggedDataCache s') =
                      (String.length (loggedDataCache s) - 400)%nat).
      { subst s'. cbn [set_cache loggedDataCache]. unfold substring_from.
        apply substring_rest_length. lia. }
      specialize (IH s' (Z.succ k)).
      destruct (request_chunks env st (seqZ (Z.succ k) (Z.of_nat m)) s')
        as [s'' payloads] eqn:Hreq.
      cbn [snd] in IH |- *. cbn [concat_text fold_right].
      fold (concat_text payloads). rewrite IH.
      * subst s'. cbn [set_cache loggedDataCache].
        rewrite Nat.min_l by lia. unfold substring_from_to, substring_from.
        rewrite Nat.sub_0_r. apply substring_split. lia.
      * rewrite Hrest. lia.
      * exact Hdone.
      * rewrite Hrest. rewrite Nat2Z.inj_sub by lia.
        replace (Z.of_nat (String.length (loggedDataCache s)) - Z.of_nat 400 + 399)
          with (Z.of_nat (String.length (loggedDataCache s)) + 399 + (-1) * 400) by lia.
        rewrite Z.div_add by lia. lia.
      * lia.
      * subst s'. cbn [set_cache totalChunks accept_request set_chunkInfo
                       set_currentChunk]. lia.
    + (* the last chunk *)
      apply Nat.ltb_ge in Hlt.
      assert (Hone : m = 0%nat).
      { assert ((Z.of_nat (String.length (loggedDataCache s)) + 399) / 400 < 2).
        { apply Z.div_lt_upper_bound; lia. }
        lia. }
      subst m. change (Z.of_nat 0) with 0. rewrite seqZ_nil by lia.
      cbn [request_chunks snd concat_text fold_right].
      rewrite Nat.min_r by lia. unfold substring_from_to.
      rewrite Nat.sub_0_r, substring_0_all, str_app_nil_r. reflexivity.
Qed.

(** X14.  What holds of a download: when the window fits one batch, its
    serialization is not empty and the announced [totalChunks] covers the
    chunks it needs, requesting exactly those chunks in order delivers the
    serialization of the window, with no record repeated and none left
    out. *)
Lemma download_of_one_batch (env : Env) (st : Store) (s : Session) :
  let s0 := prepareLoggedDataForChunking env st s in
  let text := window_text env st s0 in
  let needed := (Z.of_nat (String.length text) + 399) / 400 in
  logIndex st <= ENTRIES_PER_BATCH ->
  text <> "" ->
  needed <= totalChunks s0 ->
  concat_text (snd (request_chunks env st (seqZ 0 needed) s0)) = text.
Proof.
  cbv zeta. intros Hsmall Htext Hroom.
  unfold ENTRIES_PER_BATCH in Hsmall.
  assert (Hpos : 0 < logIndex st).
  { destruct (Z_lt_le_dec 0 (logIndex st)) as [H | H]; [exact H | exfalso].
    apply Htext. unfold window_text, batch_text.
    rewrite prepare_session_int. cbn [totalEntriesToSend startEntryIndex].
    rewrite Z.min_l by (unfold MAX_LOG_ENTRIES; lia).
    rewrite seqZ_nil by exact H. reflexivity. }
  pose proof (prepare_session env st s ltac:(lia)) as Hs0. cbv zeta in Hs0.
  set (s0 := prepareLoggedDataForChunking env st s) in *.
  assert (Htotal : Z.min (logIndex st) MAX_LOG_ENTRIES = logIndex st)
    by (unfold MAX_LOG_ENTRIES; lia).
  assert (Hstart : Z.max 0 (logIndex st - MAX_LOG_ENTRIES) = 0)
    by (unfold MAX_LOG_ENTRIES; lia).
  assert (Hend : Z.min (0 + ENTRIES_PER_BATCH) (logIndex st) = logIndex st)
    by (unfold ENTRIES_PER_BATCH; lia).
  rewrite Htotal, Hstart, Hend, Z.sub_0_r in Hs0.
  assert (Hwin : window_text env st s0 =
                 concat_text
                   (List.map (fun i => entry_text env st (0 + i))
                      (seqZ 0 (logIndex st)))).
  { unfold window_text, batch_text. rewrite Hs0. reflexivity. }
  rewrite Hwin in *.
  set (text := concat_text _) in *.
  assert (Hlen : String.length text <> 0%nat).
  { destruct text; [contradiction | discriminate]. }
  assert (Hcache : loggedDataCache s0 = text).
  { rewrite Hs0. cbn [loggedDataCache].
    destruct (String.length text =? 0)%nat eqn:H0; [| reflexivity].
    apply Nat.eqb_eq in H0. contradiction. }
  assert (Hdone : totalEntriesToSend s0 <= entriesProcessed s0).
  { rewrite Hs0. cbn [totalEntriesToSend entriesProcessed]. lia. }
  assert (Hnat : 0 <= (Z.of_nat (String.length text) + 399) / 400).
  { apply Z.div_pos; lia. }
  rewrite <- (Z2Nat.id _ Hnat).
  rewrite <- Hcache at 2.
  apply request_chunks_stream.
  - rewrite Hcache. exact Hlen.
  - exact Hdone.
  - rewrite Hcache, Z2Nat.id by exact Hnat. reflexivity.
  - lia.
  - rewrite Z2Nat.id by exact Hnat. lia.
Qed.

(* --------------------------------------------------------------------- *)
(** ** Completeness of a download *)
(* --------------------------------------------------------------------- *)

(** C2 at its failing inputs.  Fourteen records of 20 characters: the
    window serializes to 280 characters, two chunks are announced, chunk 0
    delivers the whole window and empties the cache, and the request for
    chunk 1 finds the cache empty, prepares again and delivers the window a
    second time.  201 records of 21 characters: chunks 0 to 9 deliver the
    first 4000 characters, the request for chunk 10 finds 200 characters in
    the cache with a record still to load, replaces the cache by the next
    batch, and delivers record 200 alone -- the 200 characters are never
    delivered. *)
Theorem download_is_not_the_window :
  let st := store_14 in
  let s0 := fst (onWrite_chunkRequest healthy st (-1) empty_session) in
  let text := window_text healthy st s0 in
  let st' := store_201 in
  let s0' := fst (onWrite_chunkRequest healthy st' (-1) empty_session) in
  let text' := window_text healthy st' s0' in
  (totalChunks s0 = 2 /\
   String.length text = 280%nat /\
   snd (request_chunks healthy st [0; 1] s0) = [text; text] /\
   download healthy st empty_session = text +:+ text /\
   download healthy st empty_session <> text) /\
  (String.length text' = 4221%nat /\
   concat_text (snd (request_chunks healthy st' (seqZ 0 11) s0')) =
     substring_from_to 0 4000 text' +:+ substring_from_to 4200 4221 text' /\
   download healthy st' empty_session <> text').
Proof.
  cbv zeta. split.
  - split; [vm_compute; reflexivity |].
    split; [vm_compute; reflexivity |].
    split; [vm_compute; reflexivity |].
    split; [vm_compute; reflexivity |].
    intros H. apply (f_equal String.length) in H. vm_compute in H. discriminate H.
  - split; [vm_compute; reflexivity |].
    split; [vm_compute; reflexivity |].
    intros H. apply (f_equal String.length) in H. vm_compute in H. discriminate H.
Qed.

(* --------------------------------------------------------------------- *)
(** ** Migration of legacy records *)
(* --------------------------------------------------------------------- *)









(** A turn of the loop at an index that holds nothing migratable only
    counts an error. *)
Lemma migrate_step_settled (env : Env) (st : Store) (m e i : Z) :
  settled (preferences st) i ->
  migrate_step env (st, m, e) i = (st, m, e + 1).
Proof.
  intros [Hl Hd]. unfold migrate_step. unfold has_blob in Hl, Hd.
  destruct (Preferences.getBytes (legacy_key i) LogData.sizeof (preferences st))
    as [bytesRead legacyData].
  cbn [fst] in Hl. rewrite Hl.
  destruct (Preferences.getBytes (data_key i) SensorData.sizeof (preferences st))
    as [legacyBytesRead legacySensorData].
  cbn [fst] in Hd. rewrite Hd. reflexivity.
Qed.

Lemma migrate_loop_settled (env : Env) (idxs : list Z) (st : Store) (m e : Z) :
  (forall i, i ∈ idxs -> settled (preferences st) i) ->
  fold_left (migrate_step env) idxs (st, m, e) = (st, m, e + Z.of_nat (length idxs)).
Proof.
  revert e. induction idxs as [| j idxs IH]; intros e Hall.
  - cbn. f_equal. lia.
  - cbn [fold_left length]. rewrite migrate_step_settled.
    + rewrite IH.
      * f_equal. lia.
      * intros i Hi. apply Hall. apply elem_of_cons. right. exact Hi.
    + apply Hall. apply elem_of_cons. left. reflexivity.
Qed.










Lemma legacy_key_not_index (i : Z) : legacy_key i <> "logIndex".
Proof.
  unfold legacy_key. intros H.
  apply (f_equal (fun s => String.get 3 s)) in H.
  rewrite !str_app_cons in H. cbn in H. discriminate.
Qed.






Lemma healthy_writes_succeed : writes_succeed healthy.
Proof. repeat split. cbn. lia. Qed.







(* --------------------------------------------------------------------- *)
(** ** The battery level *)
(* --------------------------------------------------------------------- *)

Lemma constrain_range (amt low high : Z) :
  low <= high -> low <= constrain amt low high <= high.
Proof.
  intros H. unfold constrain.
  destruct (amt <? low) eqn:H1; [lia |].
  destruct (high <? amt) eqn:H2; [lia |].
  apply Z.ltb_ge in H1, H2. lia.
Qed.

(** Away from the ends of [long] the arithmetic of [map] does not wrap. *)
Lemma getBatteryLevel_eq (x : Z) :
  -10000000 <= x <= 10000000 ->
  getBatteryLevel x = constrain (Z.quot ((x - 300) * 100) 120) 0 100.
Proof.
  intros Hx. unfold getBatteryLevel, map_long.
  change (wrap_int (420 - 300)) with 120. change (wrap_int (100 - 0)) with 100.
  change (120 =? 0) with false. cbv iota.
  rewrite (wrap_int_small (x - 300)) by lia.
  rewrite (wrap_int_small ((x - 300) * 100)) by lia.
  assert (Hq : -10000000 <= Z.quot ((x - 300) * 100) 120 <= 10000000).
  { split.
    - transitivity (Z.quot (-1200000000) 120); [vm_compute; discriminate |].
      apply Z.quot_le_mono; lia.
    - transitivity (Z.quot 1200000000 120); [| vm_compute; discriminate].
      apply Z.quot_le_mono; lia. }
  rewrite Z.add_0_r, wrap_int_small by lia.
  unfold to_uint8. apply Z.mod_small.
  pose proof (constrain_range (Z.quot ((x - 300) * 100) 120) 0 100 ltac:(lia)).
  lia.
Qed.

(** X1.  [getBatteryLevel] returns a percentage for every input: whatever
    [long] the voltage converts to, even one for which the arithmetic of
    [map] wraps around, the result lies between 0 and 100. *)
Theorem getBatteryLevel_range (centivolts : Z) :
  0 <= getBatteryLevel centivolts <= 100.
Proof.
  unfold getBatteryLevel, to_uint8.
  pose proof (constrain_range (map_long centivolts 300 420 0 100) 0 100
                ltac:(lia)) as H.
  rewrite Z.mod_small by lia. exact H.
Qed.

(** X2.  Over the voltages a battery can have (here up to a hundred
    kilovolts either way) the percentage never falls when the voltage
    rises; it is 0 at 3.00 V and below and 100 at 4.20 V and above, and in
    between it is the truncated share of the 1.20 V span. *)
Theorem getBatteryLevel_monotone (x y : Z) :
  -10000000 <= x -> x <= y -> y <= 10000000 ->
  getBatteryLevel x <= getBatteryLevel y /\
  (y <= 300 -> getBatteryLevel y = 0) /\
  (420 <= x -> getBatteryLevel x = 100) /\
  (300 <= x <= 420 -> getBatteryLevel x = (x - 300) * 100 / 120).
Proof.
  intros Hx Hxy Hy.
  rewrite (getBatteryLevel_eq x), (getBatteryLevel_eq y) by lia.
  assert (Hq : Z.quot ((x - 300) * 100) 120 <= Z.quot ((y - 300) * 100) 120).
  { apply Z.quot_le_mono; lia. }
  split; [| split; [| split]].
  - unfold constrain.
    destruct (Z.quot ((x - 300) * 100) 120 <? 0) eqn:A1;
      destruct (Z.quot ((y - 300) * 100) 120 <? 0) eqn:B1;
      destruct (100 <? Z.quot ((x - 300) * 100) 120) eqn:A2;
      destruct (100 <? Z.quot ((y - 300) * 100) 120) eqn:B2;
      rewrite ?Z.ltb_lt, ?Z.ltb_ge in *; lia.
  - intros Hlow.
    assert (Z.quot ((y - 300) * 100) 120 <= 0).
    { transitivity (Z.quot 0 120); [| vm_compute; discriminate].
      apply Z.quot_le_mono; lia. }
    unfold constrain.
    destruct (Z.quot ((y - 300) * 100) 120 <? 0) eqn:B1; [reflexivity |].
    destruct (100 <? Z.quot ((y - 300) * 100) 120) eqn:B2;
      rewrite ?Z.ltb_lt, ?Z.ltb_ge in *; lia.
  - intros Hhigh.
    assert (100 <= Z.quot ((x - 300) * 100) 120).
    { transitivity (Z.quot 12000 120); [vm_compute; discriminate |].
      apply Z.quot_le_mono; lia. }
    unfold constrain.
    destruct (Z.quot ((x - 300) * 100) 120 <? 0) eqn:A1;
      destruct (100 <? Z.quot ((x - 300) * 100) 120) eqn:A2;
      rewrite ?Z.ltb_lt, ?Z.ltb_ge in *; lia.
  - intros Hmid.
    rewrite Z.quot_div_nonneg by lia.
    assert (0 <= (x - 300) * 100 / 120 <= 100).
    { split; [apply Z.div_pos; lia |].
      apply Z.div_le_upper_bound; lia. }
    unfold constrain.
    destruct ((x - 300) * 100 / 120 <? 0) eqn:A1;
      destruct (100 <? (x - 300) * 100 / 120) eqn:A2;
      rewrite ?Z.ltb_lt, ?Z.ltb_ge in *; lia.
Qed.

Lemma getBatteryLevel_monotone_witness :
  getBatteryLevel 360 <= getBatteryLevel 390 /\
  (390 <= 300 -> getBatteryLevel 390 = 0) /\
  (420 <= 360 -> getBatteryLevel 360 = 100) /\
  (300 <= 360 <= 420 -> getBatteryLevel 360 = (360 - 300) * 100 / 120).
Proof. apply (getBatteryLevel_monotone 360 390); lia. Defined.

(* --------------------------------------------------------------------- *)
(** ** Decimal text: [String(n)] and [toInt] *)
(* --------------------------------------------------------------------- *)

(** What holds of each of the ten digit characters. *)
Lemma pretty_N_char_facts (d : N) :
  (d < 10)%N ->
  let c := pretty_N_char d in
  digit_value c = Some (Z.of_N d) /\
  isspace c = false /\
  Ascii.eqb c Ascii.zero = false /\
  Ascii.eqb c "-" = false /\
  Ascii.eqb c "+" = false /\
  Ascii.eqb c "_" = false /\
  Ascii.eqb c "I" = false.
Proof.
  intros Hd.
  assert (d = 0 \/ d = 1 \/ d = 2 \/ d = 3 \/ d = 4 \/ d = 5 \/ d = 6 \/
          d = 7 \/ d = 8 \/ d = 9)%N as H by lia.
  repeat (destruct H as [-> | H]; [vm_compute; repeat split |]).
  subst d. vm_compute. repeat split.
Qed.

(** The digits of a positive number start with a digit. *)
Lemma pretty_N_go_head (x : N) (s : string) :
  (0 < x)%N ->
  exists d rest, (d < 10)%N /\ pretty_N_go x s = String (pretty_N_char d) rest.
Proof.
  revert s. induction (N.lt_wf_0 x) as [x _ IH]; intros s Hx.
  rewrite pretty_N_go_step by exact Hx.
  destruct (N.eq_dec (x `div` 10)%N 0%N) as [H0 | H0].
  - rewrite H0, pretty_N_go_0. exists (x `mod` 10)%N, s. split; [| reflexivity].
    apply N.mod_lt. lia.
  - apply IH; [apply N.div_lt; lia | apply N.neq_0_lt_0; exact H0].
Qed.

(** The text of an integer starts with a digit or with the minus sign. *)
Lemma String_of_head (z : Z) :
  exists c rest,
    String_of z = String c rest /\
    ((exists d, (d < 10)%N /\ c = pretty_N_char d) \/ c = "-"%char).
Proof.
  unfold String_of, pretty, pretty_Z. destruct z as [| p | p].
  - exists "0"%char, "". split; [reflexivity |]. left. exists 0%N. split; [lia | reflexivity].
  - unfold pretty, pretty_positive, pretty, pretty_N.
    destruct (decide (N.pos p = 0%N)) as [H | _]; [discriminate |].
    destruct (pretty_N_go_head (N.pos p) "" ltac:(lia)) as (d & rest & Hd & Heq).
    exists (pretty_N_char d), rest. split; [exact Heq |]. left. exists d. split; [exact Hd | reflexivity].
  - exists "-"%char, (pretty p). split; [reflexivity |]. right. reflexivity.
Qed.

(** Reading back the digits of [x]: the digits shift what was read before
    and add [x]. *)
Lemma digits_value_pretty_N_go (x : N) (s : string) :
  exists k : Z, 0 <= k /\
    forall acc, digits_value acc (pretty_N_go x s) =
                digits_value (acc * 10 ^ k + Z.of_N x) s.
Proof.
  revert s. induction (N.lt_wf_0 x) as [x _ IH]; intros s.
  destruct (N.eq_dec x 0%N) as [-> | Hx].
  - exists 0. split; [lia |]. intros acc. rewrite pretty_N_go_0. f_equal. cbn. lia.
  - rewrite pretty_N_go_step by lia.
    destruct (IH (x `div` 10)%N ltac:(apply N.div_lt; lia)
                (String (pretty_N_char (x `mod` 10)%N) s)) as (k & Hk & Hacc).
    exists (k + 1). split; [lia |]. intros acc. rewrite Hacc.
    cbn [digits_value].
    destruct (pretty_N_char_facts (x `mod` 10)%N ltac:(apply N.mod_lt; lia))
      as (Hd & _).
    rewrite Hd. f_equal.
    rewrite Z.pow_add_r by lia.
    rewrite N2Z.inj_mod, N2Z.inj_div.
    change (Z.of_N 10) with 10. change (10 ^ 1) with 10.
    pose proof (Z.div_mod (Z.of_N x) 10 ltac:(lia)). lia.
Qed.

Lemma constrain_id (v low high : Z) : low <= v <= high -> constrain v low high = v.
Proof.
  intros H. unfold constrain.
  destruct (v <? low) eqn:H1; [apply Z.ltb_lt in H1; lia |].
  destruct (high <? v) eqn:H2; [apply Z.ltb_lt in H2; lia |].
  reflexivity.
Qed.

(** [toInt] reads back what [String(n)] wrote, for every [long]. *)
Lemma toInt_String_of (n : Z) :
  LONG_MIN <= n <= LONG_MAX -> toInt (String_of n) = n.
Proof.
  intros Hn. unfold toInt, String_of, pretty, pretty_Z.
  destruct n as [| p | p].
  - reflexivity.
  - unfold pretty, pretty_positive, pretty, pretty_N.
    destruct (decide (N.pos p = 0%N)) as [H | _]; [discriminate |].
    destruct (pretty_N_go_head (N.pos p) "" ltac:(lia)) as (d & rest & Hd & Heq).
    destruct (pretty_N_char_facts d Hd) as (_ & Hsp & _ & Hminus & Hplus & _).
    cbv zeta in Hsp, Hminus, Hplus.
    assert (Hskip : skip_spaces (pretty_N_go (N.pos p) "") = pretty_N_go (N.pos p) "").
    { rewrite Heq. cbn [skip_spaces]. rewrite Hsp. reflexivity. }
    rewrite Hskip. rewrite Heq at 1. rewrite Hminus, Hplus.
    destruct (digits_value_pretty_N_go (N.pos p) "") as (k & _ & Hacc).
    rewrite Hacc. cbn [digits_value]. rewrite Z.mul_0_l, Z.add_0_l.
    apply constrain_id. exact Hn.
  - cbn [String.app skip_spaces]. 
    change (skip_spaces ("-" +:+ pretty p)) with (String "-"%char (pretty p)).
    change (Ascii.eqb "-" "-") with true. cbv iota.
    unfold pretty, pretty_positive, pretty, pretty_N.
    destruct (decide (N.pos p = 0%N)) as [H | _]; [discriminate |].
    destruct (digits_value_pretty_N_go (N.pos p) "") as (k & _ & Hacc).
    rewrite Hacc. cbn [digits_value]. rewrite Z.mul_0_l, Z.add_0_l.
    apply constrain_id. exact Hn.
Qed.

(** The digits hold no NUL: [c_str] keeps them. *)
Lemma c_str_pretty_N_go (x : N) (s : string) :
  c_str (pretty_N_go x s) = pretty_N_go x (c_str s).
Proof.
  revert s. induction (N.lt_wf_0 x) as [x _ IH]; intros s.
  destruct (N.eq_dec x 0%N) as [-> | Hx].
  - rewrite !pretty_N_go_0. reflexivity.
  - rewrite (pretty_N_go_step x s), (pretty_N_go_step x (c_str s)) by lia.
    rewrite IH by (apply N.div_lt; lia).
    cbn [c_str].
    destruct (pretty_N_char_facts (x `mod` 10)%N ltac:(apply N.mod_lt; lia))
      as (_ & _ & Hnul & _).
    cbv zeta in Hnul. rewrite Hnul. reflexivity.
Qed.

Lemma c_str_String_of (n : Z) : c_str (String_of n) = String_of n.
Proof.
  unfold String_of, pretty, pretty_Z. destruct n as [| p | p].
  - reflexivity.
  - unfold pretty, pretty_positive, pretty, pretty_N.
    destruct (decide (N.pos p = 0%N)); [reflexivity |].
    apply c_str_pretty_N_go.
  - change ("-" +:+ pretty p) with (String "-"%char (pretty p)).
    cbn [c_str]. change (Ascii.eqb "-" Ascii.zero) with false. cbv iota.
    f_equal.
    unfold pretty, pretty_positive, pretty, pretty_N.
    destruct (decide (N.pos p = 0%N)); [reflexivity |].
    apply c_str_pretty_N_go.
Qed.

(* --------------------------------------------------------------------- *)
(** ** The characteristic callbacks *)
(* --------------------------------------------------------------------- *)

(** X3.  A chunk request is written as decimal text, and [onWrite] serves
    the index that text spells: for every [long] [k], a write of
    [String(k)] to the chunk-request characteristic does what the
    chunk-request branch does for [k], and leaves the clock, the store, the
    radio state and the power mode alone. *)
Theorem onWrite_chunk_request_decimal
    (env : Env) (ok : bool) (k : Z) (sk : Sketch) :
  LONG_MIN <= k <= LONG_MAX ->
  let d := device sk in
  let r := onWrite_chunkRequest env (store d) k (session d) in
  onWrite env ok CHUNK_REQUEST_UUID (String_of k) sk =
  (mkSketch (mkDevice (clock d) (store d) (fst r) (radio d)) (lowPowerMode sk),
   snd r).
Proof.
  intros Hk. cbv zeta. unfold onWrite.
  change (String.eqb CHUNK_REQUEST_UUID CHUNK_REQUEST_UUID) with true. cbv iota.
  rewrite c_str_String_of, toInt_String_of by exact Hk.
  destruct (onWrite_chunkRequest env (store (device sk)) k (session (device sk)));
    reflexivity.
Qed.

Lemma onWrite_chunk_request_decimal_witness :
  let sk := mkSketch (mkDevice (synced_clock 1700000000) store_14 empty_session
                        (mkRadio true true true true true false (reading 1 2 3 50)
                           "" 0 0 [])) true in
  let d := device sk in
  let r := onWrite_chunkRequest healthy (store d) (-1) (session d) in
  onWrite healthy true CHUNK_REQUEST_UUID (String_of (-1)) sk =
  (mkSketch (mkDevice (clock d) (store d) (fst r) (radio d)) (lowPowerMode sk),
   snd r).
Proof.
  apply (onWrite_chunk_request_decimal healthy true (-1)).
  unfold LONG_MIN, LONG_MAX. lia.
Defined.

Lemma toInt_not_a_number (s : string) :
  starts_a_number s = false -> toInt s = 0.
Proof.
  unfold starts_a_number, toInt. destruct s as [| c rest]; [reflexivity |].
  intros H.
  apply orb_false_iff in H as [H Hd]. apply orb_false_iff in H as [H Hplus].
  apply orb_false_iff in H as [Hsp Hminus].
  cbn [skip_spaces]. rewrite Hsp, Hminus, Hplus. cbn [digits_value].
  destruct (digit_value c); [discriminate | reflexivity].
Qed.

(** X4.  Text that does not begin like a number reads as 0.  A chunk
    request with such text (letters, the empty text) is therefore served
    exactly as a request for chunk 0, and a time written with such text
    is rejected: the sketch stays as it was. *)
Theorem onWrite_not_a_number
    (env : Env) (ok : bool) (value : string) (sk : Sketch) :
  starts_a_number (c_str value) = false ->
  toInt (c_str value) = 0 /\
  onWrite env ok CHUNK_REQUEST_UUID value sk =
  onWrite env ok CHUNK_REQUEST_UUID "0" sk /\
  onWrite env ok RTC_TIME_UUID value sk = (sk, None).
Proof.
  intros H. pose proof (toInt_not_a_number _ H) as H0.
  split; [exact H0 |]. split.
  - unfold onWrite.
    change (String.eqb CHUNK_REQUEST_UUID CHUNK_REQUEST_UUID) with true. cbv iota.
    rewrite H0. reflexivity.
  - unfold onWrite.
    change (String.eqb RTC_TIME_UUID CHUNK_REQUEST_UUID) with false.
    change (String.eqb RTC_TIME_UUID POWER_MODE_UUID) with false.
    change (String.eqb RTC_TIME_UUID RTC_TIME_UUID) with true. cbv iota.
    rewrite H0. unfold onWrite_rtcTime.
    change (JAN_1_2021 <? 0) with false. cbv iota.
    destruct sk as [[c st s r] lp]. reflexivity.
Qed.

Lemma onWrite_not_a_number_witness :
  let sk := mkSketch (mkDevice (synced_clock 1700000000) store_14 empty_session
                        (mkRadio true true true true true false (reading 1 2 3 50)
                           "" 0 0 [])) true in
  toInt (c_str "next") = 0 /\
  onWrite healthy true CHUNK_REQUEST_UUID "next" sk =
  onWrite healthy true CHUNK_REQUEST_UUID "0" sk /\
  onWrite healthy true RTC_TIME_UUID "next" sk = (sk, None).
Proof.
  apply (onWrite_not_a_number healthy true "next"). reflexivity.
Defined.

(** X5.  A time written over BLE as decimal text, read back and used.  For
    every [long] [t]: when [t] is after 1 January 2021 the write is accepted
    and the clock gate is [SetAccurate].  A first sync (the clock was not
    accurate before) returns after its confirmation flashes, 1200 ms later,
    so the clock then reads [t + 1]; a later sync returns at once and the
    clock reads [t].  A read of the RTC characteristic right after the
    handler returns that reading as text, and a reading logged then passes
    the gate of [logDataToFlash] with that reading as its time stamp.
    Otherwise the write changes nothing. *)
Theorem rtc_write_then_read
    (env env' : Env) (ok : bool) (t : Z) (data : SensorData.t) (sk : Sketch) :
  LONG_MIN <= t <= LONG_MAX ->
  let sk1 := fst (onWrite env ok RTC_TIME_UUID (String_of t) sk) in
  let first := negb (rtcTimeAccurate (clock (device sk))) in
  let t1 := if first then t + 1 else t in
  if JAN_1_2021 <? t
  then getRTCTime (clock (device sk1)) = t1 /\
       uptimeMs (clock (device sk1)) =
         uptimeMs (clock (device sk)) + (if first then 1200 else 0) /\
       snd (onRead env' RTC_TIME_UUID sk1) = Some (String_of t1) /\
       gate_state (clock (device sk1)) = SetAccurate /\
       gated_entry (clock (device sk1)) data =
         Some {| LogData.timestamp := t1;
                 LogData.pm1_0_env := SensorData.pm1_0_env data;
                 LogData.pm2_5_env := SensorData.pm2_5_env data;
                 LogData.pm10_0_env := SensorData.pm10_0_env data;
                 LogData.battery_level := SensorData.battery_level data |}
  else sk1 = sk.
Proof.
  intros Ht. cbv zeta. unfold onWrite.
  change (String.eqb RTC_TIME_UUID CHUNK_REQUEST_UUID) with false.
  change (String.eqb RTC_TIME_UUID POWER_MODE_UUID) with false.
  change (String.eqb RTC_TIME_UUID RTC_TIME_UUID) with true. cbv iota.
  rewrite c_str_String_of, toInt_String_of by exact Ht.
  unfold onWrite_rtcTime. destruct (JAN_1_2021 <? t) eqn:Hlate; cbn [fst].
  - pose proof Hlate as Hlate'. apply Z.ltb_lt in Hlate'.
    unfold JAN_1_2021 in Hlate'. unfold LONG_MAX in Ht.
    cbn [device clock].
    set (t1 := if negb (rtcTimeAccurate (clock (device sk))) then t + 1 else t).
    assert (Hrange : 1609459200 < t1 < 2 ^ 32).
    { subst t1. destruct (rtcTimeAccurate (clock (device sk))); cbn [negb]; lia. }
    assert (Hmod : to_uint32 t1 = t1).
    { unfold to_uint32. apply Z.mod_small. lia. }
    destruct (setRTCTimeFromBLE_flags t (clock (device sk))) as [Hset Hacc].
    assert (Hread : getRTCTime (setRTCTimeFromBLE t (clock (device sk))) = t1).
    { unfold getRTCTime. rewrite Hset. cbn [negb]. subst t1.
      unfold setRTCTimeFromBLE, setRTCTime, tick. cbn [rtcTimeAccurate].
      destruct (rtcTimeAccurate (clock (device sk))); cbn [negb sysTime];
        [reflexivity |].
      change (3 * (200 + 200) / 1000) with 1. reflexivity. }
    split; [exact Hread |]. split; [| split; [| split]].
    + unfold setRTCTimeFromBLE, setRTCTime, tick. cbn [rtcTimeAccurate].
      destruct (rtcTimeAccurate (clock (device sk))); cbn [negb uptimeMs];
        [lia | reflexivity].
    + unfold onRead.
      change (String.eqb RTC_TIME_UUID LOGGED_DATA_UUID) with false.
      change (String.eqb RTC_TIME_UUID CHUNK_INFO_UUID) with false.
      change (String.eqb RTC_TIME_UUID CHUNK_REQUEST_UUID) with false.
      change (String.eqb RTC_TIME_UUID POWER_MODE_UUID) with false.
      change (String.eqb RTC_TIME_UUID RTC_TIME_UUID) with true. cbv iota.
      cbn [snd device clock]. rewrite Hread, Hmod. reflexivity.
    + unfold gate_state. rewrite Hacc. reflexivity.
    + unfold gated_entry. rewrite Hacc, Hread. cbn [negb].
      assert (Hfloor : (t1 <? JAN_1_2021) = false).
      { apply Z.ltb_ge. unfold JAN_1_2021. lia. }
      rewrite Hfloor, Hmod. reflexivity.
  - destruct sk as [[c st s r] lp]. reflexivity.
Qed.

(** A first sync at boot: written 1700000000, read back 1700000001. *)
Lemma rtc_write_then_read_witness :
  let sk := mkSketch (mkDevice (mkClock false false 0 5000) empty_file_store
                        empty_session
                        (mkRadio true true true true true false (reading 1 2 3 50)
                           "" 0 0 [])) true in
  let data := reading 1 2 3 50 in
  let sk1 := fst (onWrite healthy true RTC_TIME_UUID (String_of 1700000000) sk) in
  getRTCTime (clock (device sk1)) = 1700000001 /\
  uptimeMs (clock (device sk1)) = 6200 /\
  snd (onRead healthy RTC_TIME_UUID sk1) = Some "1700000001" /\
  gate_state (clock (device sk1)) = SetAccurate /\
  gated_entry (clock (device sk1)) data =
    Some {| LogData.timestamp := 1700000001;
            LogData.pm1_0_env := 1;
            LogData.pm2_5_env := 2;
            LogData.pm10_0_env := 3;
            LogData.battery_level := 50 |}.
Proof.
  exact (rtc_write_then_read healthy healthy true 1700000000 (reading 1 2 3 50)
           (mkSketch (mkDevice (mkClock false false 0 5000) empty_file_store
                        empty_session
                        (mkRadio true true true true true false (reading 1 2 3 50)
                           "" 0 0 [])) true)
           ltac:(unfold LONG_MIN, LONG_MAX; lia)).
Defined.

Lemma prepare_chunkInfo_current (env : Env) (st : Store) (s : Session) :
  chunkInfo_current (prepareLoggedDataForChunking env st s).
Proof. reflexivity. Qed.

Lemma loadNextBatch_chunkInfo_current (env : Env) (st : Store) (s : Session) :
  chunkInfo_current s -> chunkInfo_current (loadNextBatch env st s).
Proof. intros H. exact H. Qed.

Lemma sendLoggedDataChunk_chunkInfo_current (env : Env) (st : Store) (s : Session) :
  chunkInfo_current s -> chunkInfo_current (fst (sendLoggedDataChunk env st s)).
Proof.
  intros H. unfold sendLoggedDataChunk.
  set (s1 := if (String.length (loggedDataCache s) =? 0)%nat
             then prepareLoggedDataForChunking env st s else s).
  assert (H1 : chunkInfo_current s1).
  { subst s1. destruct (String.length (loggedDataCache s) =? 0)%nat;
      [apply prepare_chunkInfo_current | exact H]. }
  cbv zeta.
  set (s2 := if (Z.of_nat (String.length (loggedDataCache s1)) <? MAX_CHUNK_SIZE)
                && (entriesProcessed s1 <? totalEntriesToSend s1)
             then loadNextBatch env st s1 else s1).
  assert (H2 : chunkInfo_current s2).
  { subst s2.
    destruct ((Z.of_nat (String.length (loggedDataCache s1)) <? MAX_CHUNK_SIZE)
              && (entriesProcessed s1 <? totalEntriesToSend s1));
      [apply loadNextBatch_chunkInfo_current |]; exact H1. }
  destruct (0 <? String.length (loggedDataCache s2))%nat; [exact H2 |].
  destruct (totalEntriesToSend s2 <=? entriesProcessed s2); exact H2.
Qed.

Lemma onWrite_chunkRequest_chunkInfo_current
    (env : Env) (st : Store) (k : Z) (s : Session) :
  chunkInfo_current s ->
  chunkInfo_current (fst (onWrite_chunkRequest env st k s)).
Proof.
  intros H. unfold onWrite_chunkRequest.
  destruct (k =? -1); [apply prepare_chunkInfo_current |].
  destruct ((0 <=? k) && (k <? totalChunks s)); [| exact H].
  pose proof (sendLoggedDataChunk_chunkInfo_current env st (accept_request k s)
                ltac:(reflexivity)) as H1.
  destruct (sendLoggedDataChunk env st (accept_request k s)). exact H1.
Qed.

(** X6.  The chunk-info characteristic never goes stale.  When it holds
    [totalChunks,currentChunk] -- as it does once [initBLE] has set it to
    [0,0] -- every write and every read callback, on any characteristic and
    with any value, leaves it holding the current
    [totalChunks,currentChunk] again. *)
Theorem chunkInfo_stays_current
    (env : Env) (ok : bool) (uuid value : string) (sk : Sketch) :
  chunkInfo_current (session (device sk)) ->
  chunkInfo_current (session (device (fst (onWrite env ok uuid value sk)))) /\
  chunkInfo_current (session (device (fst (onRead env uuid sk)))).
Proof.
  intros H. split.
  - unfold onWrite. destruct (String.eqb uuid CHUNK_REQUEST_UUID).
    + pose proof (onWrite_chunkRequest_chunkInfo_current env
                    (store (device sk)) (toInt (c_str value)) _ H) as H1.
      destruct (onWrite_chunkRequest env (store (device sk))
                  (toInt (c_str value)) (session (device sk))).
      exact H1.
    + destruct (String.eqb uuid POWER_MODE_UUID).
      * destruct (Bool.eqb (String.eqb (c_str value) "1") (lowPowerMode sk));
          exact H.
      * destruct (String.eqb uuid RTC_TIME_UUID); exact H.
  - unfold onRead. destruct (String.eqb uuid LOGGED_DATA_UUID).
    + pose proof (sendLoggedDataChunk_chunkInfo_current env
                    (store (device sk)) _ H) as H1.
      destruct (sendLoggedDataChunk env (store (device sk)) (session (device sk))).
      exact H1.
    + destruct (String.eqb uuid CHUNK_INFO_UUID); [reflexivity |].
      destruct (String.eqb uuid CHUNK_REQUEST_UUID); [exact H |].
      destruct (String.eqb uuid POWER_MODE_UUID); [exact H |].
      destruct (String.eqb uuid RTC_TIME_UUID); exact H.
Qed.

Lemma chunkInfo_stays_current_witness :
  let sk := mkSketch (mkDevice (synced_clock 1700000000) store_14 boot_session
                        (mkRadio true true true true true false (reading 1 2 3 50)
                           "" 0 0 [])) true in
  chunkInfo_current
    (session (device (fst (onWrite healthy true CHUNK_REQUEST_UUID "-1" sk)))) /\
  chunkInfo_current
    (session (device (fst (onRead healthy CHUNK_REQUEST_UUID sk)))).
Proof.
  apply (chunkInfo_stays_current healthy true CHUNK_REQUEST_UUID "-1").
  reflexivity.
Defined.

(** X7.  No write over BLE reaches the log.  Whatever characteristic is
    written and whatever the value, [onWrite] leaves [logIndex], the active
    backend, the file store and [lastError] as they were, and the only key
    of the key/value store it can change is [lowPowerMode]. *)
Theorem onWrite_keeps_the_log
    (env : Env) (ok : bool) (uuid value : string) (sk : Sketch) :
  let st := store (device sk) in
  let st' := store (device (fst (onWrite env ok uuid value sk))) in
  logIndex st' = logIndex st /\
  useLittleFS st' = useLittleFS st /\
  littlefs st' = littlefs st /\
  lastError st' = lastError st /\
  forall key, key <> "lowPowerMode" ->
              preferences st' !! key = preferences st !! key.
Proof.
  cbv zeta. unfold onWrite. destruct (String.eqb uuid CHUNK_REQUEST_UUID).
  - destruct (onWrite_chunkRequest env (store (device sk))
                (toInt (c_str value)) (session (device sk))).
    cbn [fst device store]. repeat split.
  - destruct (String.eqb uuid POWER_MODE_UUID).
    + destruct (Bool.eqb (String.eqb (c_str value) "1") (lowPowerMode sk)).
      * cbn [fst]. repeat split.
      * cbn [fst device store logIndex useLittleFS littlefs lastError
             set_preferences preferences].
        split; [reflexivity |]. split; [reflexivity |].
        split; [reflexivity |]. split; [reflexivity |].
        intros key Hkey. unfold putBool. destruct ok; cbn [snd]; [| reflexivity].
        apply lookup_insert_ne. congruence.
    + destruct (String.eqb uuid RTC_TIME_UUID); cbn [fst device store];
        repeat split.
Qed.

(* --------------------------------------------------------------------- *)
(** ** The keys of the key/value store *)
(* --------------------------------------------------------------------- *)

Lemma str_app_inv_head (a b c : string) : a +:+ b = a +:+ c -> b = c.
Proof.
  induction a as [| x a IH]; [intros H; exact H |].
  rewrite !str_app_cons. intros H. injection H as H. apply IH. exact H.
Qed.

(** The character at which the text of a number starts is none of the
    letters that follow [log] in the other keys. *)
Lemma String_of_head_char (z : Z) (c : ascii) (rest : string) :
  String_of z = String c rest -> c <> "_"%char /\ c <> "I"%char.
Proof.
  intros H. destruct (String_of_head z) as (c' & rest' & Heq & Hc).
  rewrite Heq in H. injection H as -> _.
  destruct Hc as [(d & Hd & ->) | ->].
  - destruct (pretty_N_char_facts d Hd) as (_ & _ & _ & _ & _ & Hu & Hi).
    cbv zeta in Hu, Hi. split; intros E; rewrite E in *; discriminate.
  - split; discriminate.
Qed.

Lemma slot_key_eq_iff (i j : Z) :
  slot_key i = slot_key j <->
  Z.rem i MAX_LOG_ENTRIES = Z.rem j MAX_LOG_ENTRIES.
Proof.
  unfold slot_key. split.
  - intros H. apply str_app_inv_head in H. apply (inj pretty) in H. exact H.
  - intros H. rewrite H. reflexivity.
Qed.

Lemma slot_key_not_index (n : Z) : slot_key n <> "logIndex".
Proof.
  unfold slot_key.
  destruct (String_of_head (Z.rem n MAX_LOG_ENTRIES)) as (c & rest & Heq & _).
  pose proof (String_of_head_char _ _ _ Heq) as [_ Hi].
  rewrite Heq. intros H. apply Hi.
  change "logIndex" with ("log" +:+ "Index") in H.
  apply str_app_inv_head in H. injection H as H _. exact H.
Qed.

Lemma slot_key_not_legacy (n i : Z) : slot_key n <> legacy_key i.
Proof.
  unfold slot_key, legacy_key.
  destruct (String_of_head (Z.rem n MAX_LOG_ENTRIES)) as (c & rest & Heq & _).
  pose proof (String_of_head_char _ _ _ Heq) as [Hu _].
  rewrite Heq. intros H. apply Hu.
  change ("log_" +:+ String_of i) with ("log" +:+ String "_" (String_of i)) in H.
  apply str_app_inv_head in H. injection H as H _. exact H.
Qed.

Lemma slot_key_not_test (n i : Z) : slot_key n <> test_key i.
Proof.
  unfold slot_key, test_key. intros H.
  apply (f_equal (fun s => String.get 0 s)) in H.
  rewrite !str_app_cons in H. cbn in H. discriminate.
Qed.

(** X8.  The keys of the key/value store.  Two logical indices share a
    slot of the circular buffer exactly when they leave the same remainder
    modulo [MAX_LOG_ENTRIES]; and a slot key is never the key of the stored
    index, the power-mode key, a legacy key of either kind or a key of the
    write test, so a record written to its slot overwrites none of
    these. *)
Theorem slot_key_collisions (i j : Z) :
  (slot_key i = slot_key j <->
   Z.rem i MAX_LOG_ENTRIES = Z.rem j MAX_LOG_ENTRIES) /\
  slot_key i <> "logIndex" /\
  slot_key i <> "lowPowerMode" /\
  slot_key i <> legacy_key j /\
  slot_key i <> data_key j /\
  slot_key i <> test_key j.
Proof.
  split; [apply slot_key_eq_iff |].
  split; [apply slot_key_not_index |].
  split; [| split; [apply slot_key_not_legacy |
                    split; [| apply slot_key_not_test]]].
  - unfold slot_key. intros H.
    apply (f_equal (fun s => String.get 2 s)) in H.
    rewrite !str_app_cons in H. cbn in H. discriminate.
  - unfold slot_key, data_key. intros H.
    apply (f_equal (fun s => String.get 0 s)) in H.
    rewrite !str_app_cons in H. cbn in H. discriminate.
Qed.

(* --------------------------------------------------------------------- *)
(** ** An append and what is read back *)
(* --------------------------------------------------------------------- *)

(** Once the buffer has wrapped, the entry that the targeted cleanup
    removes sits in the slot about to be written. *)
Lemma slot_key_wrapped (n : Z) :
  MAX_LOG_ENTRIES <= n -> slot_key (n - MAX_LOG_ENTRIES) = slot_key n.
Proof.
  unfold slot_key, MAX_LOG_ENTRIES. intros H. f_equal. f_equal.
  rewrite !Z.rem_mod_nonneg by lia.
  replace n with (n - 100000 + 1 * 100000) at 2 by lia.
  rewrite Z.mod_add by lia. reflexivity.
Qed.

Lemma targeted_cleanup_preferences (env : Env) (st : Store) :
  fst (targeted_cleanup env st) = st \/
  fst (targeted_cleanup env st) =
    set_preferences (delete (slot_key (logIndex st)) (preferences st)) st.
Proof.
  unfold targeted_cleanup.
  destruct (env_freeEntries env <? 10); [| left; reflexivity].
  destruct (MAX_LOG_ENTRIES <=? logIndex st) eqn:H; [| left; reflexivity].
  right. apply Z.leb_le in H. cbn [andb]. rewrite remove_logged_fst.
  rewrite slot_key_wrapped by exact H. reflexivity.
Qed.

(** X9.  An append on the key/value backend that succeeds at its first
    write touches two keys and no other: the slot of the current index
    then holds the record's image, the key [logIndex] holds the advanced
    index when that write is stored, and every other key -- every other
    record -- is as before; [logIndex] has advanced by one. *)
Theorem logDataToFlash_first_try
    (env : Env) (c : Clock) (data : SensorData.t) (st : Store) (e : LogData.t) :
  gated_entry c data = Some e ->
  useLittleFS st = false ->
  env_putBytes_ok env 0 = true ->
  let st' := logDataToFlash env c data st in
  logIndex st' = wrap_int (logIndex st + 1) /\
  useLittleFS st' = false /\
  littlefs st' = littlefs st /\
  lastError st' = lastError st /\
  preferences st' !! slot_key (logIndex st) =
    Some (PBytes (LogData.image (env_pad env) e)) /\
  preferences st' !! "logIndex" =
    (if env_putInt_ok env then Some (PInt (wrap_int (logIndex st + 1)))
     else preferences st !! "logIndex") /\
  forall key, key <> slot_key (logIndex st) -> key <> "logIndex" ->
              preferences st' !! key = preferences st !! key.
Proof.
  intros Hgate Hkv Hok. cbv zeta.
  unfold logDataToFlash, logDataToFlash_calls. rewrite Hgate, Hkv.
  pose proof (logToPreferences_eq env e st) as Heq. cbv zeta in Heq.
  rewrite Heq, Hok. clear Heq.
  rewrite putBytes_logged_eq, persist_index_eq. cbn [snd fst].
  unfold Preferences.putBytes, Preferences.putInt. cbn [snd].
  pose proof (slot_key_not_index (logIndex st)) as Hne.
  destruct (targeted_cleanup_preferences env st) as [-> | ->];
    destruct st as [idx fsOn p fs err];
    cbn [logIndex useLittleFS littlefs lastError preferences set_logIndex
         set_preferences] in *;
    (split; [reflexivity |]); (split; [exact Hkv |]);
    (split; [reflexivity |]); (split; [reflexivity |]);
    destruct (env_putInt_ok env); cbn [snd];
    repeat split;
    try (rewrite lookup_insert_ne by congruence);
    try (apply lookup_insert_eq);
    try (intros key Hk1 Hk2);
    rewrite ?lookup_insert_ne by congruence;
    rewrite ?lookup_insert_eq;
    rewrite ?lookup_delete_ne by congruence;
    try reflexivity.
  all: rewrite lookup_insert_ne by congruence; apply lookup_delete_ne; congruence.
Qed.

Lemma logDataToFlash_first_try_witness :
  let env := healthy in
  let c := synced_clock 1700000000 in
  let data := reading 1 2 3 50 in
  let st := empty_key_store in
  let e := LogData.mk 1700000000 1 2 3 50 in
  let st' := logDataToFlash env c data st in
  logIndex st' = wrap_int (logIndex st + 1) /\
  useLittleFS st' = false /\
  littlefs st' = littlefs st /\
  lastError st' = lastError st /\
  preferences st' !! slot_key (logIndex st) =
    Some (PBytes (LogData.image (env_pad env) e)) /\
  preferences st' !! "logIndex" =
    (if env_putInt_ok env then Some (PInt (wrap_int (logIndex st + 1)))
     else preferences st !! "logIndex") /\
  forall key, key <> slot_key (logIndex st) -> key <> "logIndex" ->
              preferences st' !! key = preferences st !! key.
Proof.
  apply (logDataToFlash_first_try healthy (synced_clock 1700000000)
           (reading 1 2 3 50) empty_key_store (LogData.mk 1700000000 1 2 3 50));
    reflexivity.
Defined.

(** An append on the key/value backend one of whose two writes is stored:
    the index advances and the slot holds the record's image. *)
Lemma logToPreferences_stored (env : Env) (e : LogData.t) (st : Store) :
  env_putBytes_ok env 0 || env_putBytes_ok env 1 = true ->
  let st' := fst (logToPreferences env e st) in
  logIndex st' = wrap_int (logIndex st + 1) /\
  useLittleFS st' = useLittleFS st /\
  preferences st' !! slot_key (logIndex st) =
    Some (PBytes (LogData.image (env_pad env) e)).
Proof.
  intros Hok. cbv zeta.
  pose proof (logToPreferences_eq env e st) as Heq. cbv zeta in Heq.
  rewrite Heq. clear Heq.
  pose proof (slot_key_not_index (logIndex st)) as Hne.
  pose proof (targeted_cleanup_spec env st) as (T1 & T2 & _). cbv zeta in T1, T2.
  assert (Hput : forall ok v (p : Preferences.t),
             snd (Preferences.putInt ok "logIndex" v
                    (<[slot_key (logIndex st) :=
                         PBytes (LogData.image (env_pad env) e)]> p))
               !! slot_key (logIndex st) =
             Some (PBytes (LogData.image (env_pad env) e))).
  { intros ok v p. unfold Preferences.putInt. destruct ok; cbn [snd].
    - rewrite lookup_insert_ne by congruence. apply lookup_insert_eq.
    - apply lookup_insert_eq. }
  destruct (env_putBytes_ok env 0) eqn:H0.
  - rewrite persist_index_eq, putBytes_logged_eq. cbn [fst snd].
    unfold Preferences.putBytes at 1 2 3. cbn [snd].
    cbn [logIndex useLittleFS preferences set_logIndex set_preferences].
    rewrite T1, T2. split; [reflexivity |]. split; [reflexivity |]. apply Hput.
  - cbn [orb] in Hok. rewrite Hok.
    rewrite persist_index_eq, !putBytes_logged_eq. cbn [fst snd].
    unfold Preferences.putBytes. cbn [snd].
    cbn [logIndex useLittleFS preferences set_logIndex set_preferences].
    match goal with
    | |- context [emergency_cleanup st ?a] =>
        pose proof (emergency_cleanup_spec st a) as (E1 & E2 & _)
    end.
    cbv zeta in E1, E2.
    cbn [fst logIndex useLittleFS set_lastError set_preferences] in E1, E2.
    rewrite E1, E2, T1, T2. split; [reflexivity |]. split; [reflexivity |].
    apply Hput.
Qed.

(** X10.  A record appended on the key/value backend is what the transfer
    loads back.  When the gate is open, the record's fields are in their
    ranges and one of the two writes of [logDataToFlash] is stored, the
    index advances by one and [loadNextBatch] finds at the old index
    exactly the record that was built, and puts its text into the
    stream. *)
Theorem logDataToFlash_then_load_entry
    (env env' : Env) (c : Clock) (data : SensorData.t) (st : Store)
    (e : LogData.t) :
  gated_entry c data = Some e ->
  LogData.in_range e ->
  useLittleFS st = false ->
  env_putBytes_ok env 0 || env_putBytes_ok env 1 = true ->
  let st' := logDataToFlash env c data st in
  logIndex st' = wrap_int (logIndex st + 1) /\
  load_entry env' st' (logIndex st) = Some e /\
  entry_text env' st' (logIndex st) = LogData.serialize e.
Proof.
  intros Hgate Hrange Hkv Hok. cbv zeta.
  unfold logDataToFlash, logDataToFlash_calls. rewrite Hgate, Hkv.
  pose proof (logToPreferences_stored env e st Hok) as (H1 & H2 & H3).
  cbv zeta in H1, H2, H3.
  set (st' := fst (logToPreferences env e st)) in *.
  assert (Hload : load_entry env' st' (logIndex st) = Some e).
  { unfold load_entry. rewrite H2, Hkv. unfold Preferences.getBytes.
    rewrite H3. rewrite LogData_image_length.
    change (LogData.sizeof <=? LogData.sizeof)%nat with true. cbv iota.
    change (LogData.sizeof =? LogData.sizeof)%nat with true. cbv iota.
    rewrite LogData_of_image_image by exact Hrange. reflexivity. }
  split; [exact H1 |]. split; [exact Hload |].
  unfold entry_text. rewrite Hload. reflexivity.
Qed.

Lemma logDataToFlash_then_load_entry_witness :
  let env := healthy in
  let c := synced_clock 1700000000 in
  let data := reading 1 2 3 50 in
  let st := empty_key_store in
  let e := LogData.mk 1700000000 1 2 3 50 in
  let st' := logDataToFlash env c data st in
  logIndex st' = wrap_int (logIndex st + 1) /\
  load_entry healthy st' (logIndex st) = Some e /\
  entry_text healthy st' (logIndex st) = LogData.serialize e.
Proof.
  apply (logDataToFlash_then_load_entry healthy healthy (synced_clock 1700000000)
           (reading 1 2 3 50) empty_key_store (LogData.mk 1700000000 1 2 3 50));
    try reflexivity.
  unfold LogData.in_range. cbn. lia.
Defined.

(** X11.  A record appended on the file backend is what the transfer loads
    back.  When the gate is open, the record's fields are in their ranges
    with a time stamp that is not zero, the directory is there or can be
    made, the file opens and the write is complete, the index advances by
    one, the file at the path of the old index holds the record's image, and
    [loadNextBatch] finds at the old index exactly the record that was
    built. *)
Theorem logDataToFlash_file_then_load_entry
    (env env' : Env) (c : Clock) (data : SensorData.t) (st : Store)
    (e : LogData.t) :
  gated_entry c data = Some e ->
  LogData.in_range e ->
  0 < LogData.timestamp e ->
  useLittleFS st = true ->
  fst (ensure_dir env (getLittleFSLogDir (logIndex st)) (littlefs st)) = true ->
  env_open_w env (getLittleFSLogPath (logIndex st)) = true ->
  (LogData.sizeof <= env_written env (getLittleFSLogPath (logIndex st)))%nat ->
  env_open_r env' (getLittleFSLogPath (logIndex st)) = true ->
  let st' := logDataToFlash env c data st in
  logIndex st' = wrap_int (logIndex st + 1) /\
  fs_files (littlefs st') !! getLittleFSLogPath (logIndex st) =
    Some (LogData.image (env_pad env) e) /\
  load_entry env' st' (logIndex st) = Some e.
Proof.
  intros Hgate Hrange Hpos Hfile Hdir Hopen Hwritten Hread. cbv zeta.
  unfold logDataToFlash, logDataToFlash_calls. rewrite Hgate, Hfile.
  pose proof (saveLogToLittleFS_readLogFromLittleFS env env' e st Hrange Hdir
                Hopen Hwritten Hread) as (H1 & H2 & H3).
  cbv zeta in H1, H2, H3.
  pose proof (saveLogToLittleFS_frame env e st) as Hframe.
  set (st' := fst (saveLogToLittleFS env e st)) in *.
  split; [exact H1 |]. split; [exact H2 |].
  unfold load_entry.
  assert (Hon : useLittleFS st' = true).
  { subst st'. unfold saveLogToLittleFS.
    destruct (ensure_dir env (getLittleFSLogDir (logIndex st)) (littlefs st))
      as [dir_ok fs1].
    destruct (negb dir_ok); [exact Hfile |].
    destruct (negb (env_open_w env (getLittleFSLogPath (logIndex st))));
      [exact Hfile |].
    destruct (write_file env (getLittleFSLogPath (logIndex st))
                (LogData.image (env_pad env) e) fs1) as [bytesWritten fs2].
    destruct (negb (bytesWritten =? LogData.sizeof)%nat); exact Hfile. }
  rewrite Hon, H3.
  apply Z.ltb_lt in Hpos. rewrite Hpos. reflexivity.
Qed.

Lemma logDataToFlash_file_then_load_entry_witness :
  let env := healthy in
  let c := synced_clock 1700000000 in
  let data := reading 1 2 3 50 in
  let st := empty_file_store in
  let e := LogData.mk 1700000000 1 2 3 50 in
  let st' := logDataToFlash env c data st in
  logIndex st' = wrap_int (logIndex st + 1) /\
  fs_files (littlefs st') !! getLittleFSLogPath (logIndex st) =
    Some (LogData.image (env_pad env) e) /\
  load_entry healthy st' (logIndex st) = Some e.
Proof.
  apply (logDataToFlash_file_then_load_entry healthy healthy
           (synced_clock 1700000000) (reading 1 2 3 50) empty_file_store
           (LogData.mk 1700000000 1 2 3 50));
    try reflexivity.
  all: first [ unfold LogData.in_range; cbn; lia
             | cbn; unfold LogData.sizeof; lia ].
Defined.

(* --------------------------------------------------------------------- *)
(** ** The size of a payload and the download of an empty log *)
(* --------------------------------------------------------------------- *)

(** X12.  Every payload fits the chunk budget and none is empty.  In every
    state of the session and of the store, and whatever the hardware
    answers, the text that [sendLoggedDataChunk] sets on the logged-data
    characteristic has between 1 and [MAX_CHUNK_SIZE] characters. *)
Theorem sendLoggedDataChunk_payload_size (env : Env) (st : Store) (s : Session) :
  (1 <= String.length (snd (sendLoggedDataChunk env st s)) <= 400)%nat.
Proof.
  pose proof (sendLoggedDataChunk_never_empty env st s) as Hne.
  assert (Hlow : (1 <= String.length (snd (sendLoggedDataChunk env st s)))%nat).
  { destruct (snd (sendLoggedDataChunk env st s)); [contradiction |].
    cbn [String.length]. lia. }
  split; [exact Hlow |]. clear Hne Hlow.
  unfold sendLoggedDataChunk. cbv zeta.
  match goal with
  | |- context [if (0 <? String.length (loggedDataCache ?s2))%nat then _ else _] =>
      set (cache := loggedDataCache s2); destruct (0 <? String.length cache)%nat
  end.
  - cbn [snd]. unfold substring_from_to. rewrite Nat.sub_0_r, substring_0_length.
    unfold MAX_CHUNK_SIZE. lia.
  - match goal with
    | |- context [if ?b then _ else _] => destruct b
    end; cbn [snd String.length no_data]; lia.
Qed.

(** With the index at 0 or below the preparation finds nothing to load:
    the cache holds the placeholder text and the progress is at its end. *)
Lemma prepare_no_data (env : Env) (st : Store) (s : Session) :
  logIndex st <= 0 ->
  let s0 := prepareLoggedDataForChunking env st s in
  loggedDataCache s0 = no_data /\
  totalEntriesToSend s0 = logIndex st /\
  entriesProcessed s0 = logIndex st /\
  1 <= totalChunks s0.
Proof.
  intros Hidx. cbv zeta. rewrite prepare_session_int.
  cbn [loggedDataCache totalEntriesToSend entriesProcessed totalChunks].
  assert (Htotal : Z.min (logIndex st) MAX_LOG_ENTRIES = logIndex st)
    by (unfold MAX_LOG_ENTRIES; lia).
  assert (Hend : Z.min (0 + ENTRIES_PER_BATCH) (logIndex st) = logIndex st)
    by (unfold ENTRIES_PER_BATCH; lia).
  rewrite Htotal, Hend. rewrite seqZ_nil by lia.
  split; [reflexivity |]. split; [reflexivity |]. split; [reflexivity |]. lia.
Qed.

(** While the product of the estimate does not wrap, one chunk is
    announced. *)
Lemma prepare_no_data_one_chunk (env : Env) (st : Store) (s : Session) :
  -71582788 <= logIndex st <= 0 ->
  totalChunks (prepareLoggedDataForChunking env st s) = 1.
Proof.
  intros Hidx. rewrite prepare_session by lia. cbn [totalChunks].
  rewrite Z.min_l by (unfold MAX_LOG_ENTRIES; lia).
  apply Z.max_l. unfold MAX_CHUNK_SIZE.
  transitivity (Z.quot 399 400); [| vm_compute; discriminate].
  apply Z.quot_le_mono; lia.
Qed.

Lemma prepare_nonempty (env : Env) (st : Store) (s : Session) :
  (String.length (loggedDataCache (prepareLoggedDataForChunking env st s)) =? 0)%nat
  = false.
Proof.
  apply Nat.eqb_neq. unfold prepareLoggedDataForChunking, set_chunkInfo.
  cbn [loggedDataCache]. apply loadNextBatch_nonempty.
Qed.

(** On an empty cache [sendLoggedDataChunk] prepares first and goes on
    from the prepared session. *)
Lemma send_empty_cache (env : Env) (st : Store) (s : Session) :
  loggedDataCache s = "" ->
  sendLoggedDataChunk env st s =
  sendLoggedDataChunk env st (prepareLoggedDataForChunking env st s).
Proof.
  intros Hempty.
  unfold sendLoggedDataChunk. rewrite prepare_nonempty, Hempty.
  generalize (prepareLoggedDataForChunking env st s). intros P.
  reflexivity.
Qed.

Lemma totalChunks_set_cache (cache : string) (s : Session) :
  totalChunks (set_cache cache s) = totalChunks s.
Proof. reflexivity. Qed.

(** A cache that holds the placeholder text with nothing left to load is
    sent as it is. *)
Lemma send_placeholder (env : Env) (st : Store) (s : Session) :
  loggedDataCache s = no_data ->
  totalEntriesToSend s <= entriesProcessed s ->
  sendLoggedDataChunk env st s = (set_cache "" s, no_data).
Proof.
  intros Hcache Hdone.
  rewrite (sendLoggedDataChunk_front env st s);
    [| rewrite Hcache; discriminate | right; exact Hdone].
  rewrite Hcache. reflexivity.
Qed.

(** The sessions of a download of an empty log: the cache holds the
    placeholder text with nothing left to load, or is empty. *)
Lemma send_no_data (env : Env) (st : Store) (s : Session) :
  logIndex st <= 0 ->
  loggedDataCache s = "" \/
  (loggedDataCache s = no_data /\ totalEntriesToSend s <= entriesProcessed s) ->
  snd (sendLoggedDataChunk env st s) = no_data /\
  loggedDataCache (fst (sendLoggedDataChunk env st s)) = "" /\
  (loggedDataCache s <> "" ->
   totalChunks (fst (sendLoggedDataChunk env st s)) = totalChunks s) /\
  (loggedDataCache s = "" ->
   totalChunks (fst (sendLoggedDataChunk env st s)) =
   totalChunks (prepareLoggedDataForChunking env st s)).
Proof.
  intros Hidx [Hempty | [Hcache Hdone]].
  - destruct (prepare_no_data env st s Hidx) as (Pc & Pt & Pe & _).
    cbv zeta in Pc, Pt, Pe.
    rewrite (send_empty_cache env st s Hempty).
    rewrite (send_placeholder env st _ Pc ltac:(rewrite Pt, Pe; lia)).
    cbn [fst snd]. rewrite totalChunks_set_cache, Hempty.
    split; [reflexivity |]. split; [reflexivity |].
    split; [intros H; contradiction | intros _; reflexivity].
  - rewrite (send_placeholder env st s Hcache Hdone). cbn [fst snd].
    rewrite totalChunks_set_cache, Hcache.
    split; [reflexivity |]. split; [reflexivity |].
    split; [intros _; reflexivity | intros H; discriminate].
Qed.

Lemma request_chunks_no_data (env : Env) (st : Store) (s0 : Session) (ks : list Z) :
  logIndex st <= 0 ->
  forall s : Session,
    totalChunks s = totalChunks (prepareLoggedDataForChunking env st s0) ->
    loggedDataCache s = "" \/
    (loggedDataCache s = no_data /\ totalEntriesToSend s <= entriesProcessed s) ->
    Forall (fun k => 0 <= k < totalChunks s) ks ->
    snd (request_chunks env st ks s) = List.map (fun _ => no_data) ks.
Proof.
  intros Hidx. induction ks as [| k ks IH]; intros s Htc Hinv Hall; [reflexivity |].
  apply Forall_cons in Hall as [Hk Hall].
  cbn [request_chunks List.map].
  rewrite (onWrite_chunkRequest_accepted env st k s Hk).
  pose proof (sendLoggedDataChunk_accept_request env st k s) as Hacc.
  cbv zeta in Hacc. destruct Hacc as (Hpay & Hcache & _ & _ & _ & Htc' & _).
  destruct (send_no_data env st s Hidx Hinv) as (Spay & Scache & Skeep & Sprep).
  set (s1 := fst (sendLoggedDataChunk env st (accept_request k s))) in *.
  assert (Htc1 : totalChunks s1 = totalChunks s).
  { rewrite Htc'. destruct (loggedDataCache s) eqn:Hc.
    - rewrite (Sprep eq_refl), Htc.
      rewrite (prepare_fresh env st s s0). reflexivity.
    - apply Skeep. discriminate. }
  specialize (IH s1 ltac:(rewrite Htc1; exact Htc)
                 ltac:(left; rewrite Hcache; exact Scache)
                 ltac:(rewrite Htc1; exact Hall)).
  destruct (request_chunks env st ks s1) as [s2 payloads] eqn:Hrest.
  cbn [snd] in IH |- *. rewrite Hpay, Spay, IH. reflexivity.
Qed.

(** While one chunk is announced, that chunk carries the placeholder
    text. *)
Lemma download_no_data (env : Env) (st : Store) (s : Session) :
  -71582788 <= logIndex st <= 0 -> download env st s = no_data.
Proof.
  intros Hidx.
  destruct (prepare_no_data env st s ltac:(lia)) as (Pc & Pt & Pe & _).
  cbv zeta in Pc, Pt, Pe.
  pose proof (prepare_no_data_one_chunk env st s Hidx) as Hone.
  unfold download.
  change (fst (onWrite_chunkRequest env st (-1) s))
    with (prepareLoggedDataForChunking env st s).
  rewrite (request_chunks_no_data env st s (seqZ 0 _) ltac:(lia));
    [rewrite Hone; reflexivity | reflexivity | | ].
  - right. split; [exact Pc | rewrite Pt, Pe; lia].
  - rewrite Hone. apply Forall_seqZ. intros k Hk. lia.
Qed.

(** X13.  The download of an empty log.  With no record logged yet
    ([logIndex] at 0, or below) the preparation puts the placeholder text
    [No data available] into the cache, and every chunk the client then
    requests, whatever the indices and their order, carries exactly that
    text where the client expects records.  While the product of the
    estimate does not wrap ([logIndex] down to -71582788) one chunk is
    announced, and the download -- the prepare request followed by the
    request for that chunk -- delivers the placeholder text once. *)
Theorem download_of_empty_log (env : Env) (st : Store) (s : Session) :
  logIndex st <= 0 ->
  let s0 := prepareLoggedDataForChunking env st s in
  totalEntriesToSend s0 = logIndex st /\
  loggedDataCache s0 = no_data /\
  1 <= totalChunks s0 /\
  (forall ks,
     Forall (fun k => 0 <= k < totalChunks s0) ks ->
     snd (request_chunks env st ks s0) = List.map (fun _ => no_data) ks) /\
  (-71582788 <= logIndex st ->
   totalChunks s0 = 1 /\ download env st s = no_data).
Proof.
  intros Hidx. cbv zeta.
  destruct (prepare_no_data env st s Hidx) as (Pc & Pt & Pe & Pn).
  cbv zeta in Pc, Pt, Pe, Pn.
  assert (Hall : forall ks,
            Forall (fun k => 0 <= k < totalChunks (prepareLoggedDataForChunking env st s)) ks ->
            snd (request_chunks env st ks (prepareLoggedDataForChunking env st s)) =
            List.map (fun _ => no_data) ks).
  { intros ks Hks.
    apply (request_chunks_no_data env st s ks Hidx); [reflexivity | | exact Hks].
    right. split; [exact Pc | rewrite Pt, Pe; lia]. }
  split; [exact Pt |]. split; [exact Pc |]. split; [exact Pn |].
  split; [exact Hall |].
  intros Hlow.
  pose proof (prepare_no_data_one_chunk env st s ltac:(lia)) as Hone.
  split; [exact Hone |].
  apply download_no_data. lia.
Qed.

Lemma download_of_empty_log_witness :
  let s0 := prepareLoggedDataForChunking healthy empty_key_store empty_session in
  totalChunks s0 = 1 /\
  loggedDataCache s0 = no_data /\
  snd (request_chunks healthy empty_key_store [0; 0] s0) = [no_data; no_data] /\
  download healthy empty_key_store empty_session = no_data.
Proof.
  cbv zeta.
  destruct (download_of_empty_log healthy empty_key_store empty_session
              ltac:(cbn; lia))
    as (_ & Hcache & _ & Hall & Hone).
  cbv zeta in Hcache, Hall, Hone.
  destruct (Hone ltac:(cbn; lia)) as [Htc Hdl].
  split; [exact Htc |]. split; [exact Hcache |]. split; [| exact Hdl].
  apply (Hall [0; 0]). rewrite Htc. repeat constructor; lia.
Defined.

(** A download that fits one batch, at fourteen records. *)
Lemma download_of_one_batch_witness :
  let s0 := prepareLoggedDataForChunking healthy store_14 empty_session in
  let text := window_text healthy store_14 s0 in
  let needed := (Z.of_nat (String.length text) + 399) / 400 in
  concat_text (snd (request_chunks healthy store_14 (seqZ 0 needed) s0)) = text.
Proof.
  apply (download_of_one_batch healthy store_14 empty_session).
  - vm_compute. discriminate.
  - vm_compute. discriminate.
  - vm_compute. discriminate.
Defined.

(* --------------------------------------------------------------------- *)
(** ** The radio task besides the push *)
(* --------------------------------------------------------------------- *)

(** X15.  What a turn of the loop of [BLETask] does to the connection
    state.  It never changes [deviceConnected] (only the callbacks of the
    stack do) nor the shared reading; once BLE is initialised,
    [oldDeviceConnected] has caught up with [deviceConnected] at the end of
    the turn.  The connection check runs when at least
    [CONNECTION_CHECK_INTERVAL] has passed since the last one, and then
    [lastConnectionCheck] takes the time the turn was entered at.  The
    advertising is restarted only in a turn whose check runs and finds the
    server created, no client connected and at least
    [ADVERTISING_RESTART_INTERVAL] passed since the last start (the
    differences being taken as [unsigned long]); [lastAdvertisingStart]
    then takes what [millis()] reads after the 100 ms between stop and start
    -- unless one of them throws, when it keeps its value as in every other
    turn. *)
Theorem BLETask_iteration_connection (env : Env) (now : Z) (r : Radio) :
  let r' := BLETask_iteration env now r in
  let checked :=
    bleInitialized r
    && (CONNECTION_CHECK_INTERVAL <=? to_uint32 (now - lastConnectionCheck r)) in
  let restarted :=
    checked && serverCreated r && negb (deviceConnected r)
    && (ADVERTISING_RESTART_INTERVAL <=? to_uint32 (now - lastAdvertisingStart r))
    && env_advertising_ok env in
  deviceConnected r' = deviceConnected r /\
  sharedSensorData r' = sharedSensorData r /\
  oldDeviceConnected r' =
    (if bleInitialized r then deviceConnected r else oldDeviceConnected r) /\
  lastConnectionCheck r' = (if checked then now else lastConnectionCheck r) /\
  lastAdvertisingStart r' =
    (if restarted then to_uint32 (now + 100) else lastAdvertisingStart r).
Proof.
  cbv zeta. unfold BLETask_iteration.
  destruct (bleInitialized r) eqn:Hinit; [| repeat split].
  cbn [andb].
  assert (Hcheck :
    lastConnectionCheck (checkBLEConnection env now r) =
      (if CONNECTION_CHECK_INTERVAL <=? to_uint32 (now - lastConnectionCheck r)
       then now else lastConnectionCheck r) /\
    lastAdvertisingStart (checkBLEConnection env now r) =
      (if (CONNECTION_CHECK_INTERVAL <=? to_uint32 (now - lastConnectionCheck r))
          && serverCreated r && negb (deviceConnected r)
          && (ADVERTISING_RESTART_INTERVAL <=? to_uint32 (now - lastAdvertisingStart r))
          && env_advertising_ok env
       then to_uint32 (now + 100) else lastAdvertisingStart r)).
  { unfold checkBLEConnection, restartAdvertising.
    destruct (CONNECTION_CHECK_INTERVAL <=? to_uint32 (now - lastConnectionCheck r));
      [| split; reflexivity].
    cbn [deviceConnected set_lastConnectionCheck lastAdvertisingStart
         bleInitialized serverCreated andb].
    rewrite Hinit. cbn [negb orb].
    destruct (deviceConnected r), (serverCreated r),
      (ADVERTISING_RESTART_INTERVAL <=? to_uint32 (now - lastAdvertisingStart r)),
      (env_advertising_ok env); split; reflexivity. }
  destruct Hcheck as [Hlcc Hlas].
  pose proof (checkBLEConnection_flags env now r) as (F1 & F2 & F3 & F4 & F5 & F6 & F7).
  cbv zeta in F1, F2, F3, F4, F5, F6, F7.
  set (r1 := checkBLEConnection env now r) in *.
  assert (Hpush :
    forall r2 : Radio,
      r2 = (if deviceConnected r1 && serverCreated r1 && newDataAvailable r1
            then set_newDataAvailable false (safeBLEUpdate env r1) else r1) ->
      bleInitialized r2 = true /\
      deviceConnected r2 = deviceConnected r /\
      sharedSensorData r2 = sharedSensorData r /\
      lastConnectionCheck r2 = lastConnectionCheck r1 /\
      lastAdvertisingStart r2 = lastAdvertisingStart r1).
  { intros r2 ->.
    destruct (deviceConnected r1 && serverCreated r1 && newDataAvailable r1).
    - unfold safeBLEUpdate.
      destruct (negb (bleInitialized r1) || negb (deviceConnected r1)
                || negb (characteristicsCreated r1));
        [| destruct (env_mutex env)];
        cbn [set_newDataAvailable bleInitialized deviceConnected
             sharedSensorData lastConnectionCheck lastAdvertisingStart];
        repeat split; congruence.
    - repeat split; congruence. }
  match goal with
  | |- context [if deviceConnected r1 && serverCreated r1 && newDataAvailable r1
                then ?a else ?b] =>
      set (r2 := if deviceConnected r1 && serverCreated r1 && newDataAvailable r1
                 then a else b) in *
  end.
  destruct (Hpush r2 eq_refl) as (P1 & P2 & P3 & P4 & P5).
  rewrite <- Hlcc, <- Hlas, <- P4, <- P5.
  rewrite P1. rewrite P2.
  destruct (deviceConnected r) eqn:Hconn, (oldDeviceConnected r2) eqn:Hold;
    cbn [andb negb deviceConnected oldDeviceConnected set_oldDeviceConnected
         sharedSensorData lastConnectionCheck lastAdvertisingStart];
    rewrite ?P2, ?Hold;
    cbn [andb negb deviceConnected oldDeviceConnected set_oldDeviceConnected
         sharedSensorData lastConnectionCheck lastAdvertisingStart];
    rewrite ?P2, ?P3;
    (split; [reflexivity |]); (split; [reflexivity |]);
    (split; [try reflexivity; try exact Hold |]);
    split; reflexivity.
Qed.

(** X16.  The latest reading wins.  When the sensor task publishes two
    readings before the radio task gets its turn, the turn that follows
    (BLE up, a client connected, the mutex free) notifies the second
    reading and nothing of the first, and clears [newDataAvailable]. *)
Theorem latest_reading_is_pushed
    (env1 env2 env3 : Env) (now : Z) (first second : SensorData.t) (r : Radio) :
  env_mutex env2 = true ->
  env_mutex env3 = true ->
  bleInitialized r = true ->
  deviceConnected r = true ->
  serverCreated r = true ->
  characteristicsCreated r = true ->
  let r' :=
    BLETask_iteration env3 now
      (updateSharedData env2 second (updateSharedData env1 first r)) in
  notified r' =
    notified r ++ [NotifyLive (liveData_text second);
                   NotifyBattery (SensorData.battery_level second)] /\
  liveDataValue r' = liveData_text second /\
  newDataAvailable r' = false.
Proof.
  intros M2 M3 Hinit Hconn Hserver Hchars. cbv zeta.
  destruct r as [bi dc odc sc cc nda ssd ldv lcc las ntf].
  cbn [bleInitialized deviceConnected serverCreated characteristicsCreated
       notified] in *.
  subst bi dc sc cc.
  unfold updateSharedData. rewrite M2.
  destruct (env_mutex env1);
    cbn [bleInitialized deviceConnected oldDeviceConnected serverCreated
         characteristicsCreated newDataAvailable sharedSensorData liveDataValue
         lastConnectionCheck lastAdvertisingStart notified];
    unfold BLETask_iteration, checkBLEConnection, restartAdvertising;
    cbn [bleInitialized deviceConnected oldDeviceConnected serverCreated
         characteristicsCreated newDataAvailable sharedSensorData liveDataValue
         lastConnectionCheck lastAdvertisingStart notified];
    destruct (CONNECTION_CHECK_INTERVAL <=? to_uint32 (now - lcc));
    cbn [bleInitialized deviceConnected oldDeviceConnected serverCreated
         characteristicsCreated newDataAvailable sharedSensorData liveDataValue
         lastConnectionCheck lastAdvertisingStart notified
         set_lastConnectionCheck negb andb orb];
    unfold safeBLEUpdate;
    cbn [bleInitialized deviceConnected oldDeviceConnected serverCreated
         characteristicsCreated newDataAvailable sharedSensorData liveDataValue
         lastConnectionCheck lastAdvertisingStart notified negb andb orb];
    rewrite M3;
    destruct odc;
    cbn [bleInitialized deviceConnected oldDeviceConnected serverCreated
         characteristicsCreated newDataAvailable sharedSensorData liveDataValue
         lastConnectionCheck lastAdvertisingStart notified negb andb orb
         set_newDataAvailable set_oldDeviceConnected];
    repeat split.
Qed.

Lemma latest_reading_is_pushed_witness :
  let r := mkRadio true true true true true false (reading 0 0 0 0) "" 0 0 [] in
  let r' :=
    BLETask_iteration healthy 100
      (updateSharedData healthy (reading 4 5 6 80)
         (updateSharedData healthy (reading 1 2 3 81) r)) in
  notified r' =
    notified r ++ [NotifyLive (liveData_text (reading 4 5 6 80));
                   NotifyBattery (SensorData.battery_level (reading 4 5 6 80))] /\
  liveDataValue r' = liveData_text (reading 4 5 6 80) /\
  newDataAvailable r' = false.
Proof.
  apply (latest_reading_is_pushed healthy healthy healthy 100 (reading 1 2 3 81)
           (reading 4 5 6 80)
           (mkRadio true true true true true false (reading 0 0 0 0) "" 0 0 []));
    reflexivity.
Defined.

(* --------------------------------------------------------------------- *)
(** ** Maintenance of the key/value store *)
(* --------------------------------------------------------------------- *)

(** A turn of the write test removes its key, stored or not. *)
Lemma test_write_fst (env : Env) (p : Preferences.t) (f : Z) (i : Z) :
  fst (test_write env (p, f) i) = snd (Preferences.remove (test_key i) p).
Proof.
  unfold test_write, Preferences.putBytes, Preferences.remove.
  destruct (env_putBytes_ok env (Z.to_nat i)); cbn [fst snd].
  - destruct (length (LogData.image (env_pad env) (test_entry i)) =? 0)%nat;
      cbn [fst]; apply delete_insert_eq.
  - reflexivity.
Qed.

Lemma test_writes_fst (env : Env) (idxs : list Z) (acc : Preferences.t * Z) :
  fst (fold_left (test_write env) idxs acc) =
  fold_left (fun p i => snd (Preferences.remove (test_key i) p)) idxs (fst acc).
Proof.
  revert acc. induction idxs as [| i idxs IH]; intros [p f]; [reflexivity |].
  cbn [fold_left]. rewrite IH. cbn [fst]. rewrite test_write_fst. reflexivity.
Qed.

Lemma testFlashWriteCapacity_preferences (env : Env) (st : Store) :
  fst (testFlashWriteCapacity env st) =
  set_preferences
    (fold_left (fun p i => snd (Preferences.remove (test_key i) p)) (seqZ 0 10)
       (preferences st)) st.
Proof.
  unfold testFlashWriteCapacity.
  pose proof (test_writes_fst env (seqZ 0 10) (preferences st, 0)) as H.
  destruct (fold_left (test_write env) (seqZ 0 10) (preferences st, 0)) as [p f].
  cbn [fst] in *. rewrite H. reflexivity.
Qed.

(** X17.  The write test of [setup] leaves no trace.  Whether its ten
    writes are stored or not, [testFlashWriteCapacity] ends with none of
    the keys [test_0] .. [test_9] in the key/value store and with every
    other key holding what it held; [logIndex], the file store and
    [lastError] are not touched. *)
Theorem testFlashWriteCapacity_leaves_no_trace (env : Env) (st : Store) :
  let st' := fst (testFlashWriteCapacity env st) in
  logIndex st' = logIndex st /\
  useLittleFS st' = useLittleFS st /\
  littlefs st' = littlefs st /\
  lastError st' = lastError st /\
  (forall i, 0 <= i < 10 -> preferences st' !! test_key i = None) /\
  (forall key, (forall i, 0 <= i < 10 -> key <> test_key i) ->
               preferences st' !! key = preferences st !! key).
Proof.
  cbv zeta. rewrite testFlashWriteCapacity_preferences.
  cbn [logIndex useLittleFS littlefs lastError preferences set_preferences].
  split; [reflexivity |]. split; [reflexivity |]. split; [reflexivity |].
  split; [reflexivity |]. split.
  - intros i Hi. apply (removals_lookup_in test_key).
    apply elem_of_seqZ. lia.
  - intros key Hkey. apply (removals_lookup_out test_key).
    intros i Hi. apply Hkey. apply elem_of_seqZ in Hi. lia.
Qed.

Lemma repairFlashStorage_lookup (env : Env) (st : Store) (key : string) :
  key <> "logIndex" ->
  (forall i, 0 <= i < MAX_LOG_ENTRIES -> key <> legacy_key i) ->
  preferences (repairFlashStorage env st) !! key = preferences st !! key.
Proof.
  intros Hidx Hkey. unfold repairFlashStorage.
  cbn [preferences set_preferences set_logIndex].
  unfold Preferences.putInt. destruct (env_putInt_ok env); cbn [snd].
  - rewrite lookup_insert_ne by congruence.
    apply (removals_lookup_out legacy_key).
    intros i Hi. apply Hkey. apply elem_of_seqZ in Hi. lia.
  - apply (removals_lookup_out legacy_key).
    intros i Hi. apply Hkey. apply elem_of_seqZ in Hi. lia.
Qed.

(** X18.  What the repair of [setup] removes and what it keeps.
    [repairFlashStorage] removes every legacy key [log_0] ..
    [log_99999] and sets [logIndex] to 0; it keeps every compact record in
    its slot.  The records that stay are then out of reach of a download:
    with [logIndex] at 0 the transfer announces one chunk and delivers
    [No data available]. *)
Theorem repairFlashStorage_effect (env env' : Env) (st : Store) (s : Session) :
  let st' := repairFlashStorage env st in
  logIndex st' = 0 /\
  useLittleFS st' = useLittleFS st /\
  littlefs st' = littlefs st /\
  (forall i, 0 <= i < MAX_LOG_ENTRIES ->
             preferences st' !! legacy_key i = None) /\
  (forall n, preferences st' !! slot_key n = preferences st !! slot_key n) /\
  download env' st' s = no_data.
Proof.
  cbv zeta. split; [reflexivity |]. split; [reflexivity |].
  split; [reflexivity |]. split; [| split].
  - intros i Hi. unfold repairFlashStorage.
    cbn [preferences set_preferences set_logIndex]. unfold Preferences.putInt.
    pose proof (legacy_key_not_index i) as Hne.
    destruct (env_putInt_ok env); cbn [snd];
      rewrite ?lookup_insert_ne by congruence;
      apply (removals_lookup_in legacy_key); apply elem_of_seqZ; lia.
  - intros n. apply repairFlashStorage_lookup.
    + apply slot_key_not_index.
    + intros i _. apply slot_key_not_legacy.
  - apply download_no_data. cbn. lia.
Qed.

(* --------------------------------------------------------------------- *)
(** ** The bring-up of the log store *)
(* --------------------------------------------------------------------- *)

Lemma migrateLegacyData_nothing_to_move (env : Env) (st : Store) :
  0 < Preferences.getInt "logIndex" 0 (preferences st) ->
  (forall i, 0 <= i < Preferences.getInt "logIndex" 0 (preferences st) ->
             settled (preferences st) i) ->
  migrateLegacyData env st =
  migrate_finish env
    (st, 0, 0 + Z.of_nat (length (seqZ 0 (Preferences.getInt "logIndex" 0
                                            (preferences st))))).
Proof.
  intros Hpos Hall. unfold migrateLegacyData.
  destruct (Preferences.getInt "logIndex" 0 (preferences st) <=? 0) eqn:H0.
  { apply Z.leb_le in H0. lia. }
  rewrite migrate_loop_settled; [reflexivity |].
  intros i Hi. apply Hall. apply elem_of_seqZ in Hi. lia.
Qed.

Lemma test_key_not_index (i : Z) : "logIndex" <> test_key i.
Proof.
  unfold test_key. intros H.
  apply (f_equal (fun s => String.get 0 s)) in H.
  rewrite !str_app_cons in H. cbn in H. discriminate.
Qed.

(** X19.  What a boot does to the log index of a device that has logged on
    the key/value backend.  [setup] runs [migrateLegacyData] while the
    global [logIndex] is still 0.  When the stored index is positive and no
    legacy record below it is there to migrate, the migration stores that 0
    over the stored index (if the write is taken), and the flash part of
    [setup] ends on the key/value backend with [logIndex] 0: the records
    written before the boot are all still in their slots, yet a download
    now delivers [No data available], and the next append goes to slot
    0. *)
Theorem setup_flash_after_reboot
    (env_fs env env_test env_repair env' : Env) (mount : MountResult)
    (p : Preferences.t) (fs : FileSystem) (err : Z) (s : Session) :
  0 < Preferences.getInt "logIndex" 0 p ->
  (forall i, 0 <= i < Preferences.getInt "logIndex" 0 p -> settled p i) ->
  fst (initLittleFS env_fs mount fs) = true ->
  env_putInt_ok env = true ->
  let st' :=
    fst (setup_flash env_fs env env_test env_repair mount (boot_store p fs err)) in
  useLittleFS st' = false /\
  logIndex st' = 0 /\
  preferences st' !! "logIndex" = Some (PInt 0) /\
  (forall n, preferences st' !! slot_key n = p !! slot_key n) /\
  download env' st' s = no_data.
Proof.
  intros Hpos Hall Hinit Hput. cbv zeta.
  assert (Hstorage :
    setup_storage env_fs env mount (boot_store p fs err) =
    mkStore 0 false (<["logIndex" := PInt 0]> p)
      (write_metadata env 0 (snd (initLittleFS env_fs mount fs))) err).
  { unfold setup_storage.
    change (littlefs (boot_store p fs err)) with fs.
    destruct (initLittleFS env_fs mount fs) as [ok fs1]. cbn [fst snd] in *.
    subst ok. cbv beta iota zeta.
    rewrite migrateLegacyData_nothing_to_move by assumption.
    unfold migrate_finish, boot_store, Preferences.putInt.
    cbn [set_littlefs logIndex useLittleFS preferences littlefs lastError
         set_preferences].
    rewrite Hput.
    cbn [snd Z.ltb Z.compare useLittleFS negb preferences set_logIndex logIndex
         littlefs lastError set_littlefs set_preferences].
    unfold Preferences.getInt. rewrite lookup_insert_eq. reflexivity. }
  unfold setup_flash. rewrite Hstorage, testFlashWriteCapacity_preferences.
  cbn [logIndex set_preferences preferences Z.ltb Z.compare andb fst].
  rewrite andb_false_r.
  cbn [useLittleFS logIndex preferences set_preferences fst].
  split; [reflexivity |]. split; [reflexivity |].
  split; [| split].
  - rewrite (removals_lookup_out test_key).
    + apply lookup_insert_eq.
    + intros i _. apply test_key_not_index.
  - intros n. rewrite (removals_lookup_out test_key).
    + apply lookup_insert_ne. intros E. apply (slot_key_not_index n). 
      symmetry. exact E.
    + intros i _. apply slot_key_not_test.
  - apply download_no_data. cbn. lia.
Qed.

Lemma setup_flash_after_reboot_witness :
  let p : Preferences.t :=
    <["logIndex" := PInt 1]>
      (<[slot_key 0 := PBytes (LogData.image 0 (LogData.mk 1700000000 1 2 3 50))]> ∅) in
  let st' :=
    fst (setup_flash healthy healthy healthy healthy Mounted
           (boot_store p empty_fs ERROR_NONE)) in
  useLittleFS st' = false /\
  logIndex st' = 0 /\
  preferences st' !! "logIndex" = Some (PInt 0) /\
  (forall n, preferences st' !! slot_key n = p !! slot_key n) /\
  download healthy st' empty_session = no_data.
Proof.
  apply (setup_flash_after_reboot healthy healthy healthy healthy healthy Mounted
           (<["logIndex" := PInt 1]>
              (<[slot_key 0 :=
                   PBytes (LogData.image 0 (LogData.mk 1700000000 1 2 3 50))]> ∅))
           empty_fs ERROR_NONE empty_session).
  - vm_compute. reflexivity.
  - intros i Hi.
    change (Preferences.getInt "logIndex" 0 _) with 1 in Hi.
    assert (i = 0) as -> by lia.
    vm_compute. split; reflexivity.
  - reflexivity.
  - reflexivity.
Defined.

(* --------------------------------------------------------------------- *)
(** ** The index repair of the file store *)
(* --------------------------------------------------------------------- *)

Lemma scan_logs_snoc (fs : FileSystem) (n : Z) :
  0 <= n ->
  scan_logs fs (n + 1) =
  (if bool_decide (is_Some (fs_files fs !! getLittleFSLogPath n))
   then (wrap_int (fst (scan_logs fs n) + 1), n)
   else scan_logs fs n).
Proof.
  intros Hn. unfold scan_logs.
  rewrite seqZ_app by lia. rewrite fold_left_app.
  change (seqZ (0 + n) 1) with (seqZ (0 + n) (Z.of_nat 1)).
  rewrite Z.add_0_l. cbn [Z.of_nat]. 
  replace (seqZ n (Z.pos 1)) with [n]; [reflexivity |].
  rewrite seqZ_cons by lia. rewrite seqZ_nil by lia. reflexivity.
Qed.

Lemma scan_logs_files (fs fs' : FileSystem) (n : Z) :
  fs_files fs' = fs_files fs -> scan_logs fs' n = scan_logs fs n.
Proof. intros H. unfold scan_logs. rewrite H. reflexivity. Qed.

(** The index the scan ends on: 0, or that of a file below the bound. *)
Lemma scan_logs_last (fs : FileSystem) (k : nat) :
  let m := snd (scan_logs fs (Z.of_nat k)) in
  m = 0 \/ (0 < m < Z.of_nat k /\ is_Some (fs_files fs !! getLittleFSLogPath m)).
Proof.
  cbv zeta. induction k as [| k IH]; [left; reflexivity |].
  rewrite Nat2Z.inj_succ. unfold Z.succ. rewrite scan_logs_snoc by lia.
  destruct (bool_decide (is_Some (fs_files fs !! getLittleFSLogPath (Z.of_nat k))))
    eqn:Hfile.
  - cbn [snd]. apply bool_decide_eq_true in Hfile.
    destruct k as [| k]; [left; reflexivity |].
    right. split; [lia | exact Hfile].
  - destruct IH as [IH | [IH1 IH2]]; [left; exact IH |].
    right. split; [lia | exact IH2].
Qed.

Lemma scan_logs_nothing (fs : FileSystem) (n : Z) :
  n <= 0 -> scan_logs fs n = (0, 0).
Proof. intros H. unfold scan_logs. rewrite seqZ_nil by lia. reflexivity. Qed.

(** The scan up to and including the index it ended on ends there
    again. *)
Lemma scan_logs_again (fs : FileSystem) (m : Z) :
  m = 0 \/ (0 < m /\ is_Some (fs_files fs !! getLittleFSLogPath m)) ->
  snd (scan_logs fs (m + 1)) = m.
Proof.
  intros [-> | [Hm Hfile]].
  - rewrite scan_logs_snoc by lia.
    destruct (bool_decide (is_Some (fs_files fs !! getLittleFSLogPath 0)));
      reflexivity.
  - rewrite scan_logs_snoc by lia.
    rewrite bool_decide_eq_true_2 by exact Hfile. reflexivity.
Qed.

(** X20.  [optimizeLittleFSStorage] settles in one run and never leaves the
    index at 0.  Run on its own result it changes nothing, whatever the
    hardware answers; the index it leaves is at least 1 -- on a store with
    no log file at all it is exactly 1, so that slot 0 is skipped by the
    next append -- and never above an index that was already positive; the
    log files are not touched. *)
Theorem optimizeLittleFSStorage_settles (env env2 : Env) (st : Store) :
  logIndex st < 2 ^ 31 ->
  let st' := optimizeLittleFSStorage env st in
  optimizeLittleFSStorage env2 st' = st' /\
  1 <= logIndex st' /\
  (1 <= logIndex st -> logIndex st' <= logIndex st) /\
  ((forall i, 0 <= i < logIndex st ->
              fs_files (littlefs st) !! getLittleFSLogPath i = None) ->
   logIndex st' = 1) /\
  fs_files (littlefs st') = fs_files (littlefs st).
Proof.
  intros Hint. cbv zeta.
  assert (Hlast :
    let m := snd (scan_logs (littlefs st) (logIndex st)) in
    (m = 0 \/ (0 < m < logIndex st /\
               is_Some (fs_files (littlefs st) !! getLittleFSLogPath m)))).
  { cbv zeta. destruct (Z.le_gt_cases (logIndex st) 0) as [Hle | Hgt].
    - rewrite scan_logs_nothing by exact Hle. left. reflexivity.
    - pose proof (scan_logs_last (littlefs st) (Z.to_nat (logIndex st))) as H.
      cbv zeta in H. rewrite Z2Nat.id in H by lia. exact H. }
  cbv zeta in Hlast.
  assert (Hnone :
    (forall i, 0 <= i < logIndex st ->
               fs_files (littlefs st) !! getLittleFSLogPath i = None) ->
    snd (scan_logs (littlefs st) (logIndex st)) = 0).
  { intros Hno. destruct Hlast as [H | [Hm Hfile]]; [exact H |].
    rewrite Hno in Hfile by lia. destruct Hfile as [? Hfile]. discriminate. }
  unfold optimizeLittleFSStorage.
  destruct (scan_logs (littlefs st) (logIndex st)) as [actualFiles maxIndex] eqn:Hscan.
  cbn [snd] in Hlast, Hnone.
  assert (Hwrap : wrap_int (maxIndex + 1) = maxIndex + 1).
  { apply wrap_int_small. lia. }
  rewrite Hwrap.
  destruct (maxIndex + 1 =? logIndex st) eqn:Hsame; cbn [negb].
  - apply Z.eqb_eq in Hsame.
    rewrite Hscan, Hwrap. rewrite (proj2 (Z.eqb_eq _ _) Hsame). cbn [negb].
    split; [reflexivity |]. split; [lia |]. split; [lia |].
    split; [| reflexivity].
    intros Hno. rewrite (Hnone Hno) in Hsame. lia.
  - cbn [littlefs logIndex set_preferences set_littlefs set_logIndex].
    rewrite (scan_logs_files (littlefs st)) by apply write_metadata_files.
    assert (Hagain : snd (scan_logs (littlefs st) (maxIndex + 1)) = maxIndex).
    { apply scan_logs_again. destruct Hlast as [H | [Hm Hfile]];
        [left; exact H | right; split; [lia | exact Hfile]]. }
    destruct (scan_logs (littlefs st) (maxIndex + 1)) as [a2 m2].
    cbn [snd] in Hagain. subst m2. rewrite Hwrap, Z.eqb_refl. cbn [negb].
    split; [reflexivity |]. split; [lia |]. split; [lia |].
    split; [| apply write_metadata_files].
    intros Hno. rewrite (Hnone Hno). reflexivity.
Qed.

Lemma optimizeLittleFSStorage_settles_witness :
  let st := empty_file_store in
  let st' := optimizeLittleFSStorage healthy st in
  optimizeLittleFSStorage healthy st' = st' /\
  1 <= logIndex st' /\
  (1 <= logIndex st -> logIndex st' <= logIndex st) /\
  ((forall i, 0 <= i < logIndex st ->
              fs_files (littlefs st) !! getLittleFSLogPath i = None) ->
   logIndex st' = 1) /\
  fs_files (littlefs st') = fs_files (littlefs st).
Proof.
  apply (optimizeLittleFSStorage_settles healthy healthy empty_file_store).
  cbn. lia.
Defined.

(* --------------------------------------------------------------------- *)
(** ** The sensor task *)
(* --------------------------------------------------------------------- *)

(** X21.  What a turn of the sensor task publishes and logs.  The fields the
    local struct starts out with never reach the result.  A read that fails
    publishes and logs nothing: only [lastError] changes, to
    [ERROR_SENSOR_TIMEOUT].  A read that succeeds is published to the radio
    task whenever the mutex is free -- the concentrations as the sensor gave
    them, a battery level between 0 and 100, the time of [getRTCTime] -- and
    this does not wait for the clock: while the clock is not accurate the
    store is left alone, except that [lastError] is cleared. *)
Theorem SensorTask_iteration_result
    (env : Env) (centivolts : Z) (answer : option PM25_AQI_Data)
    (junk junk' : SensorData.t) (d : Device) :
  let d' := SensorTask_iteration env centivolts answer junk d in
  d' = SensorTask_iteration env centivolts answer junk' d /\
  session d' = session d /\
  match answer with
  | None =>
      store d' = set_lastError ERROR_SENSOR_TIMEOUT (store d) /\
      radio d' = radio d /\ clock d' = clock d
  | Some aqiData =>
      let published := sharedSensorData (radio d') in
      (env_mutex env = true ->
       newDataAvailable (radio d') = true /\
       SensorData.pm1_0_env published = aqi_pm10_env aqiData /\
       SensorData.pm2_5_env published = aqi_pm25_env aqiData /\
       SensorData.pm10_0_env published = aqi_pm100_env aqiData /\
       0 <= SensorData.battery_level published <= 100 /\
       SensorData.timestamp published = to_uint32 (getRTCTime (clock d))) /\
      (env_mutex env = false -> radio d' = radio d) /\
      (rtcTimeAccurate (clock d) = false ->
       store d' = set_lastError ERROR_NONE (store d))
  end.
Proof.
  cbv zeta. unfold SensorTask_iteration, readPMSA003I.
  destruct answer as [aqiData |];
    cbn [session store radio clock SensorData.battery_level SensorData.timestamp].
  - split; [reflexivity |]. split; [reflexivity |].
    unfold updateSharedData. split; [| split].
    + intros Hm. rewrite Hm. cbn [newDataAvailable sharedSensorData
        SensorData.pm1_0_env SensorData.pm2_5_env SensorData.pm10_0_env
        SensorData.battery_level SensorData.timestamp].
      pose proof (constrain_range (map_long centivolts 300 420 0 100) 0 100
                    ltac:(lia)) as Hlevel.
      unfold getBatteryLevel, to_uint8. rewrite Z.mod_small by lia.
      repeat split; lia.
    + intros Hm. rewrite Hm. reflexivity.
    + intros Hgate. unfold logDataToFlash, logDataToFlash_calls, gated_entry.
      cbn [tick rtcTimeAccurate]. rewrite Hgate. reflexivity.
  - repeat split.
Qed.

(* --------------------------------------------------------------------- *)
(** ** What the migration writes *)
(* --------------------------------------------------------------------- *)

Lemma le_combine_range (l : list Z) :
  is_octets l -> 0 <= le_combine l < 256 ^ Z.of_nat (length l).
Proof.
  induction 1 as [| b l Hb _ IH]; [cbn; lia |].
  cbn [le_combine length]. rewrite Nat2Z.inj_succ, Z.pow_succ_r by lia. lia.
Qed.

Lemma field_at_range (off n : nat) (image : list Z) :
  is_octets image -> 0 <= field_at off n image < 256 ^ Z.of_nat n.
Proof.
  intros Himage. unfold field_at.
  assert (Hlen : length (octets_at off n image) = n).
  { unfold octets_at. rewrite length_map, length_seq. reflexivity. }
  assert (Hoct : is_octets (octets_at off n image)).
  { unfold octets_at, is_octets.
    apply Forall_map, Forall_forall. intros k _. cbn.
    destruct (nth_in_or_default (off + k) image 0) as [Hin | ->]; [| lia].
    unfold is_octets in Himage. rewrite Forall_forall in Himage.
    apply Himage. apply list_elem_of_In. exact Hin. }
  pose proof (le_combine_range _ Hoct) as H. rewrite Hlen in H. exact H.
Qed.

(** The record converted from a full reading has its fields in range. *)
Lemma converted_in_range (blob : list Z) :
  is_octets blob ->
  LogData.in_range (LogData.of_SensorData (SensorData.of_image blob)).
Proof.
  intros H. unfold LogData.in_range, LogData.of_SensorData, SensorData.of_image.
  cbn [LogData.timestamp LogData.pm1_0_env LogData.pm2_5_env LogData.pm10_0_env
       LogData.battery_level SensorData.timestamp SensorData.pm1_0_env
       SensorData.pm2_5_env SensorData.pm10_0_env SensorData.battery_level].
  pose proof (field_at_range 28 4 blob H).
  pose proof (field_at_range 6 2 blob H).
  pose proof (field_at_range 8 2 blob H).
  pose proof (field_at_range 10 2 blob H).
  pose proof (field_at_range 24 1 blob H).
  change (256 ^ Z.of_nat 4) with (2 ^ 32) in *.
  change (256 ^ Z.of_nat 2) with (2 ^ 16) in *.
  change (256 ^ Z.of_nat 1) with (2 ^ 8) in *.
  repeat split; lia.
Qed.

(** A complete write of a record's octets to the path of the current
    index, read back. *)
Lemma migrate_write_moves (env env' : Env) (octets : list Z) (key : string)
    (st : Store) (m e : Z) :
  writes_succeed env ->
  env_open_r env' (getLittleFSLogPath (logIndex st)) = true ->
  length octets = LogData.sizeof ->
  let r := migrate_write env octets key (st, m, e) in
  let st' := fst (fst r) in
  r = (st', m + 1, e) /\
  logIndex st' = wrap_int (logIndex st + 1) /\
  preferences st' = delete key (preferences st) /\
  fs_files (littlefs st') !! getLittleFSLogPath (logIndex st) = Some octets /\
  readLogFromLittleFS env' (logIndex st) (littlefs st') = LogData.of_image octets.
Proof.
  intros (Hopen & Hwritten & _) Hread Hlen. cbv zeta. unfold migrate_write.
  rewrite Hopen. unfold write_file.
  rewrite take_ge by (rewrite Hlen; apply Hwritten).
  rewrite Hlen, Nat.eqb_refl.
  cbn [fst snd logIndex preferences littlefs set_preferences set_logIndex
       set_littlefs fs_files].
  split; [reflexivity |]. split; [reflexivity |]. split; [reflexivity |].
  assert (Hfile :
    <[getLittleFSLogPath (logIndex st) := octets]>
      (fs_files (snd (ensure_dir env (getLittleFSLogDir (logIndex st)) (littlefs st))))
      !! getLittleFSLogPath (logIndex st) = Some octets)
    by apply lookup_insert_eq.
  split; [exact Hfile |].
  unfold readLogFromLittleFS. cbn [fs_files]. rewrite Hfile, Hread.
  rewrite take_ge by (rewrite Hlen; reflexivity). reflexivity.
Qed.

(** X22.  The migration moves a record without changing it.  In a turn of
    the loop of [migrateLegacyData] whose file write succeeds, a compact
    record under [log_i] is written to the file of the current index octet
    for octet, and a full reading under [data_i] is written as the compact
    record of its time stamp, its three environmental concentrations and
    its battery level; either way the file reads back as that record, the
    key is removed, and the index and the count of migrated records advance
    by one. *)
Theorem migrate_step_moves_record
    (env env' : Env) (st : Store) (m e i : Z) (blob : list Z) :
  writes_succeed env ->
  env_open_r env' (getLittleFSLogPath (logIndex st)) = true ->
  let r := migrate_step env (st, m, e) i in
  let st' := fst (fst r) in
  (preferences st !! legacy_key i = Some (PBytes blob) ->
   length blob = LogData.sizeof ->
   r = (st', m + 1, e) /\
   logIndex st' = wrap_int (logIndex st + 1) /\
   preferences st' = delete (legacy_key i) (preferences st) /\
   fs_files (littlefs st') !! getLittleFSLogPath (logIndex st) = Some blob /\
   readLogFromLittleFS env' (logIndex st) (littlefs st') = LogData.of_image blob)
  /\
  (has_blob (legacy_key i) LogData.sizeof (preferences st) = false ->
   preferences st !! data_key i = Some (PBytes blob) ->
   length blob = SensorData.sizeof ->
   is_octets blob ->
   r = (st', m + 1, e) /\
   logIndex st' = wrap_int (logIndex st + 1) /\
   preferences st' = delete (data_key i) (preferences st) /\
   readLogFromLittleFS env' (logIndex st) (littlefs st') =
     LogData.of_SensorData (SensorData.of_image blob)).
Proof.
  intros Hw Hread. cbv zeta. split.
  - intros Hkey Hlen. unfold migrate_step, Preferences.getBytes.
    rewrite Hkey, Hlen, Nat.leb_refl, Nat.eqb_refl.
    apply (migrate_write_moves env env' blob (legacy_key i) st m e Hw Hread Hlen).
  - intros Hnone Hkey Hlen Hoct. unfold migrate_step.
    unfold has_blob in Hnone.
    destruct (Preferences.getBytes (legacy_key i) LogData.sizeof (preferences st))
      as [bytesRead legacyData].
    cbn [fst] in Hnone. rewrite Hnone.
    unfold Preferences.getBytes. rewrite Hkey, Hlen, Nat.leb_refl, Nat.eqb_refl.
    pose proof (migrate_write_moves env env'
                  (LogData.image (env_pad env)
                     (LogData.of_SensorData (SensorData.of_image blob)))
                  (data_key i) st m e Hw Hread (LogData_image_length _ _))
      as (H1 & H2 & H3 & _ & H5).
    cbv zeta in H1, H2, H3, H5.
    split; [exact H1 |]. split; [exact H2 |]. split; [exact H3 |].
    rewrite H5. apply LogData_of_image_image. apply converted_in_range. exact Hoct.
Qed.

Lemma migrate_step_moves_record_witness :
  let blob := LogData.image 0 (LogData.mk 1700000000 1 2 3 50) in
  let st := mkStore 0 false (<[legacy_key 0 := PBytes blob]> ∅) empty_fs ERROR_NONE in
  let r := migrate_step healthy (st, 0, 0) 0 in
  let st' := fst (fst r) in
  (preferences st !! legacy_key 0 = Some (PBytes blob) ->
   length blob = LogData.sizeof ->
   r = (st', 0 + 1, 0) /\
   logIndex st' = wrap_int (logIndex st + 1) /\
   preferences st' = delete (legacy_key 0) (preferences st) /\
   fs_files (littlefs st') !! getLittleFSLogPath (logIndex st) = Some blob /\
   readLogFromLittleFS healthy (logIndex st) (littlefs st') = LogData.of_image blob)
  /\
  (has_blob (legacy_key 0) LogData.sizeof (preferences st) = false ->
   preferences st !! data_key 0 = Some (PBytes blob) ->
   length blob = SensorData.sizeof ->
   is_octets blob ->
   r = (st', 0 + 1, 0) /\
   logIndex st' = wrap_int (logIndex st + 1) /\
   preferences st' = delete (data_key 0) (preferences st) /\
   readLogFromLittleFS healthy (logIndex st) (littlefs st') =
     LogData.of_SensorData (SensorData.of_image blob)).
Proof.
  apply (migrate_step_moves_record healthy healthy
           (mkStore 0 false
              (<[legacy_key 0 :=
                   PBytes (LogData.image 0 (LogData.mk 1700000000 1 2 3 50))]> ∅)
              empty_fs ERROR_NONE)
           0 0 0 (LogData.image 0 (LogData.mk 1700000000 1 2 3 50))).
  - exact healthy_writes_succeed.
  - reflexivity.
Defined.

(* --------------------------------------------------------------------- *)
(** ** The paths of the file store *)
(* --------------------------------------------------------------------- *)

Lemma all_digits_pretty_N_go (x : N) (s : string) :
  all_digits s = true -> all_digits (pretty_N_go x s) = true.
Proof.
  revert s. induction (N.lt_wf_0 x) as [x _ IH]; intros s Hs.
  destruct (N.eq_dec x 0%N) as [-> | Hx].
  - rewrite pretty_N_go_0. exact Hs.
  - rewrite pretty_N_go_step by lia.
    apply IH; [apply N.div_lt; lia |].
    cbn [all_digits].
    destruct (pretty_N_char_facts (x `mod` 10)%N ltac:(apply N.mod_lt; lia))
      as (Hd & _).
    cbv zeta in Hd. rewrite Hd. exact Hs.
Qed.

Lemma all_digits_String_of (z : Z) : 0 <= z -> all_digits (String_of z) = true.
Proof.
  intros Hz. unfold String_of, pretty, pretty_Z. destruct z as [| p | p].
  - reflexivity.
  - unfold pretty, pretty_positive, pretty, pretty_N.
    destruct (decide (N.pos p = 0%N)); [reflexivity |].
    apply all_digits_pretty_N_go. reflexivity.
  - lia.
Qed.

(** Two texts made of digits, each followed by the same character that is
    not a digit: what comes before it and what comes after it agree. *)
Lemma digits_then_separator (sep : ascii) (a a' b b' : string) :
  digit_value sep = None ->
  all_digits a = true -> all_digits a' = true ->
  a +:+ String sep b = a' +:+ String sep b' ->
  a = a' /\ b = b'.
Proof.
  intros Hsep. revert a'. induction a as [| c a IH]; intros [| c' a'] Ha Ha' H.
  - injection H as H. split; [reflexivity | exact H].
  - rewrite str_app_cons in H. injection H as Hc _. subst c'.
    cbn [all_digits] in Ha'. rewrite Hsep in Ha'. discriminate.
  - rewrite str_app_cons in H. injection H as Hc _. subst c.
    cbn [all_digits] in Ha. rewrite Hsep in Ha. discriminate.
  - rewrite !str_app_cons in H. injection H as Hc H. subst c'.
    cbn [all_digits] in Ha, Ha'.
    destruct (digit_value c); [| discriminate].
    destruct (IH a' Ha Ha' H) as [-> ->]. split; reflexivity.
Qed.

(** Two indices that are not negative have different paths. *)
Lemma getLittleFSLogPath_inj (i j : Z) :
  0 <= i -> 0 <= j -> getLittleFSLogPath i = getLittleFSLogPath j -> i = j.
Proof.
  intros Hi Hj H. unfold getLittleFSLogPath in H.
  apply str_app_inv_head in H.
  assert (Hqi : 0 <= Z.quot i 1000) by (apply Z.quot_pos; lia).
  assert (Hqj : 0 <= Z.quot j 1000) by (apply Z.quot_pos; lia).
  assert (Hri : 0 <= Z.rem i 1000) by (apply Z.rem_nonneg; lia).
  assert (Hrj : 0 <= Z.rem j 1000) by (apply Z.rem_nonneg; lia).
  change ("/" +:+ ?x) with (String "/" x) in H.
  apply (digits_then_separator "/") in H as [Hq H];
    [| reflexivity | apply all_digits_String_of; assumption ..].
  change ".log" with (String "." "log") in H.
  apply (digits_then_separator ".") in H as [Hr _];
    [| reflexivity | apply all_digits_String_of; assumption ..].
  apply (inj pretty) in Hq, Hr.
  rewrite (Z.quot_rem' i 1000), (Z.quot_rem' j 1000). congruence.
Qed.

(** X23.  On the file backend the log only grows.  Two indices that are not
    negative never share a path, and an append -- whether it succeeds or
    fails, and whatever the hardware answers -- leaves the file of every
    other index exactly as it was, leaves the key/value store alone and
    keeps the backend; [logIndex] stays or advances by one. *)
Theorem logDataToFlash_file_frame
    (env : Env) (c : Clock) (data : SensorData.t) (st : Store) :
  useLittleFS st = true ->
  0 <= logIndex st ->
  let st' := logDataToFlash env c data st in
  preferences st' = preferences st /\
  useLittleFS st' = true /\
  (logIndex st' = logIndex st \/ logIndex st' = wrap_int (logIndex st + 1)) /\
  forall i j, 0 <= i -> 0 <= j ->
    (getLittleFSLogPath i = getLittleFSLogPath j -> i = j) /\
    (j <> logIndex st ->
     fs_files (littlefs st') !! getLittleFSLogPath j =
     fs_files (littlefs st) !! getLittleFSLogPath j).
Proof.
  intros Hfile Hidx. cbv zeta.
  unfold logDataToFlash, logDataToFlash_calls.
  destruct (gated_entry c data) as [e |]; cbn [fst].
  2: { split; [reflexivity |]. split; [exact Hfile |].
       split; [left; reflexivity |]. intros i j Hi Hj.
       split; [apply getLittleFSLogPath_inj; assumption | reflexivity]. }
  rewrite Hfile.
  assert (Hother : forall j, 0 <= j -> j <> logIndex st ->
            getLittleFSLogPath (logIndex st) <> getLittleFSLogPath j).
  { intros j Hj Hne E. apply Hne. symmetry.
    apply getLittleFSLogPath_inj; assumption. }
  unfold saveLogToLittleFS.
  pose proof (ensure_dir_files env (getLittleFSLogDir (logIndex st)) (littlefs st))
    as Hd.
  destruct (ensure_dir env (getLittleFSLogDir (logIndex st)) (littlefs st))
    as [dir_ok fs1].
  cbn [snd] in Hd.
  destruct dir_ok; cbn [negb].
  - destruct (env_open_w env (getLittleFSLogPath (logIndex st))); cbn [negb].
    + unfold write_file.
      match goal with
      | |- context [(length ?x =? LogData.sizeof)%nat] =>
          destruct (length x =? LogData.sizeof)%nat
      end;
        cbn [negb fst snd preferences littlefs logIndex useLittleFS
             set_logIndex set_littlefs set_lastError];
        (split; [reflexivity |]); (split; [exact Hfile |]);
        (split; [first [right; reflexivity | left; reflexivity] |]);
        intros i j Hi Hj;
        (split; [apply getLittleFSLogPath_inj; assumption |]);
        intros Hne; rewrite ?write_metadata_files; cbn [fs_files];
        rewrite lookup_insert_ne by (apply Hother; assumption);
        rewrite Hd; reflexivity.
    + cbn [fst preferences littlefs logIndex useLittleFS set_littlefs set_lastError].
      split; [reflexivity |]. split; [exact Hfile |].
      split; [left; reflexivity |]. intros i j Hi Hj.
      split; [apply getLittleFSLogPath_inj; assumption |].
      intros _. rewrite Hd. reflexivity.
  - cbn [fst preferences littlefs logIndex useLittleFS set_lastError].
    split; [reflexivity |]. split; [exact Hfile |].
    split; [left; reflexivity |]. intros i j Hi Hj.
    split; [apply getLittleFSLogPath_inj; assumption | reflexivity].
Qed.

Lemma logDataToFlash_file_frame_witness :
  let st := store_14 in
  let st' := logDataToFlash healthy (synced_clock 1700000100) (reading 1 2 3 50) st in
  preferences st' = preferences st /\
  useLittleFS st' = true /\
  (logIndex st' = logIndex st \/ logIndex st' = wrap_int (logIndex st + 1)) /\
  forall i j, 0 <= i -> 0 <= j ->
    (getLittleFSLogPath i = getLittleFSLogPath j -> i = j) /\
    (j <> logIndex st ->
     fs_files (littlefs st') !! getLittleFSLogPath j =
     fs_files (littlefs st) !! getLittleFSLogPath j).
Proof.
  apply (logDataToFlash_file_frame healthy (synced_clock 1700000100)
           (reading 1 2 3 50) store_14).
  - reflexivity.
  - cbn. lia.
Defined.

(* --------------------------------------------------------------------- *)
(** ** The window of a download and the size of a record's text *)
(* --------------------------------------------------------------------- *)

(** X24.  The window of a download.  For an index that is not negative
    ([logIndex] is an [int], so it is below [2 ^ 31]) the
    preparation selects the most recent records, at most
    [MAX_LOG_ENTRIES] of them, ending at the newest: the window starts at
    [startEntryIndex], is not negative, and its end is [logIndex]; and no
    two indices of the window share a slot of the circular buffer, so after
    a wrap-around every slot is sent exactly once. *)
Theorem prepare_window (env : Env) (st : Store) (s : Session) :
  0 <= logIndex st < 2 ^ 31 ->
  let s0 := prepareLoggedDataForChunking env st s in
  0 <= startEntryIndex s0 /\
  0 <= totalEntriesToSend s0 <= MAX_LOG_ENTRIES /\
  startEntryIndex s0 + totalEntriesToSend s0 = logIndex st /\
  currentChunk s0 = 0 /\
  1 <= totalChunks s0 /\
  forall i j,
    startEntryIndex s0 <= i < startEntryIndex s0 + totalEntriesToSend s0 ->
    startEntryIndex s0 <= j < startEntryIndex s0 + totalEntriesToSend s0 ->
    slot_key i = slot_key j -> i = j.
Proof.
  intros Hidx. cbv zeta. rewrite prepare_session by lia.
  cbn [startEntryIndex totalEntriesToSend currentChunk totalChunks].
  unfold MAX_LOG_ENTRIES.
  split; [lia |]. split; [lia |]. split; [lia |]. split; [reflexivity |].
  split; [lia |].
  intros i j Hi Hj Hkey. apply slot_key_eq_iff in Hkey.
  unfold MAX_LOG_ENTRIES in Hkey.
  rewrite !Z.rem_mod_nonneg in Hkey by lia.
  pose proof (Z.div_mod i 100000 ltac:(lia)) as Di.
  pose proof (Z.div_mod j 100000 ltac:(lia)) as Dj.
  assert (Hq : i / 100000 = j / 100000) by nia.
  lia.
Qed.

Lemma prepare_window_witness :
  let s0 := prepareLoggedDataForChunking healthy store_14 empty_session in
  0 <= startEntryIndex s0 /\
  0 <= totalEntriesToSend s0 <= MAX_LOG_ENTRIES /\
  startEntryIndex s0 + totalEntriesToSend s0 = logIndex store_14 /\
  currentChunk s0 = 0 /\
  1 <= totalChunks s0 /\
  forall i j,
    startEntryIndex s0 <= i < startEntryIndex s0 + totalEntriesToSend s0 ->
    startEntryIndex s0 <= j < startEntryIndex s0 + totalEntriesToSend s0 ->
    slot_key i = slot_key j -> i = j.
Proof.
  apply (prepare_window healthy store_14 empty_session). cbn. lia.
Defined.

(** The digits of a number below [10 ^ k] are at most [k]. *)
Lemma pretty_N_go_length (x : N) (s : string) (k : nat) :
  (x < 10 ^ N.of_nat k)%N ->
  (String.length s <= String.length (pretty_N_go x s) <= String.length s + k)%nat.
Proof.
  revert s k. induction (N.lt_wf_0 x) as [x _ IH]; intros s k Hx.
  destruct (N.eq_dec x 0%N) as [-> | Hpos].
  - rewrite pretty_N_go_0. lia.
  - rewrite pretty_N_go_step by lia.
    destruct k as [| k]; [cbn in Hx; lia |].
    assert (Hdiv : (x `div` 10 < 10 ^ N.of_nat k)%N).
    { apply N.Div0.div_lt_upper_bound.
      rewrite Nat2N.inj_succ, N.pow_succ_r' in Hx. exact Hx. }
    pose proof (IH (x `div` 10)%N ltac:(apply N.div_lt; lia)
                  (String (pretty_N_char (x `mod` 10)) s) k Hdiv) as H.
    cbn [String.length] in H. lia.
Qed.

Lemma String_of_length (z : Z) (k : nat) :
  0 <= z < 10 ^ Z.of_nat k ->
  (1 <= String.length (String_of z) <= Nat.max 1 k)%nat.
Proof.
  intros Hz. unfold String_of, pretty, pretty_Z. destruct z as [| p | p].
  - cbn. lia.
  - unfold pretty, pretty_positive, pretty, pretty_N.
    destruct (decide (N.pos p = 0%N)); [discriminate |].
    assert (Hx : (N.pos p < 10 ^ N.of_nat k)%N).
    { apply N2Z.inj_lt. rewrite N2Z.inj_pow, nat_N_Z. exact (proj2 Hz). }
    pose proof (pretty_N_go_length (N.pos p) "" k Hx) as H.
    destruct (pretty_N_go_head (N.pos p) "" ltac:(lia)) as (d & rest & _ & Heq).
    rewrite Heq in *. cbn [String.length] in *. lia.
  - lia.
Qed.

(** A number of at least [10 ^ k] has more than [k] digits. *)
Lemma pretty_N_go_length_ge (x : N) (s : string) (k : nat) :
  (10 ^ N.of_nat k <= x)%N ->
  (String.length s + k + 1 <= String.length (pretty_N_go x s))%nat.
Proof.
  revert s k. induction (N.lt_wf_0 x) as [x _ IH]; intros s k Hx.
  assert (Hpos : (0 < x)%N).
  { pose proof (N.pow_nonzero 10 (N.of_nat k) ltac:(discriminate)). lia. }
  rewrite pretty_N_go_step by exact Hpos.
  destruct k as [| k].
  - pose proof (pretty_N_go_length (x `div` 10)%N
                  (String (pretty_N_char (x `mod` 10)) s) (N.to_nat x)) as H.
    assert (Hlt : (x `div` 10 < 10 ^ N.of_nat (N.to_nat x))%N).
    { rewrite N2Nat.id.
      apply N.le_lt_trans with x; [apply N.Div0.div_le_upper_bound; lia |].
      apply N.pow_gt_lin_r. reflexivity. }
    specialize (H Hlt). cbn [String.length] in H. lia.
  - assert (Hdiv : (10 ^ N.of_nat k <= x `div` 10)%N).
    { apply N.div_le_lower_bound; [discriminate |].
      rewrite Nat2N.inj_succ, N.pow_succ_r' in Hx. exact Hx. }
    pose proof (IH (x `div` 10)%N ltac:(apply N.div_lt; lia)
                  (String (pretty_N_char (x `mod` 10)) s) k Hdiv) as H.
    cbn [String.length] in H. lia.
Qed.

Lemma String_of_length_ge (z : Z) (k : nat) :
  10 ^ Z.of_nat k <= z -> (k + 1 <= String.length (String_of z))%nat.
Proof.
  intros Hz.
  assert (Hpos : 0 < z).
  { pose proof (Z.pow_pos_nonneg 10 (Z.of_nat k) ltac:(lia) ltac:(lia)). lia. }
  unfold String_of, pretty, pretty_Z. destruct z as [| p | p]; try lia.
  unfold pretty, pretty_positive, pretty, pretty_N.
  destruct (decide (N.pos p = 0%N)); [discriminate |].
  assert (Hx : (10 ^ N.of_nat k <= N.pos p)%N).
  { apply N2Z.inj_le. rewrite N2Z.inj_pow, nat_N_Z. exact Hz. }
  pose proof (pretty_N_go_length_ge (N.pos p) "" k Hx) as H.
  cbn [String.length] in H. lia.
Qed.

(** X25.  The size of a record's text.  A record whose fields are in their
    ranges is sent as 10 to 33 characters -- ten digits at most for the time
    stamp, five for each concentration, three for the battery level, four
    commas and the semicolon.  The record with the largest fields takes all
    33, and every record with a ten-digit time stamp (any time since 2001)
    and three five-digit concentrations takes more than the 30 characters
    per record that [prepareLoggedDataForChunking] counts on when it
    announces [totalChunks]. *)
Theorem serialize_length (r : LogData.t) :
  LogData.in_range r ->
  (10 <= String.length (LogData.serialize r) <= 33)%nat /\
  (10 ^ 9 <= LogData.timestamp r ->
   10 ^ 4 <= LogData.pm1_0_env r ->
   10 ^ 4 <= LogData.pm2_5_env r ->
   10 ^ 4 <= LogData.pm10_0_env r ->
   (30 < String.length (LogData.serialize r))%nat) /\
  LogData.in_range (LogData.mk (2 ^ 32 - 1) (2 ^ 16 - 1) (2 ^ 16 - 1) (2 ^ 16 - 1)
                      (2 ^ 8 - 1)) /\
  String.length
    (LogData.serialize
       (LogData.mk (2 ^ 32 - 1) (2 ^ 16 - 1) (2 ^ 16 - 1) (2 ^ 16 - 1) (2 ^ 8 - 1)))
  = 33%nat.
Proof.
  intros (Ht & H1 & H2 & H3 & Hb).
  split; [| split; [| split; [unfold LogData.in_range; cbn; lia | reflexivity]]].
  - unfold LogData.serialize. rewrite !str_length_app.
    pose proof (String_of_length (LogData.timestamp r) 10 ltac:(cbn; lia)).
    pose proof (String_of_length (LogData.pm1_0_env r) 5 ltac:(cbn; lia)).
    pose proof (String_of_length (LogData.pm2_5_env r) 5 ltac:(cbn; lia)).
    pose proof (String_of_length (LogData.pm10_0_env r) 5 ltac:(cbn; lia)).
    pose proof (String_of_length (LogData.battery_level r) 3 ltac:(cbn; lia)).
    cbn [String.length]. lia.
  - intros Gt G1 G2 G3. unfold LogData.serialize. rewrite !str_length_app.
    pose proof (String_of_length_ge (LogData.timestamp r) 9 Gt).
    pose proof (String_of_length_ge (LogData.pm1_0_env r) 4 G1).
    pose proof (String_of_length_ge (LogData.pm2_5_env r) 4 G2).
    pose proof (String_of_length_ge (LogData.pm10_0_env r) 4 G3).
    pose proof (String_of_length (LogData.battery_level r) 3 ltac:(cbn; lia)).
    cbn [String.length]. lia.
Qed.

(** A reading of a dusty room in 2023: 31 characters. *)
Lemma serialize_length_witness :
  (10 <= String.length (LogData.serialize (LogData.mk 1700000000 10000 20000 30000 5))
   <= 33)%nat /\
  (30 < String.length (LogData.serialize (LogData.mk 1700000000 10000 20000 30000 5)))%nat.
Proof.
  destruct (serialize_length (LogData.mk 1700000000 10000 20000 30000 5)
              ltac:(unfold LogData.in_range; cbn; lia)) as (Hrange & Hover & _).
  split; [exact Hrange |].
  apply Hover; cbn; lia.
Defined.

(* --------------------------------------------------------------------- *)
(** ** The clock under the callbacks, and blobs of the wrong size *)
(* --------------------------------------------------------------------- *)

(** X26.  The clock changes only through an accepted time write.  A write
    callback leaves the clock as it was unless it is a write to the RTC
    characteristic whose text reads as a time after 1 January 2021, and
    then the clock is the one [setRTCTimeFromBLE] makes of that time; a read
    callback never changes the clock; and a turn of the sensor task lets
    time pass but changes neither [rtcTimeSet] nor [rtcTimeAccurate]. *)
Theorem clock_changes_only_by_rtc_write
    (env env2 : Env) (ok : bool) (uuid value : string) (sk : Sketch)
    (centivolts : Z) (answer : option PM25_AQI_Data) (junk : SensorData.t) :
  let c := clock (device sk) in
  let c1 := clock (device (fst (onWrite env ok uuid value sk))) in
  let c2 := clock (SensorTask_iteration env2 centivolts answer junk (device sk)) in
  (c1 = c \/
   uuid = RTC_TIME_UUID /\
   JAN_1_2021 < toInt (c_str value) /\
   c1 = setRTCTimeFromBLE (toInt (c_str value)) c) /\
  clock (device (fst (onRead env uuid sk))) = c /\
  rtcTimeSet c2 = rtcTimeSet c /\
  rtcTimeAccurate c2 = rtcTimeAccurate c.
Proof.
  cbv zeta. split; [| split].
  - unfold onWrite. destruct (String.eqb uuid CHUNK_REQUEST_UUID).
    + destruct (onWrite_chunkRequest env (store (device sk))
                  (toInt (c_str value)) (session (device sk))).
      left. reflexivity.
    + destruct (String.eqb uuid POWER_MODE_UUID).
      * destruct (Bool.eqb (String.eqb (c_str value) "1") (lowPowerMode sk));
          left; reflexivity.
      * destruct (String.eqb uuid RTC_TIME_UUID) eqn:Hrtc; [| left; reflexivity].
        apply String.eqb_eq in Hrtc. cbn [fst device clock].
        unfold onWrite_rtcTime.
        destruct (JAN_1_2021 <? toInt (c_str value)) eqn:Hlate;
          [| left; reflexivity].
        right. apply Z.ltb_lt in Hlate. repeat split; assumption.
  - unfold onRead. destruct (String.eqb uuid LOGGED_DATA_UUID).
    + destruct (sendLoggedDataChunk env (store (device sk)) (session (device sk))).
      reflexivity.
    + destruct (String.eqb uuid CHUNK_INFO_UUID); [reflexivity |].
      destruct (String.eqb uuid CHUNK_REQUEST_UUID); [reflexivity |].
      destruct (String.eqb uuid POWER_MODE_UUID); [reflexivity |].
      destruct (String.eqb uuid RTC_TIME_UUID); reflexivity.
  - unfold SensorTask_iteration, readPMSA003I.
    destruct answer; cbn [clock tick rtcTimeSet rtcTimeAccurate]; split; reflexivity.
Qed.

(** X27.  On the key/value path a blob of the wrong size counts as no
    record.  When the slot of an index holds anything but a blob of
    exactly [sizeof(LogData)] octets, the loop body of [loadNextBatch] reads
    for that index what it would read if the slot were empty: the blob is
    never decoded, whatever its octets. *)
Theorem load_entry_wrong_size (env : Env) (st : Store) (i : Z) :
  useLittleFS st = false ->
  (forall blob, preferences st !! slot_key i = Some (PBytes blob) ->
                length blob <> LogData.sizeof) ->
  load_entry env st i =
  load_entry env (set_preferences (delete (slot_key i) (preferences st)) st) i.
Proof.
  intros Hkv Hsize. unfold load_entry.
  cbn [useLittleFS preferences set_preferences]. rewrite Hkv.
  assert (Hslot : (fst (Preferences.getBytes (slot_key i) LogData.sizeof
                          (preferences st)) =? LogData.sizeof)%nat = false).
  { unfold Preferences.getBytes.
    destruct (preferences st !! slot_key i) as [[v | b | blob] |] eqn:Hkey;
      try reflexivity.
    pose proof (Hsize blob eq_refl) as Hlen.
    destruct (length blob <=? LogData.sizeof)%nat; cbn [fst];
      [apply Nat.eqb_neq; exact Hlen | reflexivity]. }
  assert (Hgone : (fst (Preferences.getBytes (slot_key i) LogData.sizeof
                          (delete (slot_key i) (preferences st)))
                   =? LogData.sizeof)%nat = false).
  { unfold Preferences.getBytes. rewrite lookup_delete_eq. reflexivity. }
  destruct (Preferences.getBytes (slot_key i) LogData.sizeof (preferences st))
    as [n1 b1].
  destruct (Preferences.getBytes (slot_key i) LogData.sizeof
              (delete (slot_key i) (preferences st))) as [n2 b2].
  cbn [fst] in Hslot, Hgone. rewrite Hslot, Hgone.
  unfold Preferences.getBytes.
  rewrite lookup_delete_ne; [reflexivity |].
  apply slot_key_not_legacy.
Qed.

Lemma load_entry_wrong_size_witness :
  let st := mkStore 1 false (<[slot_key 0 := PBytes [1; 0; 0; 0; 7]]> ∅) empty_fs
              ERROR_NONE in
  load_entry healthy st 0 =
  load_entry healthy
    (set_preferences (delete (slot_key 0) (preferences st)) st) 0.
Proof.
  apply (load_entry_wrong_size healthy
           (mkStore 1 false (<[slot_key 0 := PBytes [1; 0; 0; 0; 7]]> ∅) empty_fs
              ERROR_NONE) 0).
  - reflexivity.
  - intros blob Hblob.
    change (preferences _ !! slot_key 0) with (Some (PBytes [1; 0; 0; 0; 7]))
      in Hblob.
    injection Hblob as <-. unfold LogData.sizeof. cbn [length]. lia.
Defined.
